(** * Anomaly detection engine: a shallow embedding of the Go services

    Source files embedded here:
    - [internal/models] (JobData, Anomaly, AnomalyRule and their constants),
    - [internal/services/anomaly_service.go] (DetectAnomalies, getStatistics,
      saveAnomaly, compareValues, GetAnomaliesByJobID,
      DetectAnomaliesForAllJobs, IsValidOperator),
    - [internal/services/database_service.go] (the table definitions, and the
      rule service: GetAnomalyRules, CreateAnomalyRule).

    Go's [float64] is Rocq's primitive binary64 [float]; Go strings are
    [string]; a Go pointer field that may be nil is an [option]; a Go slice is
    a [list] (the nil slice and the empty slice are both [[]]).  The services
    talk to PostgreSQL through [DatabaseServiceInterface]; the database is the
    [World] record below and every service method is a function in the monad
    [M], which threads the world and records the calls made to the database
    together with the lines printed on standard output. *)

From Stdlib Require Import ZArith List String Bool Lia Floats SpecFloat Uint63
  Sorting.Sorted Sorting.Permutation DecimalString.
Import ListNotations.
Local Open Scope string_scope.
Local Open Scope Z_scope.

Set Implicit Arguments.

(** ** Errors and results *)

(** A Go [error].  [Errorf msg cause] is [fmt.Errorf(msg + ": %w", cause)]. *)
Inductive error : Type :=
| ErrDriver                      (* the driver could not run the statement *)
| ErrScanNull (column : nat)     (* Scan: converting NULL to float64 is unsupported *)
| ErrForeignKey                  (* anomalies.job_id REFERENCES jobs(job_id) *)
| ErrUnique                      (* anomaly_rules.name is UNIQUE *)
| Errorf (msg : string) (cause : error).

(** The pair [(value, err)] a Go function returns: [Err e] is [(nil, e)]. *)
Inductive result (A : Type) : Type :=
| Ok (a : A)
| Err (e : error).
Arguments Ok {A} a.
Arguments Err {A} e.

Definition is_ok {A} (r : result A) : bool :=
  match r with Ok _ => true | Err _ => false end.

(** [strconv]-style decimal rendering of an int64, as [Scan] does when it
    stores a BIGSERIAL id into the string field [Anomaly.ID]. *)
Definition FormatInt (n : Z) : string := NilZero.string_of_int (Z.to_int n).

(** ** internal/models *)

Module JobData.
(** The fields of [models.JobData] read by the anomaly service.  The other
    fields of the struct are never read by it. *)
Record t : Type := mk {
  CompanyName    : string;
  CompanyRating  : float;
  CompanyAddress : string;
  CompanyWebsite : string;
  JobTitle       : string;
  JobID          : string;
  JobLink        : string;
  JobDescription : string;
  MinSalary      : option float;
  MaxSalary      : option float;
  City           : string
}.

End JobData.

Definition AnomalyType := string.
Definition ComparisonOperator := string.

Definition AnomalyTypeMaxSalary  : AnomalyType := "max_salary".
Definition AnomalyTypeMinSalary  : AnomalyType := "min_salary".
Definition AnomalyTypeRating     : AnomalyType := "company_rating".
Definition AnomalyTypeNullValues : AnomalyType := "null_values".
Definition AnomalyTypeDeviation  : AnomalyType := "standard_deviation".

Definition GreaterThan        : ComparisonOperator := ">".
Definition GreaterThanOrEqual : ComparisonOperator := ">=".
Definition LessThan           : ComparisonOperator := "<".
Definition LessThanOrEqual    : ComparisonOperator := "<=".
Definition Equal              : ComparisonOperator := "=".

Module Anomaly.
Record t : Type := mk {
  ID          : string;
  Type_       : AnomalyType;
  JobID       : string;
  Description : string;
  Value       : float;
  Threshold   : float;
  Operator    : ComparisonOperator;
  CreatedAt   : Z;
  Violations  : list string
}.

Definition with_ID (a : t) (id : string) : t :=
  mk id (Type_ a) (JobID a) (Description a) (Value a) (Threshold a)
     (Operator a) (CreatedAt a) (Violations a).
End Anomaly.

Module AnomalyRule.
Record t : Type := mk {
  ID          : Z;
  Name        : string;
  Description : string;
  Type_       : AnomalyType;
  Operator    : ComparisonOperator;
  Value       : float;
  IsActive    : bool;
  CreatedAt   : Z;
  UpdatedAt   : Z
}.
End AnomalyRule.

(** ** internal/services: constants of anomaly_service.go *)

Definition StdDevThreshold : float := 3%float.

Definition ValidOperators : list ComparisonOperator :=
  [GreaterThan; GreaterThanOrEqual; LessThan; LessThanOrEqual; Equal].

Fixpoint IsValidOperator_loop (op : ComparisonOperator)
    (ops : list ComparisonOperator) : bool :=
  match ops with
  | [] => false
  | validOp :: rest =>
      if String.eqb op validOp then true else IsValidOperator_loop op rest
  end.

Definition IsValidOperator (op : ComparisonOperator) : bool :=
  IsValidOperator_loop op ValidOperators.

(** [Statistics]: the four fields filled by [getStatistics]. *)
Record Statistics : Type := mkStatistics {
  AvgSalary    : float;
  SalaryStdDev : float;
  AvgRating    : float;
  RatingStdDev : float
}.

(** [compareValues] (anomaly_service.go, 333-348).  Go's [a > b] on float64 is
    the IEEE comparison [PrimFloat.ltb b a]. *)
Definition compareValues (value threshold : float)
    (operator : ComparisonOperator) : bool :=
  if String.eqb operator GreaterThan then PrimFloat.ltb threshold value
  else if String.eqb operator GreaterThanOrEqual then PrimFloat.leb threshold value
  else if String.eqb operator LessThan then PrimFloat.ltb value threshold
  else if String.eqb operator LessThanOrEqual then PrimFloat.leb value threshold
  else if String.eqb operator Equal then PrimFloat.eqb value threshold
  else false.

(** ** The database

    The tables created by [createJobsTable], [createAnomaliesTable] and
    [createAnomalyRulesTable] (database_service.go, 118-223). *)

Module JobsRow.
(** A row of [jobs], restricted to the columns the anomaly service selects.
    [company_name] and [job_title] are NOT NULL, [job_id] is the primary key;
    the three numeric columns are nullable ([None] is NULL). *)
Record t : Type := mk {
  job_id         : string;
  company_name   : string;
  company_rating : option float;
  job_title      : string;
  min_salary     : option float;
  max_salary     : option float
}.
End JobsRow.

(** What a database call runs into: nothing, a statement that cannot be run,
    or a result set whose delivery breaks after [n] rows. *)
Inductive fault : Type :=
| Healthy
| Broken
| Interrupted (n : nat).

Record World : Type := mkWorld {
  jobs          : list JobsRow.t;      (* table jobs *)
  anomaly_rules : list AnomalyRule.t;  (* table anomaly_rules, oldest row first *)
  anomalies     : list Anomaly.t;      (* table anomalies, oldest row first *)
  anomalies_seq : Z;                   (* last value of anomalies.id (BIGSERIAL) *)
  rules_seq     : Z;                   (* last value of anomaly_rules.id *)
  clock         : Z;                   (* what time.Now() returns next *)
  faults        : list fault           (* the faults of the coming database
                                          calls, one per call; none left: healthy *)
}.

(** [*sql.Rows] once the query has run: the rows that [Next] delivers, and
    what [rows.Err()] says after the last of them. *)
Record Rows (A : Type) : Type := mkRows {
  delivered : list A;
  rows_Err  : option error
}.

(** The calls a service makes on [DatabaseServiceInterface], each with what
    the database answered, and the lines written by [fmt.Printf]. *)
Inductive event : Type :=
| EvStatistics (r : result Statistics)
| EvInsertAnomaly (a : Anomaly.t) (r : result Z)
| EvInsertRule (rule : AnomalyRule.t) (r : result Z)
| EvSelectRules (r : result (Rows AnomalyRule.t))
| EvSelectJobs (r : result (Rows JobsRow.t))
| EvSelectAnomalies (jobID : option string) (r : result (Rows Anomaly.t))
| EvPrintf (msg : string) (e : error).

(** ** The monad of the services: world passing plus the log of events *)

Record outcome (A : Type) : Type := Out {
  val   : A;
  post  : World;
  trace : list event
}.

Definition M (A : Type) : Type := World -> outcome A.

Definition ret {A} (a : A) : M A := fun w => Out a w [].

Definition bind {A B} (m : M A) (f : A -> M B) : M B :=
  fun w =>
    let o1 := m w in
    let o2 := f (val o1) (post o1) in
    Out (val o2) (post o2) (trace o1 ++ trace o2).

Notation "x <- m ;; k" := (bind m (fun x => k))
  (at level 61, m at next level, right associativity).

Definition emit (e : event) : M unit := fun w => Out tt w [e].

(** [fmt.Printf(msg + ": %v\n", err)]. *)
Definition Printf (msg : string) (e : error) : M unit := emit (EvPrintf msg e).

(** [time.Now()]: the clock is read and moves on. *)
Definition time_Now : M Z :=
  fun w =>
    Out (clock w)
        (mkWorld (jobs w) (anomaly_rules w) (anomalies w) (anomalies_seq w)
                 (rules_seq w) (clock w + 1) (faults w))
        [].

(** Each database call meets the next fault of the schedule. *)
Definition take_fault : M fault :=
  fun w =>
    match faults w with
    | [] => Out Healthy w []
    | f :: rest =>
        Out f
            (mkWorld (jobs w) (anomaly_rules w) (anomalies w) (anomalies_seq w)
                     (rules_seq w) (clock w) rest)
            []
    end.

Definition read_world : M World := fun w => Out w w [].

Definition open_rows {A} (f : fault) (all : list A) : result (Rows A) :=
  match f with
  | Healthy => Ok (mkRows all None)
  | Broken => Err ErrDriver
  | Interrupted n => Ok (mkRows (firstn n all) (Some ErrDriver))
  end.

(** [ORDER BY created_at DESC]: a stable insertion sort, newest first (rows
    with equal timestamps keep their table order). *)
Fixpoint insert_desc {A} (key : A -> Z) (x : A) (l : list A) : list A :=
  match l with
  | [] => [x]
  | y :: l' => if key y <=? key x then x :: l else y :: insert_desc key x l'
  end.

Definition order_by_desc {A} (key : A -> Z) (l : list A) : list A :=
  fold_right (insert_desc key) [] l.

(** Go's [append(s, x)]. *)
Definition append {A} (s : list A) (x : A) : list A := (s ++ [x])%list.

(** The [for rows.Next() { rows.Scan(...); append }] loop of the list
    methods: the first row that does not scan ends it with that error. *)
Fixpoint scan_rows {A B} (scan : A -> result B) (rows : list A)
    (acc : list B) : result (list B) :=
  match rows with
  | [] => Ok acc
  | row :: rest =>
      match scan row with
      | Err e => Err e
      | Ok b => scan_rows scan rest (append acc b)
      end
  end.

(** ** What the code takes from its platform

    The numeric results of PostgreSQL's aggregates over [double precision]
    (the server's own summation algorithm) and the rendering of
    [fmt.Sprintf("%.2f", z)] are not code of the repository: they are taken
    as given.  When an aggregate is NULL is fixed by SQL and modelled below. *)
Class Platform : Type := {
  float8_avg    : list float -> float;   (* AVG over one value or more *)
  float8_stddev : list float -> float;   (* STDDEV over two values or more *)
  Sprintf_2f    : float -> string
}.

Section Services.
Context {platform : Platform}.

(** *** The statements sent to the database *)

(** PostgreSQL orders NaN above every other float: [x > y] in SQL. *)
Definition float8_gt (x y : float) : bool :=
  if PrimFloat.is_nan x then negb (PrimFloat.is_nan y) else PrimFloat.ltb y x.

(** [WHERE max_salary IS NOT NULL AND company_rating > 0]. *)
Definition qualifies (row : JobsRow.t) : bool :=
  match JobsRow.max_salary row, JobsRow.company_rating row with
  | Some _, Some rating => float8_gt rating 0%float
  | _, _ => false
  end.

Definition column {A} (get : JobsRow.t -> option A) (rows : list JobsRow.t) : list A :=
  flat_map (fun row => match get row with Some x => [x] | None => [] end) rows.

(** [AVG] is NULL over no row; [STDDEV] (the sample deviation) is NULL over
    fewer than two rows. *)
Definition sql_avg (xs : list float) : option float :=
  match xs with
  | [] => None
  | _ :: _ => Some (float8_avg xs)
  end.

Definition sql_stddev (xs : list float) : option float :=
  match xs with
  | [] | [_] => None
  | _ :: _ :: _ => Some (float8_stddev xs)
  end.

(** [Scan(&stats.AvgSalary, &stats.SalaryStdDev, &stats.AvgRating,
    &stats.RatingStdDev)]: a NULL column cannot be stored in a float64. *)
Definition scan_statistics (c0 c1 c2 c3 : option float) : result Statistics :=
  match c0 with
  | None => Err (ErrScanNull 0)
  | Some avg_salary =>
  match c1 with
  | None => Err (ErrScanNull 1)
  | Some salary_stddev =>
  match c2 with
  | None => Err (ErrScanNull 2)
  | Some avg_rating =>
  match c3 with
  | None => Err (ErrScanNull 3)
  | Some rating_stddev =>
      Ok (mkStatistics avg_salary salary_stddev avg_rating rating_stddev)
  end end end end.

(** The query of [getStatistics] (anomaly_service.go, 281-297) and the Scan
    of its one row. *)
Definition select_statistics (rows : list JobsRow.t) : result Statistics :=
  let population := filter qualifies rows in
  let salaries := column JobsRow.max_salary population in
  let ratings := column JobsRow.company_rating population in
  scan_statistics (sql_avg salaries) (sql_stddev salaries)
                  (sql_avg ratings) (sql_stddev ratings).

(** A statement that returns one row ([QueryRow(...).Scan]) fails as a whole
    under any fault. *)
Definition db_QueryRow_statistics : M (result Statistics) :=
  f <- take_fault ;;
  w <- read_world ;;
  let r := match f with
           | Healthy => select_statistics (jobs w)
           | _ => Err ErrDriver
           end in
  _ <- emit (EvStatistics r) ;;
  ret r.

Definition job_exists (id : string) (rows : list JobsRow.t) : bool :=
  existsb (fun row => String.eqb (JobsRow.job_id row) id) rows.

(** [INSERT INTO anomalies (...) VALUES (...) RETURNING id].  The id is
    drawn from the sequence before the foreign key is checked, and a drawn
    value is not given back. *)
Definition db_QueryRow_insert_anomaly (a : Anomaly.t) : M (result Z) :=
  f <- take_fault ;;
  fun w =>
    match f with
    | Healthy =>
        let id := anomalies_seq w + 1 in
        if job_exists (Anomaly.JobID a) (jobs w) then
          Out (Ok id)
              (mkWorld (jobs w) (anomaly_rules w)
                       (append (anomalies w) (Anomaly.with_ID a (FormatInt id)))
                       id (rules_seq w) (clock w) (faults w))
              [EvInsertAnomaly a (Ok id)]
        else
          Out (Err ErrForeignKey)
              (mkWorld (jobs w) (anomaly_rules w) (anomalies w)
                       id (rules_seq w) (clock w) (faults w))
              [EvInsertAnomaly a (Err ErrForeignKey)]
    | _ => Out (Err ErrDriver) w [EvInsertAnomaly a (Err ErrDriver)]
    end.

Definition name_taken (name : string) (rules : list AnomalyRule.t) : bool :=
  existsb (fun r => String.eqb (AnomalyRule.Name r) name) rules.

Definition with_rule_ID (rule : AnomalyRule.t) (id : Z) : AnomalyRule.t :=
  AnomalyRule.mk id (AnomalyRule.Name rule) (AnomalyRule.Description rule)
    (AnomalyRule.Type_ rule) (AnomalyRule.Operator rule) (AnomalyRule.Value rule)
    (AnomalyRule.IsActive rule) (AnomalyRule.CreatedAt rule)
    (AnomalyRule.UpdatedAt rule).

(** [INSERT INTO anomaly_rules (...) VALUES (...) RETURNING id].  Here too
    the id is drawn before the unique index on [name] is checked. *)
Definition db_QueryRow_insert_rule (rule : AnomalyRule.t) : M (result Z) :=
  f <- take_fault ;;
  fun w =>
    match f with
    | Healthy =>
        let id := rules_seq w + 1 in
        if name_taken (AnomalyRule.Name rule) (anomaly_rules w) then
          Out (Err ErrUnique)
              (mkWorld (jobs w) (anomaly_rules w) (anomalies w)
                       (anomalies_seq w) id (clock w) (faults w))
              [EvInsertRule rule (Err ErrUnique)]
        else
          Out (Ok id)
              (mkWorld (jobs w) (append (anomaly_rules w) (with_rule_ID rule id))
                       (anomalies w) (anomalies_seq w) id (clock w) (faults w))
              [EvInsertRule rule (Ok id)]
    | _ => Out (Err ErrDriver) w [EvInsertRule rule (Err ErrDriver)]
    end.

(** [SELECT ... FROM anomaly_rules ORDER BY created_at DESC]. *)
Definition db_Query_rules : M (result (Rows AnomalyRule.t)) :=
  f <- take_fault ;;
  w <- read_world ;;
  let r := open_rows f (order_by_desc AnomalyRule.CreatedAt (anomaly_rules w)) in
  _ <- emit (EvSelectRules r) ;;
  ret r.

(** [SELECT job_id, company_name, company_rating, job_title, min_salary,
    max_salary FROM jobs]. *)
Definition db_Query_jobs : M (result (Rows JobsRow.t)) :=
  f <- take_fault ;;
  w <- read_world ;;
  let r := open_rows f (jobs w) in
  _ <- emit (EvSelectJobs r) ;;
  ret r.

(** [SELECT ... FROM anomalies WHERE job_id = $1 ORDER BY created_at DESC]
    and, without the WHERE clause, the query of [GetAllAnomalies]. *)
Definition db_Query_anomalies (jobID : option string) : M (result (Rows Anomaly.t)) :=
  f <- take_fault ;;
  w <- read_world ;;
  let selected :=
    match jobID with
    | Some id => filter (fun a => String.eqb (Anomaly.JobID a) id) (anomalies w)
    | None => anomalies w
    end in
  let r := open_rows f (order_by_desc Anomaly.CreatedAt selected) in
  _ <- emit (EvSelectAnomalies jobID r) ;;
  ret r.

(** *** anomaly_service.go *)

(** [getStatistics] (280-304). *)
Definition getStatistics : M (result Statistics) :=
  r <- db_QueryRow_statistics ;;
  match r with
  | Err err => ret (Err (Errorf "error getting statistics" err))
  | Ok stats => ret (Ok stats)
  end.

(** [saveAnomaly] (307-330).  The Go method fills [anomaly.ID] through the
    pointer; here the anomaly with its id is returned. *)
Definition saveAnomaly (anomaly : Anomaly.t) : M (result Anomaly.t) :=
  r <- db_QueryRow_insert_anomaly anomaly ;;
  match r with
  | Err err => ret (Err (Errorf "error inserting anomaly" err))
  | Ok id => ret (Ok (Anomaly.with_ID anomaly (FormatInt id)))
  end.

(** The block that follows the construction of every anomaly in
    [DetectAnomalies]:
    [if err := s.saveAnomaly(&a); err != nil { fmt.Printf(msg, ..., err) }
     else { detectedAnomalies = append(detectedAnomalies, a) }]. *)
Definition save_or_print (msg : string) (anomaly : Anomaly.t)
    (detectedAnomalies : list Anomaly.t) : M (list Anomaly.t) :=
  r <- saveAnomaly anomaly ;;
  match r with
  | Err err => _ <- Printf msg err ;; ret detectedAnomalies
  | Ok saved => ret (append detectedAnomalies saved)
  end.

(** Lines 127-149: the seven [if job.F == "" { append }] statements. *)
Definition nullViolations (job : JobData.t) : list string :=
  let v := [] in
  let v := if String.eqb (JobData.CompanyName job) "" then append v "company_name" else v in
  let v := if String.eqb (JobData.JobTitle job) "" then append v "job_title" else v in
  let v := if String.eqb (JobData.JobDescription job) "" then append v "job_description" else v in
  let v := if String.eqb (JobData.City job) "" then append v "city" else v in
  let v := if String.eqb (JobData.CompanyAddress job) "" then append v "company_address" else v in
  let v := if String.eqb (JobData.CompanyWebsite job) "" then append v "company_website" else v in
  let v := if String.eqb (JobData.JobLink job) "" then append v "job_link" else v in
  v.

(** The struct literal of lines 153-162; [now] is its [time.Now()]. *)
Definition nullAnomaly (job : JobData.t) (now : Z) : Anomaly.t :=
  Anomaly.mk "" AnomalyTypeNullValues (JobData.JobID job)
    "Required fields are null" 0%float 0%float Equal now (nullViolations job).

(** Lines 151-168. *)
Definition detect_null_values (job : JobData.t)
    (detectedAnomalies : list Anomaly.t) : M (list Anomaly.t) :=
  if (0 <? List.length (nullViolations job))%nat then
    now <- time_Now ;;
    save_or_print ("Error saving null value anomaly for job " ++ JobData.JobID job)
      (nullAnomaly job now) detectedAnomalies
  else ret detectedAnomalies.

(** [zScore := (value - mean) / stddev]. *)
Definition zScore (value mean stddev : float) : float :=
  PrimFloat.div (PrimFloat.sub value mean) stddev.

(** [math.Abs(zScore) > StdDevThreshold]. *)
Definition deviates (z : float) : bool :=
  PrimFloat.ltb StdDevThreshold (PrimFloat.abs z).

(** The struct literal of lines 180-189. *)
Definition salaryDeviationAnomaly (job : JobData.t) (stats : Statistics)
    (maxSalary : float) (now : Z) : Anomaly.t :=
  Anomaly.mk "" AnomalyTypeDeviation (JobData.JobID job)
    ("Salary deviates significantly from mean (z-score: "
       ++ Sprintf_2f (zScore maxSalary (AvgSalary stats) (SalaryStdDev stats))
       ++ ")")
    maxSalary (AvgSalary stats) Equal now ["max_salary"].

(** Lines 177-196. *)
Definition detect_salary_deviation (job : JobData.t) (stats : Statistics)
    (detectedAnomalies : list Anomaly.t) : M (list Anomaly.t) :=
  match JobData.MaxSalary job with
  | Some maxSalary =>
      if deviates (zScore maxSalary (AvgSalary stats) (SalaryStdDev stats)) then
        now <- time_Now ;;
        save_or_print
          ("Error saving salary deviation anomaly for job " ++ JobData.JobID job)
          (salaryDeviationAnomaly job stats maxSalary now) detectedAnomalies
      else ret detectedAnomalies
  | None => ret detectedAnomalies
  end.

(** The struct literal of lines 201-210. *)
Definition ratingDeviationAnomaly (job : JobData.t) (stats : Statistics)
    (now : Z) : Anomaly.t :=
  Anomaly.mk "" AnomalyTypeDeviation (JobData.JobID job)
    ("Company rating deviates significantly from mean (z-score: "
       ++ Sprintf_2f
            (zScore (JobData.CompanyRating job) (AvgRating stats) (RatingStdDev stats))
       ++ ")")
    (JobData.CompanyRating job) (AvgRating stats) Equal now ["company_rating"].

(** Lines 198-217. *)
Definition detect_rating_deviation (job : JobData.t) (stats : Statistics)
    (detectedAnomalies : list Anomaly.t) : M (list Anomaly.t) :=
  if negb (PrimFloat.eqb (JobData.CompanyRating job) 0%float) then
    if deviates
         (zScore (JobData.CompanyRating job) (AvgRating stats) (RatingStdDev stats))
    then
      now <- time_Now ;;
      save_or_print
        ("Error saving rating deviation anomaly for job " ++ JobData.JobID job)
        (ratingDeviationAnomaly job stats now) detectedAnomalies
    else ret detectedAnomalies
  else ret detectedAnomalies.

(** *** database_service.go: the rule service *)

(** No column selected by [GetAnomalyRules] is nullable: its Scan succeeds. *)
Definition scan_rule (row : AnomalyRule.t) : result AnomalyRule.t := Ok row.

(** [AnomalyRuleService.GetAnomalyRules] (618-656). *)
Definition GetAnomalyRules : M (result (list AnomalyRule.t)) :=
  r <- db_Query_rules ;;
  match r with
  | Err err => ret (Err (Errorf "error querying anomaly rules" err))
  | Ok rows =>
      match scan_rows scan_rule (delivered rows) [] with
      | Err err => ret (Err (Errorf "error scanning anomaly rule" err))
      | Ok rules =>
          match rows_Err rows with
          | Some err => ret (Err (Errorf "error iterating anomaly rules" err))
          | None => ret (Ok rules)
          end
      end
  end.

(** [AnomalyRuleService.CreateAnomalyRule] (691-719).  The Go method writes
    the timestamps and the id through the pointer; here the rule as the
    caller sees it afterwards is returned beside the error. *)
Definition CreateAnomalyRule (rule : AnomalyRule.t)
    : M (AnomalyRule.t * option error) :=
  now <- time_Now ;;
  let rule :=
    AnomalyRule.mk (AnomalyRule.ID rule) (AnomalyRule.Name rule)
      (AnomalyRule.Description rule) (AnomalyRule.Type_ rule)
      (AnomalyRule.Operator rule) (AnomalyRule.Value rule)
      (AnomalyRule.IsActive rule) now now in
  r <- db_QueryRow_insert_rule rule ;;
  match r with
  | Err err => ret (rule, Some (Errorf "error creating anomaly rule" err))
  | Ok id => ret (with_rule_ID rule id, None)
  end.

(** *** anomaly_service.go: rule-based detection *)

(** The [switch rule.Type] of lines 235-253: [Some (actualValue,
    anomalyDetected)] after one of the three cases, [None] for [default:
    continue]. *)
Definition rule_switch (job : JobData.t) (rule : AnomalyRule.t)
    : option (float * bool) :=
  let threshold := AnomalyRule.Value rule in
  let operator := AnomalyRule.Operator rule in
  if String.eqb (AnomalyRule.Type_ rule) AnomalyTypeMaxSalary then
    match JobData.MaxSalary job with
    | Some maxSalary => Some (maxSalary, compareValues maxSalary threshold operator)
    | None => Some (0%float, false)
    end
  else if String.eqb (AnomalyRule.Type_ rule) AnomalyTypeMinSalary then
    match JobData.MinSalary job with
    | Some minSalary => Some (minSalary, compareValues minSalary threshold operator)
    | None => Some (0%float, false)
    end
  else if String.eqb (AnomalyRule.Type_ rule) AnomalyTypeRating then
    Some (JobData.CompanyRating job,
          compareValues (JobData.CompanyRating job) threshold operator)
  else None.

(** The struct literal of lines 256-264: it sets no [Violations]. *)
Definition ruleAnomaly (job : JobData.t) (rule : AnomalyRule.t)
    (actualValue : float) (now : Z) : Anomaly.t :=
  Anomaly.mk "" (AnomalyRule.Type_ rule) (JobData.JobID job)
    (AnomalyRule.Description rule) actualValue (AnomalyRule.Value rule)
    (AnomalyRule.Operator rule) now [].

(** The body of [for _, rule := range rules] (lines 227-273). *)
Definition apply_rule (job : JobData.t) (rule : AnomalyRule.t)
    (detectedAnomalies : list Anomaly.t) : M (list Anomaly.t) :=
  if negb (AnomalyRule.IsActive rule) then ret detectedAnomalies
  else
    match rule_switch job rule with
    | None => ret detectedAnomalies
    | Some (actualValue, anomalyDetected) =>
        if anomalyDetected then
          now <- time_Now ;;
          save_or_print
            ("Error saving anomaly for job " ++ JobData.JobID job ++ ", rule "
               ++ FormatInt (AnomalyRule.ID rule))
            (ruleAnomaly job rule actualValue now) detectedAnomalies
        else ret detectedAnomalies
    end.

Fixpoint apply_rules (job : JobData.t) (rules : list AnomalyRule.t)
    (detectedAnomalies : list Anomaly.t) : M (list Anomaly.t) :=
  match rules with
  | [] => ret detectedAnomalies
  | rule :: rest =>
      detectedAnomalies <- apply_rule job rule detectedAnomalies ;;
      apply_rules job rest detectedAnomalies
  end.

(** [AnomalyService.DetectAnomalies] (124-277). *)
Definition DetectAnomalies (job : JobData.t) : M (result (list Anomaly.t)) :=
  detectedAnomalies <- detect_null_values job [] ;;
  r <- getStatistics ;;
  match r with
  | Err err => ret (Err (Errorf "error getting statistics" err))
  | Ok stats =>
      detectedAnomalies <- detect_salary_deviation job stats detectedAnomalies ;;
      detectedAnomalies <- detect_rating_deviation job stats detectedAnomalies ;;
      r <- GetAnomalyRules ;;
      match r with
      | Err err => ret (Err (Errorf "error getting anomaly rules via service" err))
      | Ok rules =>
          detectedAnomalies <- apply_rules job rules detectedAnomalies ;;
          ret (Ok detectedAnomalies)
      end
  end.

(** *** anomaly_service.go: reading the findings back *)

(** The SELECT of [GetAnomaliesByJobID] and [GetAllAnomalies] leaves the
    column [violations] out: the scanned anomaly has none. *)
Definition scan_anomaly (row : Anomaly.t) : result Anomaly.t :=
  Ok (Anomaly.mk (Anomaly.ID row) (Anomaly.Type_ row) (Anomaly.JobID row)
        (Anomaly.Description row) (Anomaly.Value row) (Anomaly.Threshold row)
        (Anomaly.Operator row) (Anomaly.CreatedAt row) []).

(** [AnomalyService.GetAnomaliesByJobID] (351-394). *)
Definition GetAnomaliesByJobID (jobID : string) : M (result (list Anomaly.t)) :=
  r <- db_Query_anomalies (Some jobID) ;;
  match r with
  | Err err => ret (Err (Errorf "error querying anomalies by job ID" err))
  | Ok rows =>
      match scan_rows scan_anomaly (delivered rows) [] with
      | Err err => ret (Err (Errorf "error scanning anomaly" err))
      | Ok anomalies =>
          match rows_Err rows with
          | Some err => ret (Err (Errorf "error iterating anomalies" err))
          | None =>
              if (List.length anomalies =? 0)%nat then ret (Ok [])
              else ret (Ok anomalies)
          end
      end
  end.

(** [AnomalyService.GetAllAnomalies] (397-434). *)
Definition GetAllAnomalies : M (result (list Anomaly.t)) :=
  r <- db_Query_anomalies None ;;
  match r with
  | Err err => ret (Err (Errorf "error querying all anomalies" err))
  | Ok rows =>
      match scan_rows scan_anomaly (delivered rows) [] with
      | Err err => ret (Err (Errorf "error scanning anomaly" err))
      | Ok anomalies =>
          match rows_Err rows with
          | Some err => ret (Err (Errorf "error iterating anomalies" err))
          | None => ret (Ok anomalies)
          end
      end
  end.

(** *** anomaly_service.go: the batch run *)

(** [rows.Scan(&job.JobID, &job.CompanyName, &job.CompanyRating,
    &job.JobTitle, &job.MinSalary, &job.MaxSalary)] into a zero [JobData]:
    [CompanyRating] is a float64 and cannot take NULL; the two salaries are
    pointers and can. *)
Definition scan_job (row : JobsRow.t) : result JobData.t :=
  match JobsRow.company_rating row with
  | None => Err (ErrScanNull 2)
  | Some rating =>
      Ok (JobData.mk (JobsRow.company_name row) rating "" ""
            (JobsRow.job_title row) (JobsRow.job_id row) "" ""
            (JobsRow.min_salary row) (JobsRow.max_salary row) "")
  end.

(** The [for rows.Next()] loop of lines 450-470. *)
Fixpoint detect_each (rows : list JobsRow.t) : M (option error) :=
  match rows with
  | [] => ret None
  | row :: rest =>
      match scan_job row with
      | Err err => ret (Some (Errorf "error scanning job" err))
      | Ok job =>
          r <- DetectAnomalies job ;;
          _ <- match r with
               | Err err =>
                   Printf ("Error detecting anomalies for job " ++ JobData.JobID job) err
               | Ok _ => ret tt
               end ;;
          detect_each rest
      end
  end.

(** [AnomalyService.DetectAnomaliesForAllJobs] (437-477): [None] is the nil
    error. *)
Definition DetectAnomaliesForAllJobs : M (option error) :=
  r <- db_Query_jobs ;;
  match r with
  | Err err => ret (Some (Errorf "error querying jobs" err))
  | Ok rows =>
      e <- detect_each (delivered rows) ;;
      match e with
      | Some err => ret (Some err)
      | None =>
          match rows_Err rows with
          | Some err => ret (Some (Errorf "error iterating jobs" err))
          | None => ret None
          end
      end
  end.

End Services.

(** ** Reading a run *)

(** The findings a run emitted: the anomalies it asked the database to
    insert, in order, whether or not the insert went through. *)
Fixpoint emitted (t : list event) : list Anomaly.t :=
  match t with
  | [] => []
  | EvInsertAnomaly a _ :: rest => a :: emitted rest
  | _ :: rest => emitted rest
  end.

(** The findings a run persisted, each with the id the database gave it. *)
Fixpoint persisted (t : list event) : list Anomaly.t :=
  match t with
  | [] => []
  | EvInsertAnomaly a (Ok id) :: rest =>
      Anomaly.with_ID a (FormatInt id) :: persisted rest
  | _ :: rest => persisted rest
  end.

(** Events of saving a finding: the insert, and the line printed when it
    fails.  The detection phases produce no other. *)
Definition is_save (e : event) : bool :=
  match e with
  | EvInsertAnomaly _ _ | EvPrintf _ _ => true
  | _ => false
  end.

Definition saves_only (t : list event) : bool := forallb is_save t.

(** What the statistics query answered, each time it was run. *)
Fixpoint statistics_answers (t : list event) : list (result Statistics) :=
  match t with
  | [] => []
  | EvStatistics r :: rest => r :: statistics_answers rest
  | _ :: rest => statistics_answers rest
  end.

(** What the rule query answered, each time it was run. *)
Fixpoint rules_answers (t : list event) : list (result (Rows AnomalyRule.t)) :=
  match t with
  | [] => []
  | EvSelectRules r :: rest => r :: rules_answers rest
  | _ :: rest => rules_answers rest
  end.

Definition of_type (ty : AnomalyType) (a : Anomaly.t) : bool :=
  String.eqb (Anomaly.Type_ a) ty.

(** ** A platform to run the code on

    Two-pass mean and sample standard deviation, and [%.2f] computed on the
    exact value of the float (round half to even), as [strconv] does. *)

Definition float_of_nat (n : nat) : float :=
  PrimFloat.of_uint63 (Uint63.of_Z (Z.of_nat n)).

Definition float_sum (xs : list float) : float :=
  fold_left PrimFloat.add xs 0%float.

Definition mean (xs : list float) : float :=
  PrimFloat.div (float_sum xs) (float_of_nat (List.length xs)).

Definition sample_stddev (xs : list float) : float :=
  let m := mean xs in
  let squares :=
    map (fun x => PrimFloat.mul (PrimFloat.sub x m) (PrimFloat.sub x m)) xs in
  PrimFloat.sqrt
    (PrimFloat.div (float_sum squares) (float_of_nat (List.length xs - 1))).

Definition two_digits (n : Z) : string :=
  (if n <? 10 then "0" else "") ++ NilZero.string_of_int (Z.to_int n).

Definition round_half_even (num den : Z) : Z :=
  let q := num / den in
  let r := num mod den in
  if 2 * r <? den then q
  else if den <? 2 * r then q + 1
  else if Z.even q then q else q + 1.

Definition render_2f (z : float) : string :=
  match FloatOps.Prim2SF z with
  | S754_nan => "NaN"
  | S754_infinity s => if s then "-Inf" else "+Inf"
  | S754_zero s => if s then "-0.00" else "0.00"
  | S754_finite s m e =>
      let h := if 0 <=? e then Zpos m * 100 * 2 ^ e
               else round_half_even (Zpos m * 100) (2 ^ (- e)) in
      (if s then "-" else "") ++ NilZero.string_of_int (Z.to_int (h / 100))
        ++ "." ++ two_digits (h mod 100)
  end.

Definition sample_platform : Platform :=
  {| float8_avg := mean; float8_stddev := sample_stddev; Sprintf_2f := render_2f |}.

(** * Properties *)

Local Open Scope list_scope.

(** ** Reading runs: traces of composed computations *)

Lemma trace_bind {A B} (m : M A) (f : A -> M B) (w : World) :
  trace (bind m f w) = (trace (m w) ++ trace (f (val (m w)) (post (m w))))%list.
Proof. reflexivity. Qed.

Lemma val_bind {A B} (m : M A) (f : A -> M B) (w : World) :
  val (bind m f w) = val (f (val (m w)) (post (m w))).
Proof. reflexivity. Qed.

Lemma post_bind {A B} (m : M A) (f : A -> M B) (w : World) :
  post (bind m f w) = post (f (val (m w)) (post (m w))).
Proof. reflexivity. Qed.

Lemma emitted_app (t1 t2 : list event) :
  emitted (t1 ++ t2) = (emitted t1 ++ emitted t2)%list.
Proof.
  induction t1 as [|e t1 IH]; [reflexivity|].
  destruct e; simpl; rewrite IH; reflexivity.
Qed.

Lemma persisted_app (t1 t2 : list event) :
  persisted (t1 ++ t2) = (persisted t1 ++ persisted t2)%list.
Proof.
  induction t1 as [|e t1 IH]; [reflexivity|].
  destruct e as [| a [id|err] | | | | |]; simpl; rewrite IH; reflexivity.
Qed.

Lemma statistics_answers_app (t1 t2 : list event) :
  statistics_answers (t1 ++ t2)
  = (statistics_answers t1 ++ statistics_answers t2)%list.
Proof.
  induction t1 as [|e t1 IH]; [reflexivity|].
  destruct e; simpl; rewrite IH; reflexivity.
Qed.

Lemma rules_answers_app (t1 t2 : list event) :
  rules_answers (t1 ++ t2) = (rules_answers t1 ++ rules_answers t2)%list.
Proof.
  induction t1 as [|e t1 IH]; [reflexivity|].
  destruct e; simpl; rewrite IH; reflexivity.
Qed.

Lemma saves_only_app (t1 t2 : list event) :
  saves_only (t1 ++ t2) = saves_only t1 && saves_only t2.
Proof. apply forallb_app. Qed.

Lemma saves_only_statistics (t : list event) :
  saves_only t = true -> statistics_answers t = [].
Proof.
  induction t as [|e t IH]; [reflexivity|].
  destruct e; simpl; try discriminate; exact IH.
Qed.

Lemma saves_only_rules (t : list event) :
  saves_only t = true -> rules_answers t = [].
Proof.
  induction t as [|e t IH]; [reflexivity|].
  destruct e; simpl; try discriminate; exact IH.
Qed.

Lemma in_statistics_answers (r : result Statistics) (t : list event) :
  In (EvStatistics r) t <-> In r (statistics_answers t).
Proof.
  induction t as [|e t IH]; [reflexivity|].
  destruct e; simpl; rewrite <- IH; split;
    (intros [H|H]; [try discriminate; inversion H; subst; auto | auto]) || auto.
  all: intros [H|H]; [left; congruence | right; exact H].
Qed.

Lemma in_rules_answers (r : result (Rows AnomalyRule.t)) (t : list event) :
  In (EvSelectRules r) t <-> In r (rules_answers t).
Proof.
  induction t as [|e t IH]; [reflexivity|].
  destruct e; simpl; rewrite <- IH; split;
    (intros [H|H]; [try discriminate; inversion H; subst; auto | auto]) || auto.
  all: intros [H|H]; [left; congruence | right; exact H].
Qed.

Section Detection.
Context {platform : Platform}.

(** ** The detection phases, one at a time *)

(** What every phase of [DetectAnomalies] does to the findings collected so
    far and to the database: it only saves findings, it returns the findings
    it was given followed by the ones it persisted, which are the rows it
    adds to [anomalies], and it leaves [jobs] and [anomaly_rules] alone. *)
Definition detection_step (detected : list Anomaly.t) (w : World)
    (o : outcome (list Anomaly.t)) : Prop :=
  saves_only (trace o) = true
  /\ val o = (detected ++ persisted (trace o))%list
  /\ anomalies (post o) = (anomalies w ++ persisted (trace o))%list
  /\ jobs (post o) = jobs w
  /\ anomaly_rules (post o) = anomaly_rules w.

Lemma detection_step_ret (detected : list Anomaly.t) (w : World) :
  detection_step detected w (ret detected w).
Proof.
  unfold detection_step; simpl. rewrite !app_nil_r. auto.
Qed.

Lemma detection_step_bind (detected : list Anomaly.t) (w : World)
    (m : M (list Anomaly.t)) (f : list Anomaly.t -> M (list Anomaly.t)) :
  detection_step detected w (m w) ->
  (forall d w', detection_step d w' (f d w')) ->
  detection_step detected w (bind m f w).
Proof.
  intros (Hs & Hv & Ha & Hj & Hr) Hf.
  destruct (Hf (val (m w)) (post (m w))) as (Hs' & Hv' & Ha' & Hj' & Hr').
  unfold detection_step.
  rewrite trace_bind, val_bind, post_bind, saves_only_app, persisted_app.
  rewrite Hs, Hs', Hj', Hr', Ha', Ha, Hv', Hv, !app_assoc. auto.
Qed.

(** The four outcomes of saving one finding. *)
Lemma save_or_print_run (msg : string) (a : Anomaly.t)
    (detected : list Anomaly.t) (w : World) :
  exists r : result Z,
    trace (save_or_print msg a detected w)
    = EvInsertAnomaly a r
        :: match r with
           | Ok _ => []
           | Err e => [EvPrintf msg (Errorf "error inserting anomaly" e)]
           end.
Proof.
  unfold save_or_print, saveAnomaly, db_QueryRow_insert_anomaly, bind, take_fault.
  destruct (faults w) as [|[| |n] fs]; simpl;
    try (destruct (job_exists (Anomaly.JobID a) (jobs w)); simpl);
    first [ exists (Ok (anomalies_seq w + 1)); reflexivity
          | exists (Err ErrForeignKey); reflexivity
          | exists (Err ErrDriver); reflexivity ].
Qed.

Lemma save_or_print_step (msg : string) (a : Anomaly.t)
    (detected : list Anomaly.t) (w : World) :
  detection_step detected w (save_or_print msg a detected w).
Proof.
  unfold detection_step, save_or_print, saveAnomaly, db_QueryRow_insert_anomaly,
    bind, take_fault, append.
  destruct (faults w) as [|[| |n] fs]; simpl;
    try (destruct (job_exists (Anomaly.JobID a) (jobs w)); simpl);
    rewrite ?app_nil_r; auto.
Qed.

Lemma save_or_print_emitted (msg : string) (a : Anomaly.t)
    (detected : list Anomaly.t) (w : World) :
  emitted (trace (save_or_print msg a detected w)) = [a].
Proof.
  destruct (save_or_print_run msg a detected w) as [r ->].
  destruct r; reflexivity.
Qed.

(** A finding stamped with the current time and then saved. *)
Lemma stamped_step (msg : string) (build : Z -> Anomaly.t)
    (detected : list Anomaly.t) (w : World) :
  detection_step detected w
    (bind time_Now (fun now => save_or_print msg (build now) detected) w).
Proof.
  destruct (save_or_print_step msg (build (clock w)) detected (post (time_Now w)))
    as (Hs & Hv & Ha & Hj & Hr).
  unfold detection_step. rewrite trace_bind, val_bind, post_bind.
  simpl trace at 1. simpl val at 1. cbn [app].
  repeat split; assumption.
Qed.

Lemma stamped_emitted (msg : string) (build : Z -> Anomaly.t)
    (detected : list Anomaly.t) (w : World) :
  emitted (trace (bind time_Now (fun now => save_or_print msg (build now) detected) w))
  = [build (clock w)].
Proof.
  rewrite trace_bind. simpl trace at 1. cbn [app].
  apply save_or_print_emitted.
Qed.

Lemma detect_null_values_step (job : JobData.t) (detected : list Anomaly.t)
    (w : World) :
  detection_step detected w (detect_null_values job detected w).
Proof.
  unfold detect_null_values.
  destruct (0 <? List.length (nullViolations job))%nat.
  - apply stamped_step with (build := nullAnomaly job).
  - apply detection_step_ret.
Qed.

Lemma detect_salary_deviation_step (job : JobData.t) (stats : Statistics)
    (detected : list Anomaly.t) (w : World) :
  detection_step detected w (detect_salary_deviation job stats detected w).
Proof.
  unfold detect_salary_deviation.
  destruct (JobData.MaxSalary job) as [v|]; [|apply detection_step_ret].
  destruct (deviates _); [|apply detection_step_ret].
  apply stamped_step with (build := salaryDeviationAnomaly job stats v).
Qed.

Lemma detect_rating_deviation_step (job : JobData.t) (stats : Statistics)
    (detected : list Anomaly.t) (w : World) :
  detection_step detected w (detect_rating_deviation job stats detected w).
Proof.
  unfold detect_rating_deviation.
  destruct (negb _); [|apply detection_step_ret].
  destruct (deviates _); [|apply detection_step_ret].
  apply stamped_step with (build := ratingDeviationAnomaly job stats).
Qed.

Lemma apply_rule_step (job : JobData.t) (rule : AnomalyRule.t)
    (detected : list Anomaly.t) (w : World) :
  detection_step detected w (apply_rule job rule detected w).
Proof.
  unfold apply_rule.
  destruct (negb _); [apply detection_step_ret|].
  destruct (rule_switch job rule) as [[v [|]]|]; try apply detection_step_ret.
  apply stamped_step with (build := ruleAnomaly job rule v).
Qed.

Lemma apply_rules_step (job : JobData.t) (rules : list AnomalyRule.t) :
  forall (detected : list Anomaly.t) (w : World),
    detection_step detected w (apply_rules job rules detected w).
Proof.
  induction rules as [|rule rest IH]; intros detected w.
  - apply detection_step_ret.
  - simpl. apply detection_step_bind; [apply apply_rule_step | exact IH].
Qed.

(** ** The findings each phase owes

    Each phase stamps the findings it builds with consecutive readings of the
    clock.  [stamp_from now due] are the findings built from [due] when the
    clock shows [now]. *)

Fixpoint stamp_from (now : Z) (due : list (Z -> Anomaly.t)) : list Anomaly.t :=
  match due with
  | [] => []
  | build :: rest => build now :: stamp_from (now + 1) rest
  end.

Definition null_due (job : JobData.t) : list (Z -> Anomaly.t) :=
  if (0 <? List.length (nullViolations job))%nat then [nullAnomaly job] else [].

Definition salary_due (job : JobData.t) (stats : Statistics)
    : list (Z -> Anomaly.t) :=
  match JobData.MaxSalary job with
  | Some maxSalary =>
      if deviates (zScore maxSalary (AvgSalary stats) (SalaryStdDev stats))
      then [salaryDeviationAnomaly job stats maxSalary] else []
  | None => []
  end.

Definition rating_due (job : JobData.t) (stats : Statistics)
    : list (Z -> Anomaly.t) :=
  if negb (PrimFloat.eqb (JobData.CompanyRating job) 0%float) then
    if deviates
         (zScore (JobData.CompanyRating job) (AvgRating stats) (RatingStdDev stats))
    then [ratingDeviationAnomaly job stats] else []
  else [].

Definition rule_due (job : JobData.t) (rule : AnomalyRule.t)
    : list (Z -> Anomaly.t) :=
  if negb (AnomalyRule.IsActive rule) then []
  else
    match rule_switch job rule with
    | Some (actualValue, true) => [ruleAnomaly job rule actualValue]
    | _ => []
    end.

Definition rules_due (job : JobData.t) (rules : list AnomalyRule.t)
    : list (Z -> Anomaly.t) :=
  flat_map (rule_due job) rules.

(** A computation emits exactly the findings [due], stamped from the clock
    it starts with. *)
Definition emits {A} (due : list (Z -> Anomaly.t)) (w : World)
    (o : outcome A) : Prop :=
  emitted (trace o) = stamp_from (clock w) due
  /\ clock (post o) = clock w + Z.of_nat (List.length due).

Lemma stamp_from_app (due1 due2 : list (Z -> Anomaly.t)) :
  forall now : Z,
    stamp_from now (due1 ++ due2)
    = (stamp_from now due1
         ++ stamp_from (now + Z.of_nat (List.length due1)) due2)%list.
Proof.
  induction due1 as [|b due1 IH]; intros now.
  - simpl. rewrite Z.add_0_r. reflexivity.
  - cbn [stamp_from app List.length]. rewrite IH. do 3 f_equal. lia.
Qed.

Lemma stamp_from_length (due : list (Z -> Anomaly.t)) :
  forall now : Z, List.length (stamp_from now due) = List.length due.
Proof.
  induction due as [|b due IH]; intros now; [reflexivity|].
  cbn [stamp_from List.length]. rewrite IH. reflexivity.
Qed.

Lemma emits_ret {A} (a : A) (w : World) : emits [] w (ret a w).
Proof. split; simpl; [reflexivity | lia]. Qed.

Lemma emits_bind {A B} (due1 due2 : list (Z -> Anomaly.t)) (w : World)
    (m : M A) (f : A -> M B) :
  emits due1 w (m w) ->
  emits due2 (post (m w)) (f (val (m w)) (post (m w))) ->
  emits (due1 ++ due2) w (bind m f w).
Proof.
  intros [He1 Hc1] [He2 Hc2]. split.
  - rewrite trace_bind, emitted_app, He1, He2, Hc1, stamp_from_app. reflexivity.
  - rewrite post_bind, Hc2, Hc1, length_app. lia.
Qed.

Lemma save_or_print_clock (msg : string) (a : Anomaly.t)
    (detected : list Anomaly.t) (w : World) :
  clock (post (save_or_print msg a detected w)) = clock w.
Proof.
  unfold save_or_print, saveAnomaly, db_QueryRow_insert_anomaly, bind, take_fault.
  destruct (faults w) as [|[| |n] fs]; simpl;
    try (destruct (job_exists (Anomaly.JobID a) (jobs w)); simpl); reflexivity.
Qed.

Lemma stamped_emits (msg : string) (build : Z -> Anomaly.t)
    (detected : list Anomaly.t) (w : World) :
  emits [build]
    w (bind time_Now (fun now => save_or_print msg (build now) detected) w).
Proof.
  split.
  - apply stamped_emitted.
  - rewrite post_bind, save_or_print_clock. simpl. lia.
Qed.

Lemma detect_null_values_emits (job : JobData.t) (detected : list Anomaly.t)
    (w : World) :
  emits (null_due job) w (detect_null_values job detected w).
Proof.
  unfold detect_null_values, null_due.
  destruct (0 <? List.length (nullViolations job))%nat.
  - apply stamped_emits.
  - apply emits_ret.
Qed.

Lemma detect_salary_deviation_emits (job : JobData.t) (stats : Statistics)
    (detected : list Anomaly.t) (w : World) :
  emits (salary_due job stats) w (detect_salary_deviation job stats detected w).
Proof.
  unfold detect_salary_deviation, salary_due.
  destruct (JobData.MaxSalary job) as [v|]; [|apply emits_ret].
  destruct (deviates _); [|apply emits_ret].
  apply stamped_emits with (build := salaryDeviationAnomaly job stats v).
Qed.

Lemma detect_rating_deviation_emits (job : JobData.t) (stats : Statistics)
    (detected : list Anomaly.t) (w : World) :
  emits (rating_due job stats) w (detect_rating_deviation job stats detected w).
Proof.
  unfold detect_rating_deviation, rating_due.
  destruct (negb _); [|apply emits_ret].
  destruct (deviates _); [|apply emits_ret].
  apply stamped_emits.
Qed.

Lemma apply_rule_emits (job : JobData.t) (rule : AnomalyRule.t)
    (detected : list Anomaly.t) (w : World) :
  emits (rule_due job rule) w (apply_rule job rule detected w).
Proof.
  unfold apply_rule, rule_due.
  destruct (negb _); [apply emits_ret|].
  destruct (rule_switch job rule) as [[v [|]]|]; try apply emits_ret.
  apply stamped_emits with (build := ruleAnomaly job rule v).
Qed.

Lemma apply_rules_emits (job : JobData.t) (rules : list AnomalyRule.t) :
  forall (detected : list Anomaly.t) (w : World),
    emits (rules_due job rules) w (apply_rules job rules detected w).
Proof.
  induction rules as [|rule rest IH]; intros detected w.
  - apply emits_ret.
  - cbn [apply_rules rules_due flat_map].
    apply emits_bind; [apply apply_rule_emits | apply IH].
Qed.

(** ** The two queries of [DetectAnomalies] *)

(** A query changes nothing but the fault schedule. *)
Definition same_data (w w' : World) : Prop :=
  jobs w' = jobs w /\ anomaly_rules w' = anomaly_rules w
  /\ anomalies w' = anomalies w /\ clock w' = clock w.

Lemma getStatistics_run (w : World) :
  exists rs : result Statistics,
    (rs = select_statistics (jobs w) \/ rs = Err ErrDriver)
    /\ trace (getStatistics w) = [EvStatistics rs]
    /\ val (getStatistics w)
       = match rs with
         | Ok stats => Ok stats
         | Err e => Err (Errorf "error getting statistics" e)
         end
    /\ same_data w (post (getStatistics w)).
Proof.
  unfold getStatistics, db_QueryRow_statistics, bind, take_fault, read_world,
    emit, ret, same_data.
  destruct (faults w) as [|[| |n] fs]; cbn [val post trace app jobs].
  1, 2: exists (select_statistics (jobs w));
    destruct (select_statistics (jobs w)); cbn; auto 8.
  all: exists (Err ErrDriver); cbn; auto 8.
Qed.

Lemma scan_rows_total {A} (rows : list A) :
  forall acc : list A, scan_rows (fun row => Ok row) rows acc = Ok (acc ++ rows)%list.
Proof.
  induction rows as [|row rest IH]; intros acc; simpl.
  - rewrite app_nil_r. reflexivity.
  - rewrite IH. unfold append. rewrite <- app_assoc. reflexivity.
Qed.

(** What [GetAnomalyRules] makes of the cursor the database hands out. *)
Definition rules_of (rr : result (Rows AnomalyRule.t))
    : result (list AnomalyRule.t) :=
  match rr with
  | Err e => Err (Errorf "error querying anomaly rules" e)
  | Ok rows =>
      match rows_Err rows with
      | Some e => Err (Errorf "error iterating anomaly rules" e)
      | None => Ok (delivered rows)
      end
  end.

Lemma GetAnomalyRules_run (w : World) :
  exists f : fault,
    let rr := open_rows f (order_by_desc AnomalyRule.CreatedAt (anomaly_rules w)) in
    trace (GetAnomalyRules w) = [EvSelectRules rr]
    /\ val (GetAnomalyRules w) = rules_of rr
    /\ same_data w (post (GetAnomalyRules w)).
Proof.
  unfold GetAnomalyRules, db_Query_rules, bind, take_fault, read_world, emit,
    ret, same_data, rules_of, scan_rule.
  destruct (faults w) as [|f fs].
  - exists Healthy. cbn. rewrite scan_rows_total. cbn. auto 6.
  - exists f. destruct f; cbn; rewrite ?scan_rows_total; cbn; auto 6.
Qed.

(** ** The three ways a run of [DetectAnomalies] goes *)

Inductive DetectRun (job : JobData.t) (w : World)
    (o : outcome (result (list Anomaly.t))) : Prop :=
| RunWithoutStatistics (e : error) :
    statistics_answers (trace o) = [Err e] ->
    select_statistics (jobs w) = Err e \/ e = ErrDriver ->
    rules_answers (trace o) = [] ->
    emitted (trace o) = stamp_from (clock w) (null_due job) ->
    val o = Err (Errorf "error getting statistics"
                   (Errorf "error getting statistics" e)) ->
    anomalies (post o) = (anomalies w ++ persisted (trace o))%list ->
    DetectRun job w o
| RunWithoutRules (stats : Statistics) (f : fault) (e : error) :
    statistics_answers (trace o) = [Ok stats] ->
    select_statistics (jobs w) = Ok stats ->
    rules_answers (trace o)
    = [open_rows f (order_by_desc AnomalyRule.CreatedAt (anomaly_rules w))] ->
    rules_of (open_rows f (order_by_desc AnomalyRule.CreatedAt (anomaly_rules w)))
    = Err e ->
    emitted (trace o)
    = stamp_from (clock w)
        (null_due job ++ salary_due job stats ++ rating_due job stats) ->
    val o = Err (Errorf "error getting anomaly rules via service" e) ->
    anomalies (post o) = (anomalies w ++ persisted (trace o))%list ->
    DetectRun job w o
| RunComplete (stats : Statistics) (f : fault) (rules : list AnomalyRule.t) :
    statistics_answers (trace o) = [Ok stats] ->
    select_statistics (jobs w) = Ok stats ->
    rules_answers (trace o)
    = [open_rows f (order_by_desc AnomalyRule.CreatedAt (anomaly_rules w))] ->
    rules_of (open_rows f (order_by_desc AnomalyRule.CreatedAt (anomaly_rules w)))
    = Ok rules ->
    emitted (trace o)
    = stamp_from (clock w)
        (null_due job ++ salary_due job stats ++ rating_due job stats
           ++ rules_due job rules) ->
    val o = Ok (persisted (trace o)) ->
    anomalies (post o) = (anomalies w ++ persisted (trace o))%list ->
    DetectRun job w o.

Lemma trace_ret {A} (a : A) (w : World) : trace (ret a w) = [].
Proof. reflexivity. Qed.

Lemma val_ret {A} (a : A) (w : World) : val (ret a w) = a.
Proof. reflexivity. Qed.

Lemma post_ret {A} (a : A) (w : World) : post (ret a w) = w.
Proof. reflexivity. Qed.

Ltac run_binds :=
  repeat (progress (rewrite ?trace_bind, ?val_bind, ?post_bind; cbv beta)).

Ltac read_traces :=
  rewrite ?trace_ret, ?val_ret, ?post_ret, ?statistics_answers_app,
    ?rules_answers_app, ?emitted_app, ?persisted_app.

Lemma DetectAnomalies_runs (job : JobData.t) (w : World) :
  DetectRun job w (DetectAnomalies job w).
Proof.
  pose proof (detect_null_values_step job [] w) as (S0 & V0 & A0 & J0 & R0).
  pose proof (detect_null_values_emits job [] w) as [E0 C0].
  set (o0 := detect_null_values job [] w) in *.
  destruct (getStatistics_run (post o0)) as (rs & Hrs & T1 & V1 & J1 & R1 & A1 & C1).
  set (o1 := getStatistics (post o0)) in *.
  rewrite J0 in Hrs.
  pose proof (saves_only_statistics _ S0) as SS0.
  pose proof (saves_only_rules _ S0) as SR0.
  destruct rs as [stats|e].
  - destruct Hrs as [Hrs|Hrs]; [|discriminate].
    pose proof (detect_salary_deviation_step job stats (val o0) (post o1))
      as (S2 & V2 & A2 & J2 & R2).
    pose proof (detect_salary_deviation_emits job stats (val o0) (post o1)) as [E2 C2].
    set (o2 := detect_salary_deviation job stats (val o0) (post o1)) in *.
    pose proof (detect_rating_deviation_step job stats (val o2) (post o2))
      as (S3 & V3 & A3 & J3 & R3).
    pose proof (detect_rating_deviation_emits job stats (val o2) (post o2)) as [E3 C3].
    set (o3 := detect_rating_deviation job stats (val o2) (post o2)) in *.
    destruct (GetAnomalyRules_run (post o3)) as (f & T4 & V4 & J4 & R4 & A4 & C4).
    set (o4 := GetAnomalyRules (post o3)) in *.
    rewrite R3, R2, R1, R0 in T4, V4.
    pose proof (saves_only_statistics _ S2) as SS2.
    pose proof (saves_only_rules _ S2) as SR2.
    pose proof (saves_only_statistics _ S3) as SS3.
    pose proof (saves_only_rules _ S3) as SR3.
    destruct (rules_of _) as [rules|e] eqn:Hrules.
    + pose proof (apply_rules_step job rules (val o3) (post o4))
        as (S5 & V5 & A5 & J5 & R5).
      pose proof (apply_rules_emits job rules (val o3) (post o4)) as [E5 C5].
      set (o5 := apply_rules job rules (val o3) (post o4)) in *.
      pose proof (saves_only_statistics _ S5) as SS5.
      pose proof (saves_only_rules _ S5) as SR5.
      apply RunComplete with (stats := stats) (f := f) (rules := rules);
        auto; unfold DetectAnomalies; run_binds;
        fold o0; fold o1; rewrite ?V1; cbv match; run_binds;
        fold o2; fold o3; fold o4; rewrite ?V4; cbv match; run_binds;
        fold o5; read_traces.
      * rewrite SS0, T1, SS2, SS3, T4, SS5. reflexivity.
      * rewrite SR0, T1, SR2, SR3, T4, SR5. reflexivity.
      * rewrite E0, T1, E2, E3, T4, E5.
        rewrite !stamp_from_app. cbn [emitted app].
        rewrite C4, C3, C2, C1, C0, app_nil_r. reflexivity.
      * rewrite V5, V3, V2, V0, T1, T4. cbn [persisted app].
        rewrite app_nil_r, <- !app_assoc. reflexivity.
      * rewrite A5, A4, A3, A2, A1, A0, T1, T4. cbn [persisted app].
        rewrite app_nil_r, <- !app_assoc. reflexivity.
    + apply RunWithoutRules with (stats := stats) (f := f) (e := e);
        auto; unfold DetectAnomalies; run_binds;
        fold o0; fold o1; rewrite ?V1; cbv match; run_binds;
        fold o2; fold o3; fold o4; rewrite ?V4; cbv match; read_traces.
      * rewrite SS0, T1, SS2, SS3, T4. reflexivity.
      * rewrite SR0, T1, SR2, SR3, T4. reflexivity.
      * rewrite E0, T1, E2, E3, T4.
        rewrite !stamp_from_app. cbn [emitted app].
        rewrite C2, C1, C0, ?app_nil_r. reflexivity.
      * reflexivity.
      * rewrite A4, A3, A2, A1, A0, T1, T4. cbn [persisted app].
        rewrite ?app_nil_r, <- ?app_assoc. reflexivity.
  - apply RunWithoutStatistics with (e := e); unfold DetectAnomalies; run_binds;
      fold o0; fold o1; rewrite ?V1; cbv match; read_traces.
    + rewrite SS0, T1. reflexivity.
    + destruct Hrs as [Hrs|Hrs]; [left; auto | right; congruence].
    + rewrite SR0, T1. reflexivity.
    + rewrite E0, T1. cbn. rewrite app_nil_r. reflexivity.
    + reflexivity.
    + rewrite A1, A0, T1. cbn. rewrite app_nil_r. reflexivity.
Qed.

(** ** Which findings a phase can emit *)

Lemma filter_stamp_from_none (keep : Anomaly.t -> bool)
    (due : list (Z -> Anomaly.t)) :
  (forall build now, In build due -> keep (build now) = false) ->
  forall now, filter keep (stamp_from now due) = [].
Proof.
  induction due as [|b due IH]; intros Hnone now; [reflexivity|].
  cbn [stamp_from filter]. rewrite Hnone by (left; reflexivity).
  apply IH. intros build t Hin. apply Hnone. right. exact Hin.
Qed.

Lemma in_stamp_from (a : Anomaly.t) (due : list (Z -> Anomaly.t)) :
  forall now, In a (stamp_from now due) ->
    exists build t, In build due /\ a = build t.
Proof.
  induction due as [|b due IH]; intros now Hin; [destruct Hin|].
  destruct Hin as [<-|Hin].
  - exists b, now. split; [left|]; reflexivity.
  - destruct (IH _ Hin) as (build & t & Hb & ->).
    exists build, t. split; [right; exact Hb | reflexivity].
Qed.

(** [rule_switch] knows three metrics and no other. *)
Lemma rule_switch_known (job : JobData.t) (rule : AnomalyRule.t)
    (r : float * bool) :
  rule_switch job rule = Some r ->
  AnomalyRule.Type_ rule = AnomalyTypeMaxSalary
  \/ AnomalyRule.Type_ rule = AnomalyTypeMinSalary
  \/ AnomalyRule.Type_ rule = AnomalyTypeRating.
Proof.
  unfold rule_switch.
  destruct (String.eqb_spec (AnomalyRule.Type_ rule) AnomalyTypeMaxSalary); auto.
  destruct (String.eqb_spec (AnomalyRule.Type_ rule) AnomalyTypeMinSalary); auto.
  destruct (String.eqb_spec (AnomalyRule.Type_ rule) AnomalyTypeRating); auto.
  discriminate.
Qed.

(** A finding of the rule phase comes from one active rule of the list, and
    carries that rule's metric, description, threshold and operator. *)
Lemma in_rules_due (job : JobData.t) (rules : list AnomalyRule.t)
    (build : Z -> Anomaly.t) :
  In build (rules_due job rules) ->
  exists rule v,
    In rule rules /\ AnomalyRule.IsActive rule = true
    /\ rule_switch job rule = Some (v, true)
    /\ build = ruleAnomaly job rule v.
Proof.
  unfold rules_due. rewrite in_flat_map. intros (rule & Hin & Hb).
  unfold rule_due in Hb.
  destruct (AnomalyRule.IsActive rule) eqn:Hactive; [|destruct Hb].
  cbn [negb] in Hb.
  destruct (rule_switch job rule) as [[v [|]]|] eqn:Hs;
    try (exfalso; exact Hb).
  destruct Hb as [<-|[]].
  exists rule, v. auto.
Qed.

Lemma null_due_type (job : JobData.t) (build : Z -> Anomaly.t) (now : Z) :
  In build (null_due job) -> Anomaly.Type_ (build now) = AnomalyTypeNullValues.
Proof.
  unfold null_due. destruct (0 <? _)%nat; [|intros []].
  intros [<-|[]]. reflexivity.
Qed.

Lemma salary_due_type (job : JobData.t) (stats : Statistics)
    (build : Z -> Anomaly.t) (now : Z) :
  In build (salary_due job stats) ->
  Anomaly.Type_ (build now) = AnomalyTypeDeviation
  /\ Anomaly.Violations (build now) = ["max_salary"].
Proof.
  unfold salary_due. destruct (JobData.MaxSalary job); [|intros []].
  destruct (deviates _); [|intros []].
  intros [<-|[]]. split; reflexivity.
Qed.

Lemma rating_due_type (job : JobData.t) (stats : Statistics)
    (build : Z -> Anomaly.t) (now : Z) :
  In build (rating_due job stats) ->
  Anomaly.Type_ (build now) = AnomalyTypeDeviation
  /\ Anomaly.Violations (build now) = ["company_rating"].
Proof.
  unfold rating_due. destruct (negb _); [|intros []].
  destruct (deviates _); [|intros []].
  intros [<-|[]]. split; reflexivity.
Qed.

Lemma rules_due_type (job : JobData.t) (rules : list AnomalyRule.t)
    (build : Z -> Anomaly.t) (now : Z) :
  In build (rules_due job rules) ->
  (Anomaly.Type_ (build now) = AnomalyTypeMaxSalary
   \/ Anomaly.Type_ (build now) = AnomalyTypeMinSalary
   \/ Anomaly.Type_ (build now) = AnomalyTypeRating)
  /\ Anomaly.Violations (build now) = [].
Proof.
  intros Hin. destruct (in_rules_due _ _ _ Hin) as (rule & v & _ & _ & Hs & ->).
  split; [|reflexivity]. exact (rule_switch_known _ _ Hs).
Qed.

(** ** Null-value detection *)

(** The seven required fields, in the order the specification lists them,
    each with the way to read it from a record. *)
Definition required_fields : list (string * (JobData.t -> string)) :=
  [ ("company_name", JobData.CompanyName);
    ("job_title", JobData.JobTitle);
    ("job_description", JobData.JobDescription);
    ("city", JobData.City);
    ("company_address", JobData.CompanyAddress);
    ("company_website", JobData.CompanyWebsite);
    ("job_link", JobData.JobLink) ].

(** The names of the required fields whose string is empty, in that order. *)
Definition missing_fields (job : JobData.t) : list string :=
  map fst (filter (fun field => String.eqb (snd field job) "") required_fields).

Lemma nullViolations_missing_fields (job : JobData.t) :
  nullViolations job = missing_fields job.
Proof.
  unfold nullViolations, missing_fields, required_fields, append.
  cbn [filter map fst snd].
  destruct (String.eqb (JobData.CompanyName job) "");
  destruct (String.eqb (JobData.JobTitle job) "");
  destruct (String.eqb (JobData.JobDescription job) "");
  destruct (String.eqb (JobData.City job) "");
  destruct (String.eqb (JobData.CompanyAddress job) "");
  destruct (String.eqb (JobData.CompanyWebsite job) "");
  destruct (String.eqb (JobData.JobLink job) "");
  reflexivity.
Qed.

Lemma later_phases_not_null (job : JobData.t) (stats : Statistics)
    (rules : list AnomalyRule.t) (now : Z) :
  filter (of_type AnomalyTypeNullValues)
    (stamp_from now
       (salary_due job stats ++ rating_due job stats ++ rules_due job rules))
  = [].
Proof.
  apply filter_stamp_from_none. intros build t Hin. unfold of_type.
  apply in_app_or in Hin. destruct Hin as [Hin|Hin].
  - destruct (salary_due_type job stats build t Hin) as [-> _]. reflexivity.
  - apply in_app_or in Hin. destruct Hin as [Hin|Hin].
    + destruct (rating_due_type job stats build t Hin) as [-> _]. reflexivity.
    + destruct (rules_due_type job rules build t Hin) as [[-> | [-> | ->]] _];
        reflexivity.
Qed.

Lemma null_due_filtered (job : JobData.t) (now : Z) :
  filter (of_type AnomalyTypeNullValues) (stamp_from now (null_due job))
  = match missing_fields job with
    | [] => []
    | _ :: _ =>
        [Anomaly.mk "" AnomalyTypeNullValues (JobData.JobID job)
           "Required fields are null" 0%float 0%float Equal now
           (missing_fields job)]
    end.
Proof.
  unfold null_due, nullAnomaly. rewrite nullViolations_missing_fields.
  destruct (missing_fields job); reflexivity.
Qed.

(** C3.  Whatever the state of the database, among the findings that
    [DetectAnomalies] emits for a record there is exactly one of kind
    [null_values] when at least one of the seven required fields is empty,
    and none when all seven are set.  That finding lists exactly the empty
    fields, in the order company_name, job_title, job_description, city,
    company_address, company_website, job_link, and has value 0, threshold 0
    and operator [=]. *)
Theorem null_values_finding_lists_missing_fields (job : JobData.t) (w : World) :
  filter (of_type AnomalyTypeNullValues)
    (emitted (trace (DetectAnomalies job w)))
  = match missing_fields job with
    | [] => []
    | _ :: _ =>
        [Anomaly.mk "" AnomalyTypeNullValues (JobData.JobID job)
           "Required fields are null" 0%float 0%float Equal (clock w)
           (missing_fields job)]
    end.
Proof.
  destruct (DetectAnomalies_runs job w)
    as [e _ _ _ He _ _ | stats f e _ _ _ _ He _ _ | stats f rules _ _ _ _ He _ _];
    rewrite He.
  - apply null_due_filtered.
  - rewrite stamp_from_app, filter_app, null_due_filtered.
    pose proof (later_phases_not_null job stats []) as Hlater.
    cbn [rules_due flat_map] in Hlater. rewrite app_nil_r in Hlater.
    rewrite Hlater. apply app_nil_r.
  - rewrite stamp_from_app, filter_app, null_due_filtered, later_phases_not_null.
    apply app_nil_r.
Qed.

(** ** Deviation detection *)

(** The finding names exactly one violating field, [field]. *)
Definition names_field (field : string) (a : Anomaly.t) : bool :=
  match Anomaly.Violations a with
  | [name] => String.eqb name field
  | _ => false
  end.

(** A deviation finding for the metric [field]. *)
Definition deviation_of (field : string) (a : Anomaly.t) : bool :=
  of_type AnomalyTypeDeviation a && names_field field a.

(** Once the statistics are there, the findings of a run are those of the
    null-value phase, of the two deviation checks against these statistics,
    and of the rules that were fetched (none when the fetch failed). *)
Lemma emitted_with_statistics (job : JobData.t) (w : World) (stats : Statistics) :
  In (EvStatistics (Ok stats)) (trace (DetectAnomalies job w)) ->
  exists rules : list AnomalyRule.t,
    emitted (trace (DetectAnomalies job w))
    = stamp_from (clock w)
        (null_due job ++ salary_due job stats ++ rating_due job stats
           ++ rules_due job rules).
Proof.
  intros Hin. apply in_statistics_answers in Hin.
  destruct (DetectAnomalies_runs job w)
    as [e Hs _ _ _ _ _ | st f e Hs _ _ _ He _ _ | st f rules Hs _ _ _ He _ _];
    rewrite Hs in Hin; destruct Hin as [Hin|[]]; inversion Hin; subst.
  - exists []. cbn [rules_due flat_map]. rewrite app_nil_r. exact He.
  - exists rules. exact He.
Qed.

Lemma deviation_of_others (field : string) (job : JobData.t)
    (rules : list AnomalyRule.t) (build : Z -> Anomaly.t) (now : Z) :
  In build (null_due job) \/ In build (rules_due job rules) ->
  deviation_of field (build now) = false.
Proof.
  unfold deviation_of, of_type. intros [Hin|Hin].
  - rewrite (null_due_type job build now Hin). reflexivity.
  - destruct (rules_due_type job rules build now Hin) as [[-> | [-> | ->]] _];
      reflexivity.
Qed.

Lemma salary_deviation_filtered (job : JobData.t) (w : World)
    (stats : Statistics) (rules : list AnomalyRule.t) (v : float) :
  JobData.MaxSalary job = Some v ->
  exists now : Z,
    filter (deviation_of "max_salary")
      (stamp_from (clock w)
         (null_due job ++ salary_due job stats ++ rating_due job stats
            ++ rules_due job rules))
    = if deviates (zScore v (AvgSalary stats) (SalaryStdDev stats))
      then [salaryDeviationAnomaly job stats v now] else [].
Proof.
  intros Hv.
  exists (clock w + Z.of_nat (List.length (null_due job))).
  rewrite !stamp_from_app, !filter_app.
  rewrite (filter_stamp_from_none (deviation_of "max_salary") (null_due job))
    by (intros; apply deviation_of_others with (job := job) (rules := []); auto).
  rewrite (filter_stamp_from_none (deviation_of "max_salary") (rules_due job rules))
    by (intros; apply deviation_of_others with (job := job) (rules := rules); auto).
  rewrite (filter_stamp_from_none (deviation_of "max_salary") (rating_due job stats)).
  - unfold salary_due. rewrite Hv.
    destruct (deviates _); reflexivity.
  - intros build t Hin. unfold deviation_of, names_field.
    destruct (rating_due_type job stats build t Hin) as [_ ->].
    apply andb_false_r.
Qed.

Lemma rating_deviation_filtered (job : JobData.t) (w : World)
    (stats : Statistics) (rules : list AnomalyRule.t) :
  PrimFloat.eqb (JobData.CompanyRating job) 0%float = false ->
  exists now : Z,
    filter (deviation_of "company_rating")
      (stamp_from (clock w)
         (null_due job ++ salary_due job stats ++ rating_due job stats
            ++ rules_due job rules))
    = if deviates
           (zScore (JobData.CompanyRating job) (AvgRating stats) (RatingStdDev stats))
      then [ratingDeviationAnomaly job stats now] else [].
Proof.
  intros Hset.
  exists (clock w + Z.of_nat (List.length (null_due job))
          + Z.of_nat (List.length (salary_due job stats))).
  rewrite !stamp_from_app, !filter_app.
  rewrite (filter_stamp_from_none (deviation_of "company_rating") (null_due job))
    by (intros; apply deviation_of_others with (job := job) (rules := []); auto).
  rewrite (filter_stamp_from_none (deviation_of "company_rating") (rules_due job rules))
    by (intros; apply deviation_of_others with (job := job) (rules := rules); auto).
  rewrite (filter_stamp_from_none (deviation_of "company_rating") (salary_due job stats)).
  - unfold rating_due. rewrite Hset. cbn [negb app].
    destruct (deviates _); reflexivity.
  - intros build t Hin. unfold deviation_of, names_field.
    destruct (salary_due_type job stats build t Hin) as [_ ->].
    apply andb_false_r.
Qed.

(** C4.  In a run of [DetectAnomalies] whose statistics query answered
    [stats]: when the record sets max_salary to [v] and the salary deviation
    is positive, a deviation finding for max_salary is emitted if and only if
    [|(v - AvgSalary) / SalaryStdDev| > 3.0], strictly; there is then exactly
    one, it names the single field max_salary, its value is [v] and its
    threshold is the mean.  The same holds for company_rating, which a record
    sets when its rating is not 0. *)
Theorem deviation_iff_zscore_exceeds_three (job : JobData.t) (w : World)
    (stats : Statistics) :
  In (EvStatistics (Ok stats)) (trace (DetectAnomalies job w)) ->
  (forall v : float,
     JobData.MaxSalary job = Some v ->
     PrimFloat.ltb 0%float (SalaryStdDev stats) = true ->
     exists a : Anomaly.t,
       Anomaly.Type_ a = AnomalyTypeDeviation
       /\ Anomaly.Violations a = ["max_salary"]
       /\ Anomaly.Value a = v
       /\ Anomaly.Threshold a = AvgSalary stats
       /\ filter (deviation_of "max_salary")
            (emitted (trace (DetectAnomalies job w)))
          = if PrimFloat.ltb 3%float
                 (PrimFloat.abs
                    (PrimFloat.div (PrimFloat.sub v (AvgSalary stats))
                       (SalaryStdDev stats)))
            then [a] else [])
  /\ (PrimFloat.eqb (JobData.CompanyRating job) 0%float = false ->
      PrimFloat.ltb 0%float (RatingStdDev stats) = true ->
      exists a : Anomaly.t,
        Anomaly.Type_ a = AnomalyTypeDeviation
        /\ Anomaly.Violations a = ["company_rating"]
        /\ Anomaly.Value a = JobData.CompanyRating job
        /\ Anomaly.Threshold a = AvgRating stats
        /\ filter (deviation_of "company_rating")
             (emitted (trace (DetectAnomalies job w)))
           = if PrimFloat.ltb 3%float
                  (PrimFloat.abs
                     (PrimFloat.div
                        (PrimFloat.sub (JobData.CompanyRating job) (AvgRating stats))
                        (RatingStdDev stats)))
             then [a] else []).
Proof.
  intros Hstats.
  destruct (emitted_with_statistics job w stats Hstats) as [rules ->].
  split.
  - intros v Hv _.
    destruct (salary_deviation_filtered job w stats rules Hv) as [now ->].
    exists (salaryDeviationAnomaly job stats v now). repeat split.
  - intros Hset _.
    destruct (rating_deviation_filtered job w stats rules Hset) as [now ->].
    exists (ratingDeviationAnomaly job stats now). repeat split.
Qed.

(** ** Rule-based detection *)

Lemma rule_switch_max_salary (job : JobData.t) (rule : AnomalyRule.t) :
  AnomalyRule.Type_ rule = AnomalyTypeMaxSalary ->
  rule_switch job rule
  = match JobData.MaxSalary job with
    | Some v =>
        Some (v, compareValues v (AnomalyRule.Value rule) (AnomalyRule.Operator rule))
    | None => Some (0%float, false)
    end.
Proof. intros H. unfold rule_switch. rewrite H. reflexivity. Qed.

Lemma rule_switch_min_salary (job : JobData.t) (rule : AnomalyRule.t) :
  AnomalyRule.Type_ rule = AnomalyTypeMinSalary ->
  rule_switch job rule
  = match JobData.MinSalary job with
    | Some v =>
        Some (v, compareValues v (AnomalyRule.Value rule) (AnomalyRule.Operator rule))
    | None => Some (0%float, false)
    end.
Proof. intros H. unfold rule_switch. rewrite H. reflexivity. Qed.

Lemma rule_switch_rating (job : JobData.t) (rule : AnomalyRule.t) :
  AnomalyRule.Type_ rule = AnomalyTypeRating ->
  rule_switch job rule
  = Some (JobData.CompanyRating job,
          compareValues (JobData.CompanyRating job) (AnomalyRule.Value rule)
            (AnomalyRule.Operator rule)).
Proof. intros H. unfold rule_switch. rewrite H. reflexivity. Qed.

(** The findings of a run, whichever way it went: those of the null-value
    phase, then possibly those of the deviation checks, then possibly those
    of some rules. *)
Lemma emitted_shape (job : JobData.t) (w : World) :
  exists (deviations : list (Z -> Anomaly.t)) (rules : list AnomalyRule.t),
    emitted (trace (DetectAnomalies job w))
    = stamp_from (clock w) (null_due job ++ deviations ++ rules_due job rules)
    /\ forall build now, In build deviations ->
         Anomaly.Type_ (build now) = AnomalyTypeDeviation.
Proof.
  destruct (DetectAnomalies_runs job w)
    as [e _ _ _ He _ _ | stats f e _ _ _ _ He _ _ | stats f rules _ _ _ _ He _ _].
  - exists [], []. cbn [rules_due flat_map app]. rewrite app_nil_r.
    split; [exact He | intros ? ? []].
  - exists (salary_due job stats ++ rating_due job stats), [].
    cbn [rules_due flat_map]. rewrite app_nil_r. split; [exact He|].
    intros build now Hin. apply in_app_or in Hin. destruct Hin as [Hin|Hin].
    + apply (salary_due_type job stats build now Hin).
    + apply (rating_due_type job stats build now Hin).
  - exists (salary_due job stats ++ rating_due job stats), rules.
    rewrite <- app_assoc. split; [exact He|].
    intros build now Hin. apply in_app_or in Hin. destruct Hin as [Hin|Hin].
    + apply (salary_due_type job stats build now Hin).
    + apply (rating_due_type job stats build now Hin).
Qed.

(** A finding whose kind is a rule metric was emitted for an active rule of
    that metric whose comparison holds on the value the record carries. *)
Lemma emitted_of_metric (job : JobData.t) (w : World) (a : Anomaly.t) :
  In a (emitted (trace (DetectAnomalies job w))) ->
  Anomaly.Type_ a = AnomalyTypeMaxSalary
  \/ Anomaly.Type_ a = AnomalyTypeMinSalary
  \/ Anomaly.Type_ a = AnomalyTypeRating ->
  exists rule v now,
    AnomalyRule.IsActive rule = true
    /\ rule_switch job rule = Some (v, true)
    /\ a = ruleAnomaly job rule v now.
Proof.
  intros Hin Hty.
  destruct (emitted_shape job w) as (devs & rules & He & Hdev).
  rewrite He in Hin. apply in_stamp_from in Hin.
  destruct Hin as (build & now & Hb & ->).
  apply in_app_or in Hb. destruct Hb as [Hb|Hb].
  - rewrite (null_due_type job build now Hb) in Hty.
    destruct Hty as [H|[H|H]]; discriminate.
  - apply in_app_or in Hb. destruct Hb as [Hb|Hb].
    + rewrite (Hdev build now Hb) in Hty.
      destruct Hty as [H|[H|H]]; discriminate.
    + destruct (in_rules_due _ _ _ Hb) as (rule & v & _ & Hact & Hs & ->).
      exists rule, v, now. auto.
Qed.

(** With the rules fetched, the run is complete: its findings are those of
    the three phases, the rules being applied in the order of the SELECT. *)
Lemma emitted_with_rules (job : JobData.t) (w : World)
    (rows : Rows AnomalyRule.t) :
  In (EvSelectRules (Ok rows)) (trace (DetectAnomalies job w)) ->
  rows_Err rows = None ->
  delivered rows = order_by_desc AnomalyRule.CreatedAt (anomaly_rules w)
  /\ val (DetectAnomalies job w) = Ok (persisted (trace (DetectAnomalies job w)))
  /\ exists stats : Statistics,
       emitted (trace (DetectAnomalies job w))
       = stamp_from (clock w)
           (null_due job ++ salary_due job stats ++ rating_due job stats
              ++ rules_due job (delivered rows)).
Proof.
  intros Hin Hnone. apply in_rules_answers in Hin.
  destruct (DetectAnomalies_runs job w)
    as [e _ _ Hr _ _ _ | st f e _ _ Hr Hof _ _ _ | st f rules _ _ Hr Hof He Hv _];
    rewrite Hr in Hin; [destruct Hin | |]; destruct Hin as [Hin|[]].
  - rewrite Hin in Hof. cbn in Hof. rewrite Hnone in Hof. discriminate.
  - rewrite Hin in Hof. cbn in Hof. rewrite Hnone in Hof.
    inversion Hof; subst rules.
    repeat split; [|exact Hv|exists st; exact He].
    destruct f; cbn in Hin; inversion Hin; subst; [reflexivity | discriminate].
Qed.

Lemma stamp_from_in (build : Z -> Anomaly.t) (due : list (Z -> Anomaly.t)) :
  In build due -> forall now, exists t, In (build t) (stamp_from now due).
Proof.
  induction due as [|b due IH]; intros Hin now; [destruct Hin|].
  destruct Hin as [->|Hin].
  - exists now. left. reflexivity.
  - destruct (IH Hin (now + 1)) as [t Ht]. exists t. right. exact Ht.
Qed.

Lemma no_finding_of_absent_metric (job : JobData.t) (w : World)
    (metric : AnomalyType) :
  (metric = AnomalyTypeMaxSalary /\ JobData.MaxSalary job = None)
  \/ (metric = AnomalyTypeMinSalary /\ JobData.MinSalary job = None) ->
  filter (of_type metric) (emitted (trace (DetectAnomalies job w))) = [].
Proof.
  intros Habsent.
  destruct (filter _ _) as [|a rest] eqn:Hf; [reflexivity|exfalso].
  assert (Hin : In a (filter (of_type metric)
                        (emitted (trace (DetectAnomalies job w)))))
    by (rewrite Hf; left; reflexivity).
  apply filter_In in Hin. destruct Hin as [Hin Hty].
  unfold of_type in Hty. apply String.eqb_eq in Hty.
  destruct (emitted_of_metric job w a Hin) as (rule & v & now & _ & Hs & ->).
  { destruct Habsent as [[-> _]|[-> _]]; auto. }
  cbn [ruleAnomaly Anomaly.Type_] in Hty.
  destruct Habsent as [[-> Hnone]|[-> Hnone]].
  - rewrite (rule_switch_max_salary job rule Hty), Hnone in Hs. discriminate.
  - rewrite (rule_switch_min_salary job rule Hty), Hnone in Hs. discriminate.
Qed.

(** C5, amended.  A rule on max_salary or min_salary is skipped when the
    record does not carry that salary (the pointer is nil): no finding of
    that kind is emitted.  A rule on company_rating is never skipped:
    [CompanyRating] is a plain float64, 0 when the posting has no rating, and
    every active company_rating rule that was fetched is compared against
    it; its finding is emitted exactly when the comparison holds. *)
Theorem absent_salary_skips_rule_rating_is_always_compared
    (job : JobData.t) (w : World) :
  (JobData.MaxSalary job = None ->
   filter (of_type AnomalyTypeMaxSalary)
     (emitted (trace (DetectAnomalies job w))) = [])
  /\ (JobData.MinSalary job = None ->
      filter (of_type AnomalyTypeMinSalary)
        (emitted (trace (DetectAnomalies job w))) = [])
  /\ (forall (rows : Rows AnomalyRule.t) (rule : AnomalyRule.t),
        In (EvSelectRules (Ok rows)) (trace (DetectAnomalies job w)) ->
        rows_Err rows = None ->
        In rule (delivered rows) ->
        AnomalyRule.IsActive rule = true ->
        AnomalyRule.Type_ rule = AnomalyTypeRating ->
        ((exists now : Z,
            In (ruleAnomaly job rule (JobData.CompanyRating job) now)
               (emitted (trace (DetectAnomalies job w))))
         <-> compareValues (JobData.CompanyRating job) (AnomalyRule.Value rule)
               (AnomalyRule.Operator rule) = true)).
Proof.
  split; [|split].
  - intros Hnone. apply no_finding_of_absent_metric. auto.
  - intros Hnone. apply no_finding_of_absent_metric. auto.
  - intros rows rule Hrows Herr Hrule Hactive Hty. split.
    + intros [now Hin].
      destruct (emitted_of_metric job w _ Hin) as (rule' & v & t & _ & Hs & Heq).
      { cbn. auto. }
      inversion Heq as [[Hty' Hdesc Hv Hval Hop Hnow]].
      rewrite Hty in Hty'. symmetry in Hty'.
      rewrite (rule_switch_rating job rule' Hty') in Hs.
      inversion Hs as [[Hcmp]]. rewrite Hval, Hop. reflexivity.
    + intros Hcmp.
      destruct (emitted_with_rules job w rows Hrows Herr) as (_ & _ & stats & ->).
      assert (Hdue : In (ruleAnomaly job rule (JobData.CompanyRating job))
                        (rules_due job (delivered rows))).
      { unfold rules_due. apply in_flat_map. exists rule. split; [exact Hrule|].
        unfold rule_due. rewrite Hactive, (rule_switch_rating job rule Hty), Hcmp.
        left. reflexivity. }
      apply stamp_from_in.
      apply in_or_app; right. apply in_or_app; right. apply in_or_app; right.
      exact Hdue.
Qed.

(** ** The order of the rules *)

Section OrderBy.
Variables (A : Type) (key : A -> Z).

(** [newest_first a b]: [a] may come before [b] under
    [ORDER BY created_at DESC]. *)
Definition newest_first (a b : A) : Prop := key b <= key a.

Lemma insert_desc_perm (x : A) (l : list A) :
  Permutation (insert_desc key x l) (x :: l).
Proof.
  induction l as [|y l IH]; cbn [insert_desc]; [reflexivity|].
  destruct (key y <=? key x); [reflexivity|].
  rewrite IH. apply perm_swap.
Qed.

Lemma order_by_desc_perm (l : list A) : Permutation (order_by_desc key l) l.
Proof.
  induction l as [|x l IH]; cbn [order_by_desc fold_right]; [reflexivity|].
  fold (order_by_desc key l). rewrite insert_desc_perm, IH. reflexivity.
Qed.

Lemma insert_desc_sorted (x : A) (l : list A) :
  StronglySorted newest_first l ->
  StronglySorted newest_first (insert_desc key x l).
Proof.
  induction 1 as [|y l Hs IH Hall]; cbn [insert_desc].
  - constructor; constructor.
  - destruct (Z.leb_spec (key y) (key x)) as [Hle|Hlt].
    + constructor; [constructor; assumption|].
      constructor; [exact Hle|].
      eapply Forall_impl; [|exact Hall].
      unfold newest_first. intros z Hz. lia.
    + constructor; [exact IH|].
      eapply Permutation_Forall; [symmetry; apply insert_desc_perm|].
      constructor; [unfold newest_first; lia | exact Hall].
Qed.

Lemma order_by_desc_sorted (l : list A) :
  StronglySorted newest_first (order_by_desc key l).
Proof.
  induction l as [|x l IH]; cbn [order_by_desc fold_right]; [constructor|].
  apply insert_desc_sorted. exact IH.
Qed.

End OrderBy.

(** C6, amended.  When the rule fetch succeeds, the rules [DetectAnomalies]
    applies are all the rows of [anomaly_rules] in the order of the SELECT,
    which is descending creation time: the newest rule first.  After the
    findings of the null-value and deviation phases, the run emits the
    findings of the rules in that order: each active rule of a known metric
    whose comparison holds yields one finding of its own, whatever the other
    rules do. *)
Theorem rules_are_applied_newest_first (job : JobData.t) (w : World)
    (rows : Rows AnomalyRule.t) :
  In (EvSelectRules (Ok rows)) (trace (DetectAnomalies job w)) ->
  rows_Err rows = None ->
  Permutation (delivered rows) (anomaly_rules w)
  /\ StronglySorted
       (fun older_or_same newer : AnomalyRule.t =>
          AnomalyRule.CreatedAt newer <= AnomalyRule.CreatedAt older_or_same)
       (delivered rows)
  /\ exists earlier : list Anomaly.t,
       Forall (fun a => Anomaly.Type_ a = AnomalyTypeNullValues
                        \/ Anomaly.Type_ a = AnomalyTypeDeviation) earlier
       /\ emitted (trace (DetectAnomalies job w))
          = earlier
              ++ stamp_from (clock w + Z.of_nat (List.length earlier))
                   (flat_map (rule_due job) (delivered rows)).
Proof.
  intros Hrows Herr.
  destruct (emitted_with_rules job w rows Hrows Herr) as (Hd & _ & stats & He).
  split; [|split].
  - rewrite Hd. apply order_by_desc_perm.
  - rewrite Hd. apply (order_by_desc_sorted AnomalyRule.CreatedAt).
  - exists (stamp_from (clock w)
              (null_due job ++ salary_due job stats ++ rating_due job stats)).
    split.
    + apply Forall_forall. intros a Hin.
      apply in_stamp_from in Hin. destruct Hin as (build & now & Hb & ->).
      apply in_app_or in Hb. destruct Hb as [Hb|Hb].
      * left. apply (null_due_type job build now Hb).
      * right. apply in_app_or in Hb. destruct Hb as [Hb|Hb].
        -- apply (salary_due_type job stats build now Hb).
        -- apply (rating_due_type job stats build now Hb).
    + rewrite He.
      replace (null_due job ++ salary_due job stats ++ rating_due job stats
                 ++ rules_due job (delivered rows))
        with ((null_due job ++ salary_due job stats ++ rating_due job stats)
                ++ rules_due job (delivered rows))
        by (rewrite <- !app_assoc; reflexivity).
      rewrite stamp_from_app, stamp_from_length. reflexivity.
Qed.

(** ** What a failing phase does to the call *)

(** Without a qualifying row both aggregates over max_salary are NULL and
    the Scan of the statistics row fails on its first column. *)
Lemma select_statistics_of_no_row (rows : list JobsRow.t) :
  filter qualifies rows = [] -> select_statistics rows = Err (ErrScanNull 0).
Proof. intros H. unfold select_statistics. rewrite H. reflexivity. Qed.

Lemma stamped_types (P : Anomaly.t -> Prop) (due : list (Z -> Anomaly.t)) :
  (forall build now, In build due -> P (build now)) ->
  forall now, Forall P (stamp_from now due).
Proof.
  intros HP now. apply Forall_forall. intros a Hin.
  apply in_stamp_from in Hin. destruct Hin as (build & t & Hb & ->).
  apply HP. exact Hb.
Qed.

(** *** The line printed for a finding that could not be saved *)

(** One save of a finding: the line [DetectAnomalies] holds ready for it,
    the finding, and what the database answered to its INSERT. *)
Record save : Type := Save {
  save_line    : string;
  save_finding : Anomaly.t;
  save_answer  : result Z
}.

(** The events of one save: the INSERT and, when it failed, the line printed
    with the error of [saveAnomaly]. *)
Definition events_of (s : save) : list event :=
  EvInsertAnomaly (save_finding s) (save_answer s)
    :: match save_answer s with
       | Ok _ => []
       | Err e => [EvPrintf (save_line s) (Errorf "error inserting anomaly" e)]
       end.

(** The finding a save adds to the result: none when the INSERT failed. *)
Definition kept (s : save) : list Anomaly.t :=
  match save_answer s with
  | Ok id => [Anomaly.with_ID (save_finding s) (FormatInt id)]
  | Err _ => []
  end.

(** The four places where [DetectAnomalies] saves a finding of [job], each
    with the line it prints when the save fails (lines 163-167, 190-194,
    211-215 and 267-272). *)
Definition saved_by (job : JobData.t) (s : save) : Prop :=
  (exists now : Z,
     save_finding s = nullAnomaly job now
     /\ save_line s
        = ("Error saving null value anomaly for job " ++ JobData.JobID job)%string)
  \/ (exists (stats : Statistics) (maxSalary : float) (now : Z),
        save_finding s = salaryDeviationAnomaly job stats maxSalary now
        /\ save_line s
           = ("Error saving salary deviation anomaly for job "
                ++ JobData.JobID job)%string)
  \/ (exists (stats : Statistics) (now : Z),
        save_finding s = ratingDeviationAnomaly job stats now
        /\ save_line s
           = ("Error saving rating deviation anomaly for job "
                ++ JobData.JobID job)%string)
  \/ (exists (rule : AnomalyRule.t) (actualValue : float) (now : Z),
        save_finding s = ruleAnomaly job rule actualValue now
        /\ save_line s
           = ("Error saving anomaly for job " ++ JobData.JobID job ++ ", rule "
                ++ FormatInt (AnomalyRule.ID rule))%string).

(** A trace in which every INSERT of a finding is one of the saves of
    [DetectAnomalies] for [job], every failed one is followed by its printed
    line, and nothing else is printed. *)
Definition reports_saves (job : JobData.t) (t : list event) : Prop :=
  exists saves : list save,
    filter is_save t = flat_map events_of saves
    /\ Forall (saved_by job) saves
    /\ emitted t = map save_finding saves
    /\ persisted t = flat_map kept saves.

Definition reporting (job : JobData.t) {A} (m : M A) : Prop :=
  forall w : World, reports_saves job (trace (m w)).

Lemma reports_saves_nil (job : JobData.t) : reports_saves job [].
Proof. exists []. repeat split; constructor. Qed.

Lemma reports_saves_app (job : JobData.t) (t1 t2 : list event) :
  reports_saves job t1 -> reports_saves job t2 -> reports_saves job (t1 ++ t2).
Proof.
  intros (s1 & H1 & F1 & E1 & P1) (s2 & H2 & F2 & E2 & P2).
  exists (s1 ++ s2).
  rewrite filter_app, H1, H2, flat_map_app, emitted_app, E1, E2, map_app,
    persisted_app, P1, P2, flat_map_app.
  repeat split. apply Forall_app. split; assumption.
Qed.

Lemma reports_saves_query (job : JobData.t) (e : event) :
  is_save e = false -> emitted [e] = [] -> reports_saves job [e].
Proof.
  intros Hs He. exists []. cbn [filter]. rewrite Hs, He.
  repeat split; [constructor|]. destruct e; try discriminate; reflexivity.
Qed.

Lemma reporting_ret (job : JobData.t) {A} (a : A) : reporting job (ret a).
Proof. intros w. apply reports_saves_nil. Qed.

Lemma reporting_bind (job : JobData.t) {A B} (m : M A) (f : A -> M B) :
  reporting job m -> (forall a, reporting job (f a)) -> reporting job (bind m f).
Proof.
  intros Hm Hf w. rewrite trace_bind. apply reports_saves_app; [apply Hm | apply Hf].
Qed.

Lemma reporting_time_Now (job : JobData.t) : reporting job time_Now.
Proof. intros w. apply reports_saves_nil. Qed.

Lemma reporting_save_or_print (job : JobData.t) (msg : string) (a : Anomaly.t)
    (detected : list Anomaly.t) :
  (forall r, saved_by job (Save msg a r)) ->
  reporting job (save_or_print msg a detected).
Proof.
  intros Hby w. destruct (save_or_print_run msg a detected w) as [r ->].
  exists [Save msg a r]. cbn [flat_map events_of kept save_finding save_answer
                              save_line map app].
  destruct r as [id|e]; cbn; repeat split; constructor; auto.
Qed.

Lemma reporting_getStatistics (job : JobData.t) : reporting job getStatistics.
Proof.
  intros w. destruct (getStatistics_run w) as (rs & _ & -> & _).
  apply reports_saves_query; reflexivity.
Qed.

Lemma reporting_GetAnomalyRules (job : JobData.t) : reporting job GetAnomalyRules.
Proof.
  intros w. destruct (GetAnomalyRules_run w) as (f & Ht & _).
  cbv zeta in Ht. rewrite Ht. apply reports_saves_query; reflexivity.
Qed.

Lemma reporting_detect_null_values (job : JobData.t) (detected : list Anomaly.t) :
  reporting job (detect_null_values job detected).
Proof.
  unfold detect_null_values.
  destruct (0 <? List.length (nullViolations job))%nat; [|apply reporting_ret].
  apply reporting_bind; [apply reporting_time_Now|]. intros now.
  apply reporting_save_or_print. intros r. left. exists now. split; reflexivity.
Qed.

Lemma reporting_detect_salary_deviation (job : JobData.t) (stats : Statistics)
    (detected : list Anomaly.t) :
  reporting job (detect_salary_deviation job stats detected).
Proof.
  unfold detect_salary_deviation.
  destruct (JobData.MaxSalary job) as [v|]; [|apply reporting_ret].
  destruct (deviates _); [|apply reporting_ret].
  apply reporting_bind; [apply reporting_time_Now|]. intros now.
  apply reporting_save_or_print. intros r. right. left.
  exists stats, v, now. split; reflexivity.
Qed.

Lemma reporting_detect_rating_deviation (job : JobData.t) (stats : Statistics)
    (detected : list Anomaly.t) :
  reporting job (detect_rating_deviation job stats detected).
Proof.
  unfold detect_rating_deviation.
  destruct (negb _); [|apply reporting_ret].
  destruct (deviates _); [|apply reporting_ret].
  apply reporting_bind; [apply reporting_time_Now|]. intros now.
  apply reporting_save_or_print. intros r. right. right. left.
  exists stats, now. split; reflexivity.
Qed.

Lemma reporting_apply_rule (job : JobData.t) (rule : AnomalyRule.t)
    (detected : list Anomaly.t) :
  reporting job (apply_rule job rule detected).
Proof.
  unfold apply_rule.
  destruct (negb _); [apply reporting_ret|].
  destruct (rule_switch job rule) as [[v [|]]|]; try apply reporting_ret.
  apply reporting_bind; [apply reporting_time_Now|]. intros now.
  apply reporting_save_or_print. intros r. right. right. right.
  exists rule, v, now. split; reflexivity.
Qed.

Lemma reporting_apply_rules (job : JobData.t) (rules : list AnomalyRule.t) :
  forall detected : list Anomaly.t, reporting job (apply_rules job rules detected).
Proof.
  induction rules as [|rule rest IH]; intros detected; cbn [apply_rules].
  - apply reporting_ret.
  - apply reporting_bind; [apply reporting_apply_rule | exact IH].
Qed.

Lemma reporting_DetectAnomalies (job : JobData.t) :
  reporting job (DetectAnomalies job).
Proof.
  unfold DetectAnomalies.
  apply reporting_bind; [apply reporting_detect_null_values|]. intros d0.
  apply reporting_bind; [apply reporting_getStatistics|].
  intros [stats|e]; [|apply reporting_ret].
  apply reporting_bind; [apply reporting_detect_salary_deviation|]. intros d1.
  apply reporting_bind; [apply reporting_detect_rating_deviation|]. intros d2.
  apply reporting_bind; [apply reporting_GetAnomalyRules|].
  intros [rules|e]; [|apply reporting_ret].
  apply reporting_bind; [apply reporting_apply_rules|]. intros d3.
  apply reporting_ret.
Qed.

(** C1, amended.  Only the failure to persist one finding is survived by
    [DetectAnomalies]: the INSERT that failed is followed by the line
    printed for it, which carries the error of [saveAnomaly], nothing else
    is printed, and the finding is left out of the result.  When the
    statistics query fails (as it does when no record qualifies for the
    baseline) the call stops after the null-value phase: it returns that
    error and no finding, the deviation checks and the rules are not run and
    the rule query is never sent.  When the rule fetch fails the call stops
    after the deviation phase and returns that error and no finding.  In
    both cases the findings persisted so far stay in the table.  A call that
    does not fail returns exactly the findings it persisted, in the order it
    emitted them. *)
Theorem detection_stops_at_a_failed_query (job : JobData.t) (w : World) :
  let o := DetectAnomalies job w in
  anomalies (post o) = anomalies w ++ persisted (trace o)
  /\ (exists saves : list save,
        filter is_save (trace o) = flat_map events_of saves
        /\ Forall (saved_by job) saves
        /\ emitted (trace o) = map save_finding saves
        /\ persisted (trace o) = flat_map kept saves)
  /\ match val o with
     | Ok found =>
         found = persisted (trace o)
         /\ exists (stats : Statistics) (rows : Rows AnomalyRule.t),
              statistics_answers (trace o) = [Ok stats]
              /\ rules_answers (trace o) = [Ok rows]
              /\ rows_Err rows = None
     | Err err =>
         (exists e : error,
            statistics_answers (trace o) = [Err e]
            /\ err = Errorf "error getting statistics"
                       (Errorf "error getting statistics" e)
            /\ rules_answers (trace o) = []
            /\ Forall (fun a => Anomaly.Type_ a = AnomalyTypeNullValues)
                 (emitted (trace o)))
         \/ (exists (stats : Statistics) (rr : result (Rows AnomalyRule.t))
                    (e : error),
               statistics_answers (trace o) = [Ok stats]
               /\ rules_answers (trace o) = [rr]
               /\ rules_of rr = Err e
               /\ err = Errorf "error getting anomaly rules via service" e
               /\ Forall (fun a => Anomaly.Type_ a = AnomalyTypeNullValues
                                   \/ Anomaly.Type_ a = AnomalyTypeDeviation)
                    (emitted (trace o)))
     end
  /\ (filter qualifies (jobs w) = [] ->
      exists e : error,
        val o = Err (Errorf "error getting statistics"
                       (Errorf "error getting statistics" e))).
Proof.
  intros o. subst o.
  destruct (DetectAnomalies_runs job w)
    as [e Hs Hsel Hr He Hv Ha | stats f e Hs Hsel Hr Hof He Hv Ha
        | stats f rules Hs Hsel Hr Hof He Hv Ha];
    (split; [exact Ha|]); (split; [apply reporting_DetectAnomalies|]);
    rewrite Hv; (split; [|intros Hnone]).
  - left. exists e. repeat split; auto.
    rewrite He. apply stamped_types. intros build now Hb.
    apply (null_due_type job build now Hb).
  - exists e. reflexivity.
  - right.
    exists stats,
      (open_rows f (order_by_desc AnomalyRule.CreatedAt (anomaly_rules w))), e.
    repeat split; auto.
    rewrite He. apply stamped_types. intros build now Hb.
    apply in_app_or in Hb. destruct Hb as [Hb|Hb].
    + left. apply (null_due_type job build now Hb).
    + right. apply in_app_or in Hb. destruct Hb as [Hb|Hb].
      * apply (salary_due_type job stats build now Hb).
      * apply (rating_due_type job stats build now Hb).
  - rewrite (select_statistics_of_no_row _ Hnone) in Hsel. discriminate.
  - split; [reflexivity|].
    destruct f as [| |n]; cbn in Hof; try discriminate.
    exists stats, (mkRows (order_by_desc AnomalyRule.CreatedAt (anomaly_rules w)) None).
    repeat split; auto.
  - rewrite (select_statistics_of_no_row _ Hnone) in Hsel. discriminate.
Qed.

(** ** The batch run *)

(** A row of [jobs] that Scan can store in a [JobData]: its rating is not
    NULL. *)
Definition scannable (row : JobsRow.t) : bool := is_ok (scan_job row).

(** The records the loop of [DetectAnomaliesForAllJobs] builds from rows. *)
Definition records_of (rows : list JobsRow.t) : list JobData.t :=
  flat_map (fun row => match scan_job row with Ok job => [job] | Err _ => [] end)
    rows.

(** [DetectAnomalies] run on each record in turn, each run starting in the
    world the previous one left. *)
Fixpoint invocations (records : list JobData.t) (w : World)
    : list (JobData.t * outcome (result (list Anomaly.t))) :=
  match records with
  | [] => []
  | job :: rest =>
      let o := DetectAnomalies job w in
      (job, o) :: invocations rest (post o)
  end.

(** The line printed for a run that failed, nothing for one that did not. *)
Definition failure_line (run : JobData.t * outcome (result (list Anomaly.t)))
    : list event :=
  match val (snd run) with
  | Err err =>
      [EvPrintf
         ("Error detecting anomalies for job " ++ JobData.JobID (fst run))%string
         err]
  | Ok _ => []
  end.

Lemma invocations_length (records : list JobData.t) :
  forall w, List.length (invocations records w) = List.length records.
Proof.
  induction records as [|job rest IH]; intros w; [reflexivity|].
  cbn [invocations List.length]. rewrite IH. reflexivity.
Qed.

Lemma records_of_length (rows : list JobsRow.t) :
  forallb scannable rows = true ->
  List.length (records_of rows) = List.length rows.
Proof.
  induction rows as [|row rest IH]; [reflexivity|].
  cbn [forallb]. unfold scannable at 1. intros H.
  apply andb_true_iff in H. destruct H as [Hrow Hrest].
  cbn [records_of flat_map]. destruct (scan_job row); [|discriminate].
  cbn [app List.length]. fold (records_of rest). rewrite IH by exact Hrest.
  reflexivity.
Qed.

Lemma detect_each_fails_iff (rows : list JobsRow.t) :
  forall w, val (detect_each rows w) = None <-> forallb scannable rows = true.
Proof.
  induction rows as [|row rest IH]; intros w; [split; reflexivity|].
  cbn [detect_each forallb]. unfold scannable at 1.
  destruct (scan_job row) as [job|e]; cbn [is_ok andb].
  - rewrite !val_bind. apply IH.
  - split; discriminate.
Qed.

Lemma detect_each_run (rows : list JobsRow.t) :
  forallb scannable rows = true ->
  forall w,
    trace (detect_each rows w)
    = flat_map (fun run => trace (snd run) ++ failure_line run)
        (invocations (records_of rows) w).
Proof.
  induction rows as [|row rest IH]; intros Hall w; [reflexivity|].
  cbn [forallb] in Hall. unfold scannable at 1 in Hall.
  apply andb_true_iff in Hall. destruct Hall as [Hrow Hrest].
  cbn [detect_each records_of flat_map].
  destruct (scan_job row) as [job|e]; [|discriminate].
  fold (records_of rest). cbn [app invocations flat_map snd fst].
  rewrite !trace_bind. cbv beta.
  rewrite <- app_assoc. f_equal.
  unfold failure_line at 1. cbn [fst snd].
  destruct (val (DetectAnomalies job w)) as [found|err];
    cbn [trace Printf emit ret post app]; rewrite IH by exact Hrest; reflexivity.
Qed.

Lemma db_Query_jobs_run (w : World) :
  let r := open_rows (hd Healthy (faults w)) (jobs w) in
  db_Query_jobs w = Out r (post (take_fault w)) [EvSelectJobs r].
Proof.
  unfold db_Query_jobs, bind, take_fault, read_world, emit, ret.
  destruct (faults w) as [|f fs]; reflexivity.
Qed.

Lemma one_statistics_query_per_run (job : JobData.t) (w : World) :
  List.length (statistics_answers (trace (DetectAnomalies job w))) = 1%nat.
Proof.
  destruct (DetectAnomalies_runs job w)
    as [e Hs _ _ _ _ _ | stats f e Hs _ _ _ _ _ _ | stats f rules Hs _ _ _ _ _ _];
    rewrite Hs; reflexivity.
Qed.

Lemma statistics_queries_of_invocations (records : list JobData.t) :
  forall w,
    List.length
      (statistics_answers
         (flat_map (fun run => trace (snd run) ++ failure_line run)
            (invocations records w)))
    = List.length records.
Proof.
  induction records as [|job rest IH]; intros w; [reflexivity|].
  cbn [invocations flat_map snd List.length].
  rewrite !statistics_answers_app, !length_app, IH, one_statistics_query_per_run.
  unfold failure_line. cbn [fst snd].
  destruct (val (DetectAnomalies job w)); reflexivity.
Qed.

(** C9.  [DetectAnomaliesForAllJobs] fails exactly when the enumeration of
    [jobs] fails: the query cannot be run or breaks off, or a row cannot be
    scanned.  When the enumeration succeeds over the N rows of the table,
    [DetectAnomalies] is run exactly N times, once per record and in the
    order of the rows, each run starting where the previous one ended: a run
    that fails has its error printed and the next record is evaluated all
    the same.  The statistics query, which every run sends exactly once, is
    sent N times. *)
Theorem batch_runs_detection_once_per_record (w : World) :
  let o := DetectAnomaliesForAllJobs w in
  (val o = None
   <-> hd Healthy (faults w) = Healthy /\ forallb scannable (jobs w) = true)
  /\ (hd Healthy (faults w) = Healthy ->
      forallb scannable (jobs w) = true ->
      let runs := invocations (records_of (jobs w)) (post (take_fault w)) in
      List.length runs = List.length (jobs w)
      /\ trace o
         = EvSelectJobs (Ok (mkRows (jobs w) None))
             :: flat_map (fun run => trace (snd run) ++ failure_line run) runs
      /\ List.length (statistics_answers (trace o)) = List.length (jobs w)).
Proof.
  intros o. subst o. unfold DetectAnomaliesForAllJobs.
  rewrite val_bind, trace_bind, db_Query_jobs_run. cbv zeta. cbn [val post trace].
  destruct (hd Healthy (faults w)) as [| |n]; cbn [open_rows].
  - cbn [delivered rows_Err]. rewrite val_bind, trace_bind. cbv beta.
    pose proof (detect_each_fails_iff (jobs w) (post (take_fault w))) as Hiff.
    split.
    + destruct (val (detect_each (jobs w) (post (take_fault w)))) as [e|];
        cbn [val ret].
      * split; [discriminate|]. intros [_ Hall]. apply Hiff in Hall. discriminate.
      * split; [|reflexivity]. intros _. split; [reflexivity|].
        apply Hiff. reflexivity.
    + intros _ Hall.
      rewrite invocations_length, records_of_length by exact Hall.
      rewrite (detect_each_run (jobs w) Hall).
      split; [reflexivity|]. split.
      * cbn [app]. f_equal.
        destruct (val (detect_each (jobs w) (post (take_fault w))));
          cbn [trace ret]; apply app_nil_r.
      * cbn [app statistics_answers]. rewrite statistics_answers_app.
        rewrite length_app, statistics_queries_of_invocations.
        rewrite records_of_length by exact Hall.
        destruct (val (detect_each (jobs w) (post (take_fault w))));
          cbn [trace ret statistics_answers List.length]; lia.
  - cbn [val ret]. split; [|discriminate].
    split; [discriminate | intros [H _]; discriminate].
  - cbn [delivered rows_Err]. rewrite val_bind. cbv beta. split; [|discriminate].
    split; [|intros [H _]; discriminate].
    destruct (val (detect_each _ _)); cbn [val ret]; discriminate.
Qed.
End Detection.

(** ** Comparison operators *)

Lemma compareValues_unknown_operator (value threshold : float)
    (operator : ComparisonOperator) :
  IsValidOperator operator = false ->
  compareValues value threshold operator = false.
Proof.
  unfold IsValidOperator, ValidOperators, compareValues.
  cbn [IsValidOperator_loop].
  destruct (String.eqb operator GreaterThan); [discriminate|].
  destruct (String.eqb operator GreaterThanOrEqual); [discriminate|].
  destruct (String.eqb operator LessThan); [discriminate|].
  destruct (String.eqb operator LessThanOrEqual); [discriminate|].
  destruct (String.eqb operator Equal); [discriminate|].
  reflexivity.
Qed.

(** ** Reading the findings of a record back *)

(** C10.  When the query can be run and the table holds no finding for the
    record identifier, [GetAnomaliesByJobID] returns the empty list and the
    nil error: the miss is not an error. *)
Theorem no_stored_finding_is_an_empty_list (jobID : string) (w : World) :
  hd Healthy (faults w) = Healthy ->
  filter (fun a => String.eqb (Anomaly.JobID a) jobID) (anomalies w) = [] ->
  val (GetAnomaliesByJobID jobID w) = Ok [].
Proof.
  intros Hhealthy Hnone.
  unfold GetAnomaliesByJobID, db_Query_anomalies, bind, take_fault, read_world,
    emit, ret.
  destruct (faults w) as [|f fs]; cbn in Hhealthy; [|subst f];
    cbn; rewrite Hnone; reflexivity.
Qed.

(** ** Creating rules *)

(** The metrics [rule_switch] has a case for. *)
Definition known_metric (metric : AnomalyType) : bool :=
  String.eqb metric AnomalyTypeMaxSalary
  || String.eqb metric AnomalyTypeMinSalary
  || String.eqb metric AnomalyTypeRating.

Lemma rule_switch_unknown_metric (job : JobData.t) (rule : AnomalyRule.t) :
  known_metric (AnomalyRule.Type_ rule) = false -> rule_switch job rule = None.
Proof.
  unfold known_metric, rule_switch.
  destruct (String.eqb (AnomalyRule.Type_ rule) AnomalyTypeMaxSalary); [discriminate|].
  destruct (String.eqb (AnomalyRule.Type_ rule) AnomalyTypeMinSalary); [discriminate|].
  destruct (String.eqb (AnomalyRule.Type_ rule) AnomalyTypeRating); [discriminate|].
  reflexivity.
Qed.

(** C8, amended.  [CreateAnomalyRule] checks neither the operator nor the
    metric: it stamps the rule and sends the INSERT, and whether the rule is
    stored depends on the database alone (the statement can be run and the
    name is not taken).  A malformed rule is dealt with when rules are
    evaluated: a rule whose operator is not one of the five never yields a
    finding, and neither does a rule whose metric is unknown. *)
Theorem rules_are_stored_unchecked (rule : AnomalyRule.t) (w : World) :
  let o := CreateAnomalyRule rule w in
  let stored :=
    AnomalyRule.mk (rules_seq w + 1) (AnomalyRule.Name rule)
      (AnomalyRule.Description rule) (AnomalyRule.Type_ rule)
      (AnomalyRule.Operator rule) (AnomalyRule.Value rule)
      (AnomalyRule.IsActive rule) (clock w) (clock w) in
  match hd Healthy (faults w) with
  | Healthy =>
      if name_taken (AnomalyRule.Name rule) (anomaly_rules w) then
        snd (val o) = Some (Errorf "error creating anomaly rule" ErrUnique)
        /\ anomaly_rules (post o) = anomaly_rules w
      else
        val o = (stored, None)
        /\ anomaly_rules (post o) = anomaly_rules w ++ [stored]
  | _ =>
      snd (val o) = Some (Errorf "error creating anomaly rule" ErrDriver)
      /\ anomaly_rules (post o) = anomaly_rules w
  end
  /\ (forall job : JobData.t,
        IsValidOperator (AnomalyRule.Operator rule) = false ->
        rule_due job rule = [])
  /\ (forall job : JobData.t,
        known_metric (AnomalyRule.Type_ rule) = false ->
        rule_due job rule = []).
Proof.
  cbv zeta. split; [|split].
  - unfold CreateAnomalyRule, db_QueryRow_insert_rule, bind, take_fault,
      time_Now, ret, with_rule_ID, append.
    cbn [val post trace faults anomaly_rules rules_seq clock].
    destruct (faults w) as [|[| |n] fs]; cbn -[name_taken];
      try (destruct (name_taken (AnomalyRule.Name rule) (anomaly_rules w));
           cbn -[name_taken]);
      split; reflexivity.
  - intros job Hop. unfold rule_due.
    destruct (negb (AnomalyRule.IsActive rule)); [reflexivity|].
    unfold rule_switch.
    destruct (String.eqb _ AnomalyTypeMaxSalary);
      [destruct (JobData.MaxSalary job);
       rewrite ?compareValues_unknown_operator by exact Hop; reflexivity|].
    destruct (String.eqb _ AnomalyTypeMinSalary);
      [destruct (JobData.MinSalary job);
       rewrite ?compareValues_unknown_operator by exact Hop; reflexivity|].
    destruct (String.eqb _ AnomalyTypeRating);
      rewrite ?compareValues_unknown_operator by exact Hop; reflexivity.
  - intros job Hmetric. unfold rule_due.
    rewrite (rule_switch_unknown_metric job rule Hmetric).
    destruct (negb (AnomalyRule.IsActive rule)); reflexivity.
Qed.

(** * Runs on concrete data *)

(** A posting with every required field set. *)
Definition posting (id : string) (rating : float) (minSalary maxSalary : option float)
    : JobData.t :=
  JobData.mk "Acme" rating "1 Main Street" "https://acme.example" "Engineer" id
    "https://acme.example/jobs" "Builds things" minSalary maxSalary "Springfield".

Definition stored_row (id : string) (rating : option float)
    (maxSalary : option float) : JobsRow.t :=
  JobsRow.mk id "Acme" rating "Engineer" None maxSalary.

Definition world_of (rows : list JobsRow.t) (rules : list AnomalyRule.t)
    (schedule : list fault) : World :=
  mkWorld rows rules [] 0 (Z.of_nat (List.length rules)) 1000 schedule.

(** Salaries 0, 100 and 200 (mean 100, deviation 100) and ratings 3, 4 and 5
    (mean 4, deviation 1). *)
Definition three_jobs : list JobsRow.t :=
  [ stored_row "job-1" (Some 3%float) (Some 0%float);
    stored_row "job-2" (Some 4%float) (Some 100%float);
    stored_row "job-3" (Some 5%float) (Some 200%float) ].

Definition three_jobs_statistics : Statistics :=
  mkStatistics 100%float 100%float 4%float 1%float.

(** The rule of the specification's example: max_salary < 0. *)
Definition negative_salary_rule : AnomalyRule.t :=
  AnomalyRule.mk 1 "Negative Salary" "Alert if maximum salary is negative"
    AnomalyTypeMaxSalary LessThan 0%float true 10 10.

(** The first test of anomaly_service_test.go: four required fields are
    left empty. *)
Example test_null_value_detection :
  let job :=
    JobData.mk "" 0%float "" "" "Software Engineer" "test-job-1" ""
      "Test description" None None "Test City" in
  map Anomaly.Violations
    (filter (of_type AnomalyTypeNullValues)
       (emitted (trace (DetectAnomalies (platform := sample_platform) job
                          (world_of three_jobs [] [])))))
  = [["company_name"; "company_address"; "company_website"; "job_link"]].
Proof. vm_compute. reflexivity. Qed.

(** C4, on data: with mean 100 and deviation 100 a salary of 400 lies at
    exactly three deviations and yields no finding; with mean 4 and
    deviation 1 a rating of 0.5 lies at 3.5 deviations and yields one. *)
Lemma deviation_at_and_beyond_three_sigma :
  let job := posting "job-3" 0.5%float None (Some 400%float) in
  let w := world_of three_jobs [] [] in
  filter (deviation_of "max_salary")
    (emitted (trace (DetectAnomalies (platform := sample_platform) job w)))
  = []
  /\ exists a : Anomaly.t,
       filter (deviation_of "company_rating")
         (emitted (trace (DetectAnomalies (platform := sample_platform) job w)))
       = [a]
       /\ Anomaly.Value a = 0.5%float
       /\ Anomaly.Threshold a = 4%float
       /\ Anomaly.Violations a = ["company_rating"].
Proof.
  cbv zeta.
  assert (Hstats :
    In (EvStatistics (Ok three_jobs_statistics))
       (trace (DetectAnomalies (platform := sample_platform)
                 (posting "job-3" 0.5%float None (Some 400%float))
                 (world_of three_jobs [] []))))
    by (vm_compute; left; reflexivity).
  destruct (deviation_iff_zscore_exceeds_three _ _ _ Hstats) as [Hsalary Hrating].
  destruct (Hsalary 400%float eq_refl eq_refl) as (a & _ & _ & _ & _ & Ha).
  destruct (Hrating eq_refl eq_refl) as (b & _ & Hviol & Hval & Hthr & Hb).
  split.
  - exact Ha.
  - exists b. repeat split; assumption.
Defined.

Ltac find_in_list := vm_compute; repeat (first [left; reflexivity | right]).

(** C7.  [compareValues] is the IEEE comparison named by the operator, [=]
    being exact equality of the two floats.  So the active rule
    max_salary < 0 yields a finding with value -1000, threshold 0 and operator
    [<] for a record whose max_salary is -1000, and none for one whose
    max_salary is 500; run on stored data, the call returns that one finding
    for the first record and none for the second. *)
Theorem compareValues_is_the_named_comparison :
  (forall value threshold : float,
     compareValues value threshold GreaterThan = PrimFloat.ltb threshold value
     /\ compareValues value threshold GreaterThanOrEqual
        = PrimFloat.leb threshold value
     /\ compareValues value threshold LessThan = PrimFloat.ltb value threshold
     /\ compareValues value threshold LessThanOrEqual
        = PrimFloat.leb value threshold
     /\ compareValues value threshold Equal = PrimFloat.eqb value threshold)
  /\ (forall (id : string) (rating : float) (minSalary : option float),
        rule_due (posting id rating minSalary (Some (-1000)%float))
          negative_salary_rule
        = [ruleAnomaly (posting id rating minSalary (Some (-1000)%float))
             negative_salary_rule (-1000)%float]
        /\ rule_due (posting id rating minSalary (Some 500%float))
             negative_salary_rule
           = [])
  /\ (let rows :=
        [ stored_row "job-1" (Some 4%float) (Some (-1000)%float);
          stored_row "job-2" (Some 3%float) (Some 500%float);
          stored_row "job-3" (Some 5%float) (Some 150000%float) ] in
      let w := world_of rows [negative_salary_rule] [] in
      val (DetectAnomalies (platform := sample_platform)
             (posting "job-1" 4%float None (Some (-1000)%float)) w)
      = Ok [Anomaly.mk "1" AnomalyTypeMaxSalary "job-1"
              "Alert if maximum salary is negative" (-1000)%float 0%float
              LessThan 1000 []]
      /\ val (DetectAnomalies (platform := sample_platform)
                (posting "job-2" 3%float None (Some 500%float)) w)
         = Ok []).
Proof.
  split; [|split].
  - intros value threshold. repeat split.
  - intros id rating minSalary. split; reflexivity.
  - cbv zeta. split; vm_compute; reflexivity.
Qed.

(** C2, on data.  Two stored postings with the same salary make the salary
    deviation 0.  For a third salary the z-score is then infinite, its
    magnitude exceeds 3, and the deviation finding is emitted: the division
    is performed with the zero divisor. *)
Lemma zero_deviation_still_emits_a_finding :
  let rows :=
    [ stored_row "job-1" (Some 4%float) (Some 100%float);
      stored_row "job-2" (Some 4%float) (Some 100%float) ] in
  let o :=
    DetectAnomalies (platform := sample_platform)
      (posting "job-2" 4%float None (Some 200%float)) (world_of rows [] []) in
  statistics_answers (trace o) = [Ok (mkStatistics 100%float 0%float 4%float 0%float)]
  /\ filter (deviation_of "max_salary") (emitted (trace o))
     = [Anomaly.mk "" AnomalyTypeDeviation "job-2"
          "Salary deviates significantly from mean (z-score: +Inf)"
          200%float 100%float Equal 1000 ["max_salary"]].
Proof. cbv zeta. split; vm_compute; reflexivity. Qed.

(** C1, on data.  With no qualifying posting the statistics query fails:
    the finding of the null-value phase is persisted, yet the call returns
    the error and no finding, and the rules are never fetched.  With the
    statistics there and the rule query broken, the call fails likewise. *)
Lemma failed_query_fails_the_whole_call :
  let job :=
    JobData.mk "" 4%float "" "" "Engineer" "job-1" "" "" None (Some 100%float) "" in
  let rows := [stored_row "job-1" (Some 4%float) None] in
  let o := DetectAnomalies (platform := sample_platform) job
             (world_of rows [negative_salary_rule] []) in
  let o' := DetectAnomalies (platform := sample_platform) job
              (world_of three_jobs [negative_salary_rule]
                 [Healthy; Healthy; Broken]) in
  (filter qualifies rows = []
   /\ map Anomaly.ID (persisted (trace o)) = ["1"]
   /\ val o = Err (Errorf "error getting statistics"
                     (Errorf "error getting statistics" (ErrScanNull 0)))
   /\ rules_answers (trace o) = [])
  /\ (map Anomaly.ID (persisted (trace o')) = ["1"]
      /\ val o' = Err (Errorf "error getting anomaly rules via service"
                         (Errorf "error querying anomaly rules" ErrDriver))).
Proof. cbv zeta. repeat split; vm_compute; reflexivity. Qed.

(** C1, applied: a table without a posting that has both a salary and a
    positive rating, and a record that is not in the table.  The one finding
    cannot be saved, its line is printed, and the call fails at the
    statistics. *)
Lemma detection_without_baseline :
  let job :=
    JobData.mk "" 4%float "" "" "Engineer" "job-9" "" "" None (Some 100%float) "" in
  let w := world_of [stored_row "job-1" (Some 4%float) None] [] [] in
  let o := DetectAnomalies (platform := sample_platform) job w in
  (exists e : error,
     val o = Err (Errorf "error getting statistics"
                    (Errorf "error getting statistics" e)))
  /\ filter is_save (trace o)
     = [EvInsertAnomaly (nullAnomaly job 1000) (Err ErrForeignKey);
        EvPrintf "Error saving null value anomaly for job job-9"
          (Errorf "error inserting anomaly" ErrForeignKey)]
  /\ anomalies (post o) = [].
Proof.
  cbv zeta.
  destruct (detection_stops_at_a_failed_query (platform := sample_platform)
              (JobData.mk "" 4%float "" "" "Engineer" "job-9" "" "" None
                 (Some 100%float) "")
              (world_of [stored_row "job-1" (Some 4%float) None] [] []))
    as (Ha & _ & _ & Hnone).
  split; [apply Hnone; reflexivity|].
  split; [vm_compute; reflexivity | rewrite Ha; vm_compute; reflexivity].
Defined.

(** A rule on the rating: company_rating < 1. *)
Definition low_rating_rule : AnomalyRule.t :=
  AnomalyRule.mk 2 "Low Rating" "Alert if the company rating is below 1"
    AnomalyTypeRating LessThan 1%float true 20 20.

(** A posting that carries neither a rating nor a salary. *)
Definition unrated_posting : JobData.t := posting "job-1" 0%float None None.

(** C5, on data.  The posting has no rating: its [CompanyRating] is 0 and
    the deviation check leaves it out.  The active rule company_rating < 1 is
    compared against that 0 all the same and its finding is emitted. *)
Lemma absent_rating_is_compared_as_zero :
  let w := world_of three_jobs [low_rating_rule] [] in
  let o := DetectAnomalies (platform := sample_platform) unrated_posting w in
  JobData.CompanyRating unrated_posting = 0%float
  /\ rating_due (platform := sample_platform) unrated_posting three_jobs_statistics
     = []
  /\ emitted (trace o)
     = [Anomaly.mk "" AnomalyTypeRating "job-1"
          "Alert if the company rating is below 1" 0%float 1%float LessThan 1000 []]
  /\ val o
     = Ok [Anomaly.mk "1" AnomalyTypeRating "job-1"
             "Alert if the company rating is below 1" 0%float 1%float LessThan
             1000 []].
Proof. cbv zeta. repeat split; vm_compute; reflexivity. Qed.

(** C5, applied: the same posting under a salary rule and a rating rule. *)
Lemma salary_rule_skipped_rating_rule_compared :
  let w := world_of three_jobs [negative_salary_rule; low_rating_rule] [] in
  let o := DetectAnomalies (platform := sample_platform) unrated_posting w in
  filter (of_type AnomalyTypeMaxSalary) (emitted (trace o)) = []
  /\ ((exists now : Z,
         In (ruleAnomaly unrated_posting low_rating_rule 0%float now)
            (emitted (trace o)))
      <-> compareValues 0%float 1%float LessThan = true).
Proof.
  cbv zeta.
  destruct (absent_salary_skips_rule_rating_is_always_compared
              (platform := sample_platform) unrated_posting
              (world_of three_jobs [negative_salary_rule; low_rating_rule] []))
    as (Hmax & _ & Hrating).
  split.
  - apply Hmax. reflexivity.
  - apply (Hrating (mkRows [low_rating_rule; negative_salary_rule] None)
             low_rating_rule).
    + find_in_list.
    + reflexivity.
    + left. reflexivity.
    + reflexivity.
    + reflexivity.
Defined.

(** Two rules created one after the other through [CreateAnomalyRule]. *)
Definition low_pay_rule : AnomalyRule.t :=
  AnomalyRule.mk 0 "Low pay" "Maximum salary below 30000"
    AnomalyTypeMaxSalary LessThan 30000%float true 0 0.

Definition very_low_pay_rule : AnomalyRule.t :=
  AnomalyRule.mk 0 "Very low pay" "Maximum salary below 20000"
    AnomalyTypeMaxSalary LessThan 20000%float true 0 0.

Definition pay_rows : list JobsRow.t :=
  [ stored_row "job-1" (Some 3%float) (Some 15000%float);
    stored_row "job-2" (Some 4%float) (Some 50000%float);
    stored_row "job-3" (Some 5%float) (Some 85000%float) ].

Definition world_with_two_rules : World :=
  post (CreateAnomalyRule very_low_pay_rule
          (post (CreateAnomalyRule low_pay_rule (world_of pay_rows [] [])))).

(** C6, on data.  "Low pay" is created first and "Very low pay" second; a
    posting that violates both gets the finding of the rule created last
    first. *)
Lemma findings_come_in_reverse_creation_order :
  let job := posting "job-1" 3%float None (Some 15000%float) in
  map (fun r => (AnomalyRule.Name r, AnomalyRule.CreatedAt r))
    (anomaly_rules world_with_two_rules)
  = [("Low pay", 1000); ("Very low pay", 1001)]
  /\ map Anomaly.Description
       (emitted (trace (DetectAnomalies (platform := sample_platform) job
                          world_with_two_rules)))
     = ["Maximum salary below 20000"; "Maximum salary below 30000"].
Proof. cbv zeta. split; vm_compute; reflexivity. Qed.

(** C6, applied to the same two rules. *)
Lemma two_rules_newest_first :
  let job := posting "job-1" 3%float None (Some 15000%float) in
  let newest_first :=
    [ AnomalyRule.mk 2 "Very low pay" "Maximum salary below 20000"
        AnomalyTypeMaxSalary LessThan 20000%float true 1001 1001;
      AnomalyRule.mk 1 "Low pay" "Maximum salary below 30000"
        AnomalyTypeMaxSalary LessThan 30000%float true 1000 1000 ] in
  Permutation newest_first (anomaly_rules world_with_two_rules)
  /\ StronglySorted
       (fun older_or_same newer : AnomalyRule.t =>
          AnomalyRule.CreatedAt newer <= AnomalyRule.CreatedAt older_or_same)
       newest_first
  /\ exists earlier : list Anomaly.t,
       Forall (fun a => Anomaly.Type_ a = AnomalyTypeNullValues
                        \/ Anomaly.Type_ a = AnomalyTypeDeviation) earlier
       /\ emitted (trace (DetectAnomalies (platform := sample_platform) job
                            world_with_two_rules))
          = earlier
              ++ stamp_from (clock world_with_two_rules
                             + Z.of_nat (List.length earlier))
                   (flat_map (rule_due job) newest_first).
Proof.
  cbv zeta.
  apply (rules_are_applied_newest_first (platform := sample_platform)
           (posting "job-1" 3%float None (Some 15000%float))
           world_with_two_rules
           (mkRows
              [ AnomalyRule.mk 2 "Very low pay" "Maximum salary below 20000"
                  AnomalyTypeMaxSalary LessThan 20000%float true 1001 1001;
                AnomalyRule.mk 1 "Low pay" "Maximum salary below 30000"
                  AnomalyTypeMaxSalary LessThan 30000%float true 1000 1000 ]
              None)).
  - find_in_list.
  - reflexivity.
Defined.

(** C8, on data.  A rule with the operator [!=] on the metric [salary]
    (the metric of the default rule that [createDefaultAnomalyRules]
    inserts) is neither a valid operator nor a known metric;
    [CreateAnomalyRule] returns no error and the rule is in the table. *)
Lemma malformed_rule_is_stored :
  let rule :=
    AnomalyRule.mk 0 "Odd" "Salary is not 5" "salary" "!=" 5%float true 0 0 in
  let o := CreateAnomalyRule rule (world_of three_jobs [] []) in
  IsValidOperator "!=" = false
  /\ known_metric "salary" = false
  /\ snd (val o) = None
  /\ anomaly_rules (post o)
     = [AnomalyRule.mk 1 "Odd" "Salary is not 5" "salary" "!=" 5%float true
          1000 1000].
Proof. cbv zeta. repeat split; vm_compute; reflexivity. Qed.

(** C8, applied: the stored rule with the operator [!=] on max_salary never
    yields a finding. *)
Lemma unknown_operator_never_matches :
  let rule :=
    AnomalyRule.mk 1 "Odd" "Salary is not 5" AnomalyTypeMaxSalary "!=" 5%float
      true 1000 1000 in
  rule_due (posting "job-1" 4%float None (Some 7%float)) rule = [].
Proof.
  cbv zeta.
  destruct (rules_are_stored_unchecked
              (AnomalyRule.mk 1 "Odd" "Salary is not 5" AnomalyTypeMaxSalary "!="
                 5%float true 1000 1000)
              (world_of three_jobs [] []))
    as (_ & Hoperator & _).
  apply Hoperator. reflexivity.
Defined.

(** C9, applied: three stored postings; the statistics query of the first
    run is broken, that run fails and is reported, and the two other
    postings are evaluated. *)
Lemma batch_survives_a_failed_run :
  let w := world_of three_jobs [] [Healthy; Healthy; Broken] in
  let o := DetectAnomaliesForAllJobs (platform := sample_platform) w in
  val o = None
  /\ List.length (statistics_answers (trace o)) = 3%nat
  /\ In (EvPrintf "Error detecting anomalies for job job-1"
           (Errorf "error getting statistics"
              (Errorf "error getting statistics" ErrDriver)))
        (trace o).
Proof.
  cbv zeta.
  destruct (batch_runs_detection_once_per_record (platform := sample_platform)
              (world_of three_jobs [] [Healthy; Healthy; Broken]))
    as [Hfails Hruns].
  destruct (Hruns eq_refl eq_refl) as (_ & _ & Hcount).
  split; [|split].
  - apply Hfails. split; reflexivity.
  - exact Hcount.
  - find_in_list.
Defined.

(** C10, applied: findings are stored for job-1, none for job-2. *)
Lemma lookup_of_a_clean_record :
  let w :=
    post (DetectAnomalies (platform := sample_platform)
            (posting "job-1" 3%float None (Some 1000%float))
            (world_of three_jobs [] [])) in
  List.length (anomalies w) = 1%nat
  /\ val (GetAnomaliesByJobID "job-2" w) = Ok [].
Proof.
  cbv zeta. split; [vm_compute; reflexivity|].
  apply no_stored_finding_is_an_empty_list; vm_compute; reflexivity.
Defined.

(** * The rest of the services

    Embedded below: the other methods of the rule service and
    [createDefaultAnomalyRules] (database_service.go),
    [JobDataService.CreateJobData] (job_data_service.go), and the handlers
    of [internal/handlers] that read only the path of the request. *)

(** ** database_service.go: the other methods of the rule service

    These methods build some errors with [fmt.Errorf] from a message alone;
    [failure] adds them to the errors that have a cause.  Their statements
    are not written to the log of events (only [fmt.Printf] is). *)

Inductive failure : Type :=
| Caused (e : error)       (* an error of the kinds of [error] *)
| Plain (msg : string).    (* fmt.Errorf(msg): no cause to unwrap *)

(** What [GetAnomalyRule] returns: the rule, or the error. *)
Inductive lookup (A : Type) : Type :=
| Found (a : A)
| Failed (f : failure).
Arguments Found {A} a.
Arguments Failed {A} f.

(** [sql.Result], of which the services read [RowsAffected()] only. *)
Record sql_Result : Type := mkResult {
  RowsAffected : result Z
}.

Definition has_id (id : Z) (rule : AnomalyRule.t) : bool :=
  AnomalyRule.ID rule =? id.

Definition count_affected {A} (hit : A -> bool) (rows : list A) : Z :=
  Z.of_nat (List.length (filter hit rows)).

(** [SELECT ... FROM anomaly_rules WHERE id = $1] through [QueryRow]:
    [Ok None] is the row set without a row, on which Scan answers
    [sql.ErrNoRows]. *)
Definition db_QueryRow_select_rule (id : Z) : M (result (option AnomalyRule.t)) :=
  f <- take_fault ;;
  w <- read_world ;;
  match f with
  | Healthy => ret (Ok (find (has_id id) (anomaly_rules w)))
  | _ => ret (Err ErrDriver)
  end.

(** [AnomalyRuleService.GetAnomalyRule] (659-688). *)
Definition GetAnomalyRule (id : Z) : M (lookup AnomalyRule.t) :=
  r <- db_QueryRow_select_rule id ;;
  match r with
  | Ok (Some rule) => ret (Found rule)
  | Ok None =>
      ret (Failed (Plain ("anomaly rule with ID " ++ FormatInt id ++ " not found")%string))
  | Err err =>
      ret (Failed (Caused (Errorf "error querying or scanning anomaly rule" err)))
  end.

(** The row that [UPDATE anomaly_rules SET name, description, type,
    operator, value, is_active, updated_at WHERE id] leaves in place of
    [old]: [id] and [created_at] are not set. *)
Definition updated_row (rule old : AnomalyRule.t) : AnomalyRule.t :=
  AnomalyRule.mk (AnomalyRule.ID old) (AnomalyRule.Name rule)
    (AnomalyRule.Description rule) (AnomalyRule.Type_ rule)
    (AnomalyRule.Operator rule) (AnomalyRule.Value rule)
    (AnomalyRule.IsActive rule) (AnomalyRule.CreatedAt old)
    (AnomalyRule.UpdatedAt rule).

(** The new name is refused when a row is updated and another row holds
    the name already ([name] is UNIQUE). *)
Definition name_clash (rule : AnomalyRule.t) (rows : list AnomalyRule.t) : bool :=
  existsb (has_id (AnomalyRule.ID rule)) rows
  && existsb (fun r => negb (has_id (AnomalyRule.ID rule) r)
                       && String.eqb (AnomalyRule.Name r) (AnomalyRule.Name rule))
       rows.

Definition set_rules (w : World) (rows : list AnomalyRule.t) : World :=
  mkWorld (jobs w) rows (anomalies w) (anomalies_seq w) (rules_seq w) (clock w)
    (faults w).

(** The UPDATE of [UpdateAnomalyRule] through [Exec].  The row is rewritten
    where it stands in the list.  PostgreSQL writes a new version of the row
    elsewhere, and the place a later [ORDER BY created_at DESC] gives it
    among rows of the same creation time may change with that: the list
    position is a choice of this model, not a fact of the database. *)
Definition db_Exec_update_rule (rule : AnomalyRule.t) : M (result sql_Result) :=
  f <- take_fault ;;
  fun w =>
    match f with
    | Healthy =>
        if name_clash rule (anomaly_rules w) then Out (Err ErrUnique) w []
        else
          Out (Ok (mkResult
                     (Ok (count_affected (has_id (AnomalyRule.ID rule))
                            (anomaly_rules w)))))
              (set_rules w
                 (map (fun old => if has_id (AnomalyRule.ID rule) old
                                  then updated_row rule old else old)
                    (anomaly_rules w)))
              []
    | _ => Out (Err ErrDriver) w []
    end.

(** [AnomalyRuleService.UpdateAnomalyRule] (722-762); the rule is returned
    as the caller sees it afterwards, with its new [UpdatedAt]. *)
Definition UpdateAnomalyRule (rule : AnomalyRule.t)
    : M (AnomalyRule.t * option failure) :=
  now <- time_Now ;;
  let rule :=
    AnomalyRule.mk (AnomalyRule.ID rule) (AnomalyRule.Name rule)
      (AnomalyRule.Description rule) (AnomalyRule.Type_ rule)
      (AnomalyRule.Operator rule) (AnomalyRule.Value rule)
      (AnomalyRule.IsActive rule) (AnomalyRule.CreatedAt rule) now in
  r <- db_Exec_update_rule rule ;;
  match r with
  | Err err => ret (rule, Some (Caused (Errorf "error updating anomaly rule" err)))
  | Ok result =>
      match RowsAffected result with
      | Err err =>
          _ <- Printf "Could not get rows affected after update" err ;;
          ret (rule, None)
      | Ok rowsAffected =>
          if rowsAffected =? 0 then
            ret (rule,
                 Some (Plain ("anomaly rule with ID " ++ FormatInt (AnomalyRule.ID rule)
                                ++ " not found for update")%string))
          else ret (rule, None)
      end
  end.

(** [DELETE FROM anomaly_rules WHERE id = $1] through [Exec]. *)
Definition db_Exec_delete_rule (id : Z) : M (result sql_Result) :=
  f <- take_fault ;;
  fun w =>
    match f with
    | Healthy =>
        Out (Ok (mkResult (Ok (count_affected (has_id id) (anomaly_rules w)))))
            (set_rules w (filter (fun r => negb (has_id id r)) (anomaly_rules w)))
            []
    | _ => Out (Err ErrDriver) w []
    end.

(** [AnomalyRuleService.DeleteAnomalyRule] (765-780). *)
Definition DeleteAnomalyRule (id : Z) : M (option failure) :=
  r <- db_Exec_delete_rule id ;;
  match r with
  | Err err => ret (Some (Caused (Errorf "error deleting anomaly rule" err)))
  | Ok result =>
      match RowsAffected result with
      | Err err =>
          _ <- Printf "Could not get rows affected after delete" err ;;
          ret None
      | Ok rowsAffected =>
          if rowsAffected =? 0 then
            ret (Some (Plain ("anomaly rule with ID " ++ FormatInt id
                                ++ " not found for deletion")%string))
          else ret None
      end
  end.

(** The row that [UPDATE anomaly_rules SET is_active = $1, updated_at =
    NOW() WHERE id = $2] leaves in place of [old]. *)
Definition toggled_row (isActive : bool) (now : Z) (old : AnomalyRule.t)
    : AnomalyRule.t :=
  AnomalyRule.mk (AnomalyRule.ID old) (AnomalyRule.Name old)
    (AnomalyRule.Description old) (AnomalyRule.Type_ old)
    (AnomalyRule.Operator old) (AnomalyRule.Value old) isActive
    (AnomalyRule.CreatedAt old) now.

(** The UPDATE of [ToggleAnomalyRule] through [Exec]; [NOW()] reads the
    clock, which moves on.  As for [db_Exec_update_rule], the list position
    of the rewritten row is a choice of this model. *)
Definition db_Exec_toggle_rule (id : Z) (isActive : bool) : M (result sql_Result) :=
  f <- take_fault ;;
  fun w =>
    match f with
    | Healthy =>
        Out (Ok (mkResult (Ok (count_affected (has_id id) (anomaly_rules w)))))
            (mkWorld (jobs w)
               (map (fun old => if has_id id old
                                then toggled_row isActive (clock w) old else old)
                  (anomaly_rules w))
               (anomalies w) (anomalies_seq w) (rules_seq w) (clock w + 1)
               (faults w))
            []
    | _ => Out (Err ErrDriver) w []
    end.

(** [AnomalyRuleService.ToggleAnomalyRule] (783-804). *)
Definition ToggleAnomalyRule (id : Z) (isActive : bool) : M (option failure) :=
  r <- db_Exec_toggle_rule id isActive ;;
  match r with
  | Err err => ret (Some (Caused (Errorf "error toggling anomaly rule" err)))
  | Ok result =>
      match RowsAffected result with
      | Err err =>
          _ <- Printf "Could not get rows affected after toggle" err ;;
          ret None
      | Ok rowsAffected =>
          if rowsAffected =? 0 then
            ret (Some (Plain ("anomaly rule with ID " ++ FormatInt id
                                ++ " not found for toggle")%string))
          else ret None
      end
  end.

(** The rule of [createDefaultAnomalyRules] (226-240), as the INSERT writes
    it: [id] from the sequence, both timestamps CURRENT_TIMESTAMP. *)
Definition default_rule (id now : Z) : AnomalyRule.t :=
  AnomalyRule.mk id "Negative Salary" "Alert if maximum salary is negative"
    "salary" "<" 0%float true now now.

(** [INSERT INTO anomaly_rules ... VALUES ('Negative Salary', ...)
    ON CONFLICT (name) DO NOTHING] through [Exec]; the id is drawn from the
    sequence also when the row is not inserted. *)
Definition db_Exec_insert_default_rule : M (result sql_Result) :=
  f <- take_fault ;;
  fun w =>
    match f with
    | Healthy =>
        let id := rules_seq w + 1 in
        if name_taken "Negative Salary" (anomaly_rules w) then
          Out (Ok (mkResult (Ok 0)))
              (mkWorld (jobs w) (anomaly_rules w) (anomalies w)
                       (anomalies_seq w) id (clock w + 1) (faults w))
              []
        else
          Out (Ok (mkResult (Ok 1)))
              (mkWorld (jobs w)
                       (append (anomaly_rules w) (default_rule id (clock w)))
                       (anomalies w) (anomalies_seq w) id (clock w + 1) (faults w))
              []
    | _ => Out (Err ErrDriver) w []
    end.

(** [createDefaultAnomalyRules] (226-240); its error carries the text of the
    cause ([%v]); the line it writes with [log.Println] is left out. *)
Definition createDefaultAnomalyRules : M (option failure) :=
  r <- db_Exec_insert_default_rule ;;
  match r with
  | Err err => ret (Some (Caused (Errorf "error creating default anomaly rules" err)))
  | Ok _ => ret None
  end.

(** ** job_data_service.go: saving a posting

    [JobData] and [JobsRow] hold the fields and the columns that the anomaly
    service reads; the INSERT of [CreateJobData] writes these and
    thirty-five more, none of which is constrained.  [CreatedAt] and
    [UpdatedAt], which the method sets from [time.Now()] before the INSERT,
    are among the fields left out. *)

(** The row written for a record: [CompanyRating] is a float64 and is
    never written as NULL; the two salaries are pointers and can be. *)
Definition row_of (job : JobData.t) : JobsRow.t :=
  JobsRow.mk (JobData.JobID job) (JobData.CompanyName job)
    (Some (JobData.CompanyRating job)) (JobData.JobTitle job)
    (JobData.MinSalary job) (JobData.MaxSalary job).

Definition same_job (id : string) (row : JobsRow.t) : bool :=
  String.eqb (JobsRow.job_id row) id.

(** [INSERT INTO jobs (...) VALUES (...) ON CONFLICT (job_id) DO UPDATE SET
    ...] through [Exec]: the row of that [job_id] is overwritten where it
    stands, or a new row is added. *)
Definition db_Exec_upsert_job (job : JobData.t) : M (result sql_Result) :=
  f <- take_fault ;;
  fun w =>
    match f with
    | Healthy =>
        let rows :=
          if job_exists (JobData.JobID job) (jobs w) then
            map (fun old => if same_job (JobData.JobID job) old
                            then row_of job else old)
              (jobs w)
          else append (jobs w) (row_of job) in
        Out (Ok (mkResult (Ok 1)))
            (mkWorld rows (anomaly_rules w) (anomalies w) (anomalies_seq w)
                     (rules_seq w) (clock w) (faults w))
            []
    | _ => Out (Err ErrDriver) w []
    end.

(** [JobDataService.CreateJobData]: [None] is the nil error. *)
Definition CreateJobData (job : JobData.t) : M (option error) :=
  now <- time_Now ;;
  r <- db_Exec_upsert_job job ;;
  match r with
  | Err err => ret (Some (Errorf "error saving job data" err))
  | Ok _ => ret None
  end.

(** ** internal/handlers

    The handlers that read nothing but the path of the request: of the rule
    handler [GetAnomalyRules], [GetAnomalyRule] and [DeleteAnomalyRule], of
    the anomaly handler [GetAnomaliesByJobID], [GetAllAnomalies] and
    [DetectAnomaliesForAllJobs].  (The others bind a JSON body with gin.) *)

From Stdlib Require Import Ascii DecimalPos.

(** [strconv.ParseInt(s, 10, 64)], of which the handlers only ask whether
    it failed: [None] is [err != nil].  An optional sign, then one decimal
    digit or more, and the value must fit an int64. *)
Definition ParseInt (s : string) : option Z :=
  match s with
  | EmptyString => None
  | String c rest =>
      let neg := Ascii.eqb c "-"%char in
      let digits := if Ascii.eqb c "+"%char || neg then rest else s in
      match NilZero.uint_of_string digits with
      | None => None
      | Some d =>
          let un := Z.of_uint d in
          if neg then (if un <=? 2 ^ 63 then Some (- un) else None)
          else (if un <? 2 ^ 63 then Some un else None)
      end
  end.

(** The constants of [net/http] that the handlers use. *)
Definition StatusOK : Z := 200.
Definition StatusNoContent : Z := 204.
Definition StatusBadRequest : Z := 400.
Definition StatusInternalServerError : Z := 500.

(** What a handler writes with [c.JSON] or [c.Status]. *)
Inductive body : Type :=
| NoBody                              (* c.Status(code) *)
| ErrorText (msg : string)            (* gin.H{"error": msg} *)
| ErrorOf (err : failure)             (* gin.H{"error": err.Error()} *)
| Message (msg : string)              (* gin.H{"message": msg} *)
| OneRule (rule : AnomalyRule.t)
| AllRules (rules : list AnomalyRule.t)
| Findings (anomalies : list Anomaly.t).

Record response : Type := Response {
  Status : Z;
  Body   : body
}.

(** *** anomaly_rule_handler.go *)

(** The field [ruleService] of the handler, bound to [AnomalyRuleService]
    as [setupServer] does. *)
Module ruleService.
Definition GetAnomalyRules : M (result (list AnomalyRule.t)) := GetAnomalyRules.
Definition GetAnomalyRule : Z -> M (lookup AnomalyRule.t) := GetAnomalyRule.
Definition DeleteAnomalyRule : Z -> M (option failure) := DeleteAnomalyRule.
End ruleService.

Module AnomalyRuleHandler.

(** [GetAnomalyRules] (25-32). *)
Definition GetAnomalyRules : M response :=
  r <- ruleService.GetAnomalyRules ;;
  match r with
  | Err err => ret (Response StatusInternalServerError (ErrorOf (Caused err)))
  | Ok rules => ret (Response StatusOK (AllRules rules))
  end.

(** [GetAnomalyRule] (35-48); [id] is [c.Param("id")]. *)
Definition GetAnomalyRule (id : string) : M response :=
  match ParseInt id with
  | None => ret (Response StatusBadRequest (ErrorText "invalid rule ID"))
  | Some id =>
      r <- ruleService.GetAnomalyRule id ;;
      match r with
      | Failed err => ret (Response StatusInternalServerError (ErrorOf err))
      | Found rule => ret (Response StatusOK (OneRule rule))
      end
  end.

(** [DeleteAnomalyRule] (88-100). *)
Definition DeleteAnomalyRule (id : string) : M response :=
  match ParseInt id with
  | None => ret (Response StatusBadRequest (ErrorText "invalid rule ID"))
  | Some id =>
      r <- ruleService.DeleteAnomalyRule id ;;
      match r with
      | Some err => ret (Response StatusInternalServerError (ErrorOf err))
      | None => ret (Response StatusNoContent NoBody)
      end
  end.

End AnomalyRuleHandler.

(** *** anomaly_handler.go *)

(** The field [anomalyService] of the handler, bound to [AnomalyService]. *)
Module anomalyService.
Section Service.
Context {platform : Platform}.
Definition GetAnomaliesByJobID : string -> M (result (list Anomaly.t)) :=
  GetAnomaliesByJobID.
Definition GetAllAnomalies : M (result (list Anomaly.t)) := GetAllAnomalies.
Definition DetectAnomaliesForAllJobs : M (option error) :=
  DetectAnomaliesForAllJobs.
End Service.
End anomalyService.

Module AnomalyHandler.
Section Handlers.
Context {platform : Platform}.

(** [GetAnomaliesByJobID]; [jobID] is [c.Param("job_id")]. *)
Definition GetAnomaliesByJobID (jobID : string) : M response :=
  r <- anomalyService.GetAnomaliesByJobID jobID ;;
  match r with
  | Err err => ret (Response StatusInternalServerError (ErrorOf (Caused err)))
  | Ok anomalies => ret (Response StatusOK (Findings anomalies))
  end.

(** [GetAllAnomalies]: the nil slice it replaces by an empty one is [[]]
    here already. *)
Definition GetAllAnomalies : M response :=
  r <- anomalyService.GetAllAnomalies ;;
  match r with
  | Err err => ret (Response StatusInternalServerError (ErrorOf (Caused err)))
  | Ok anomalies => ret (Response StatusOK (Findings anomalies))
  end.

(** [DetectAnomaliesForAllJobs]. *)
Definition DetectAnomaliesForAllJobs : M response :=
  e <- anomalyService.DetectAnomaliesForAllJobs ;;
  match e with
  | Some err => ret (Response StatusInternalServerError (ErrorOf (Caused err)))
  | None =>
      ret (Response StatusOK (Message "Anomaly detection completed for all jobs"))
  end.

End Handlers.
End AnomalyHandler.

(** * Further properties *)

Section Detection_again.
Context {platform : Platform}.

(** ** The baseline *)

Lemma column_of_qualifying (rows : list JobsRow.t) :
  List.length (column JobsRow.max_salary (filter qualifies rows))
  = List.length (filter qualifies rows)
  /\ List.length (column JobsRow.company_rating (filter qualifies rows))
     = List.length (filter qualifies rows).
Proof.
  induction rows as [|row rest [IHs IHr]]; [split; reflexivity|].
  cbn [filter]. destruct (qualifies row) eqn:Hq; [|split; assumption].
  unfold qualifies in Hq. unfold column in *. cbn [flat_map].
  destruct (JobsRow.max_salary row); [|discriminate].
  destruct (JobsRow.company_rating row); [|discriminate].
  cbn [app List.length]. rewrite IHs, IHr. split; reflexivity.
Qed.

(** The four aggregates can be scanned exactly when two rows or more
    qualify: with none [AVG] is NULL, with one [STDDEV] is. *)
Lemma select_statistics_ok_iff (rows : list JobsRow.t) :
  is_ok (select_statistics rows) = true
  <-> (2 <= List.length (filter qualifies rows))%nat.
Proof.
  unfold select_statistics. cbv zeta.
  destruct (column_of_qualifying rows) as [Hs Hr].
  destruct (column JobsRow.max_salary (filter qualifies rows)) as [|s0 [|s1 ss]];
  destruct (column JobsRow.company_rating (filter qualifies rows)) as [|r0 [|r1 rs]];
    cbn in *; rewrite <- ?Hs, <- ?Hr; split; intros H;
    try discriminate; try lia; try reflexivity.
Qed.

Lemma getStatistics_ok_iff (w : World) :
  is_ok (val (getStatistics w)) = true
  <-> hd Healthy (faults w) = Healthy
      /\ is_ok (select_statistics (jobs w)) = true.
Proof.
  unfold getStatistics, db_QueryRow_statistics, bind, take_fault, read_world,
    emit, ret.
  destruct (faults w) as [|[| |n] fs]; cbn [hd val post trace jobs].
  1, 2: destruct (select_statistics (jobs w)); cbn;
    (split; [intros H; split; [reflexivity|exact H] | intros [_ H]; exact H]).
  all: cbn; split; try discriminate; intros [H _]; discriminate.
Qed.

(** X1.  [getStatistics] succeeds exactly when its query can be run and at
    least two rows of [jobs] qualify (a salary, and a rating above 0): with
    one qualifying row STDDEV is NULL and cannot be scanned.  Until the table
    holds two such rows every call of [DetectAnomalies] fails with the
    statistics error, whatever the record and whatever else happens, having
    emitted the null-value finding only. *)
Theorem baseline_needs_two_qualifying_postings (w : World) :
  (is_ok (val (getStatistics w)) = true
   <-> hd Healthy (faults w) = Healthy
       /\ (2 <= List.length (filter qualifies (jobs w)))%nat)
  /\ (forall job : JobData.t,
        (List.length (filter qualifies (jobs w)) < 2)%nat ->
        exists e : error,
          val (DetectAnomalies job w)
          = Err (Errorf "error getting statistics"
                   (Errorf "error getting statistics" e))
          /\ emitted (trace (DetectAnomalies job w))
             = stamp_from (clock w) (null_due job)).
Proof.
  split.
  - rewrite <- select_statistics_ok_iff. apply getStatistics_ok_iff.
  - intros job Hfew.
    assert (Hno : is_ok (select_statistics (jobs w)) = false).
    { destruct (is_ok (select_statistics (jobs w))) eqn:Hok; [|reflexivity].
      apply select_statistics_ok_iff in Hok. lia. }
    destruct (DetectAnomalies_runs job w)
      as [e _ _ _ He Hv _ | stats f e _ Hsel _ _ _ _ _
          | stats f rules _ Hsel _ _ _ _ _].
    + exists e. split; assumption.
    + rewrite Hsel in Hno. discriminate.
    + rewrite Hsel in Hno. discriminate.
Qed.

(** ** What detection leaves alone, and what it does when nothing fails *)

(** The answer the database owes to a call when it is healthy and holds the
    tables of [w]. *)
Definition answered_by (w : World) (e : event) : Prop :=
  match e with
  | EvStatistics rs => rs = select_statistics (jobs w)
  | EvSelectRules rr =>
      rr = Ok (mkRows (order_by_desc AnomalyRule.CreatedAt (anomaly_rules w)) None)
  | EvInsertAnomaly a r => is_ok r = job_exists (Anomaly.JobID a) (jobs w)
  | _ => True
  end.

(** A computation that leaves [jobs] and [anomaly_rules] as they are, adds
    to [anomalies] the findings it persisted and nothing else, and that,
    started without a fault to come, meets none and gets the answers the
    tables determine. *)
Definition orderly {A} (m : M A) : Prop :=
  forall w : World,
    jobs (post (m w)) = jobs w
    /\ anomaly_rules (post (m w)) = anomaly_rules w
    /\ anomalies (post (m w)) = anomalies w ++ persisted (trace (m w))
    /\ (faults w = [] ->
        faults (post (m w)) = [] /\ Forall (answered_by w) (trace (m w))).

Lemma answered_by_same_tables (w w' : World) (e : event) :
  jobs w' = jobs w -> anomaly_rules w' = anomaly_rules w ->
  answered_by w' e -> answered_by w e.
Proof.
  intros Hj Hr. destruct e; cbn; rewrite ?Hj, ?Hr; auto.
Qed.

Lemma orderly_ret {A} (a : A) : orderly (ret a).
Proof. intros w. cbn. rewrite app_nil_r. auto. Qed.

Lemma orderly_bind {A B} (m : M A) (f : A -> M B) :
  orderly m -> (forall a, orderly (f a)) -> orderly (bind m f).
Proof.
  intros Hm Hf w.
  destruct (Hm w) as (Hj & Hr & Ha & Hq).
  destruct (Hf (val (m w)) (post (m w))) as (Hj' & Hr' & Ha' & Hq').
  rewrite post_bind, trace_bind, persisted_app, Hj', Hr', Ha', Ha, app_assoc.
  repeat split; auto.
  - apply Hq'. apply Hq. assumption.
  - apply Forall_app. split; [apply Hq; assumption|].
    eapply Forall_impl; [|apply Hq'; apply Hq; assumption].
    intros e. apply answered_by_same_tables; assumption.
Qed.

Lemma orderly_time_Now : orderly time_Now.
Proof. intros w. cbn. rewrite app_nil_r. auto. Qed.

Lemma orderly_Printf (msg : string) (e : error) : orderly (Printf msg e).
Proof.
  intros w. cbn. rewrite app_nil_r.
  split; [reflexivity|split; [reflexivity|split; [reflexivity|]]].
  intros H. split; [exact H | repeat constructor].
Qed.

Lemma orderly_insert_anomaly (a : Anomaly.t) :
  orderly (db_QueryRow_insert_anomaly a).
Proof.
  intros w. unfold db_QueryRow_insert_anomaly, bind, take_fault, append.
  destruct (faults w) as [|f fs] eqn:Hf.
  - cbn -[job_exists].
    destruct (job_exists (Anomaly.JobID a) (jobs w)) eqn:Hex; cbn -[job_exists];
      rewrite ?app_nil_r;
      (split; [reflexivity|split; [reflexivity|split; [reflexivity|]]]);
      intros _; (split; [exact Hf|]);
      (constructor;
       [cbn -[job_exists]; rewrite Hex; reflexivity | constructor]).
  - destruct f; cbn -[job_exists];
      try (destruct (job_exists (Anomaly.JobID a) (jobs w)); cbn -[job_exists]);
      rewrite ?app_nil_r;
      (split; [reflexivity|split; [reflexivity|split; [reflexivity|discriminate]]]).
Qed.

Lemma orderly_statistics : orderly db_QueryRow_statistics.
Proof.
  intros w. unfold db_QueryRow_statistics, bind, take_fault, read_world, emit, ret.
  destruct (faults w) as [|f fs] eqn:Hf; cbn; rewrite app_nil_r.
  - split; [reflexivity|split; [reflexivity|split; [reflexivity|]]]. intros _.
    split; [exact Hf | repeat constructor].
  - split; [reflexivity|split; [reflexivity|split; [reflexivity|discriminate]]].
Qed.

Lemma orderly_rules : orderly db_Query_rules.
Proof.
  intros w. unfold db_Query_rules, bind, take_fault, read_world, emit, ret.
  destruct (faults w) as [|f fs] eqn:Hf; cbn; rewrite app_nil_r.
  - split; [reflexivity|split; [reflexivity|split; [reflexivity|]]]. intros _.
    split; [exact Hf | repeat constructor].
  - split; [reflexivity|split; [reflexivity|split; [reflexivity|discriminate]]].
Qed.

Lemma orderly_jobs : orderly db_Query_jobs.
Proof.
  intros w. unfold db_Query_jobs, bind, take_fault, read_world, emit, ret.
  destruct (faults w) as [|f fs] eqn:Hf; cbn; rewrite app_nil_r.
  - split; [reflexivity|split; [reflexivity|split; [reflexivity|]]]. intros _.
    split; [exact Hf | repeat constructor].
  - split; [reflexivity|split; [reflexivity|split; [reflexivity|discriminate]]].
Qed.

Ltac orderly_steps :=
  repeat first
    [ apply orderly_ret
    | apply orderly_time_Now
    | apply orderly_Printf
    | apply orderly_insert_anomaly
    | apply orderly_statistics
    | apply orderly_rules
    | apply orderly_jobs
    | apply orderly_bind; [|intros ?]
    | match goal with
      | |- orderly (match ?x with _ => _ end) => destruct x
      | |- orderly (if ?x then _ else _) => destruct x
      end ].

Lemma orderly_save_or_print (msg : string) (a : Anomaly.t)
    (detected : list Anomaly.t) :
  orderly (save_or_print msg a detected).
Proof. unfold save_or_print, saveAnomaly. orderly_steps. Qed.

Lemma orderly_apply_rules (job : JobData.t) (rules : list AnomalyRule.t) :
  forall detected, orderly (apply_rules job rules detected).
Proof.
  induction rules as [|rule rest IH]; intros detected; cbn [apply_rules].
  - apply orderly_ret.
  - apply orderly_bind; [|exact IH].
    unfold apply_rule. orderly_steps; apply orderly_save_or_print.
Qed.

Lemma orderly_DetectAnomalies (job : JobData.t) : orderly (DetectAnomalies job).
Proof.
  unfold DetectAnomalies, detect_null_values, getStatistics,
    detect_salary_deviation, detect_rating_deviation, GetAnomalyRules.
  orderly_steps;
    first [apply orderly_save_or_print | apply orderly_apply_rules].
Qed.

Lemma orderly_detect_each (rows : list JobsRow.t) : orderly (detect_each rows).
Proof.
  induction rows as [|row rest IH]; cbn [detect_each].
  - apply orderly_ret.
  - destruct (scan_job row); [|apply orderly_ret].
    apply orderly_bind; [apply orderly_DetectAnomalies|intros r].
    apply orderly_bind; [|intros _; exact IH].
    destruct r; [apply orderly_ret | apply orderly_Printf].
Qed.

Lemma orderly_DetectAnomaliesForAllJobs : orderly DetectAnomaliesForAllJobs.
Proof.
  unfold DetectAnomaliesForAllJobs.
  apply orderly_bind; [apply orderly_jobs|intros r].
  destruct r; [|apply orderly_ret].
  apply orderly_bind; [apply orderly_detect_each|intros e].
  orderly_steps.
Qed.

(** ** The shape of every finding *)

(** What every finding built by [DetectAnomalies] for [job] at time [t]
    looks like: no id yet, the id of the record, the time it was built, and
    one of the five operators. *)
Definition built_for (job : JobData.t) (t : Z) (a : Anomaly.t) : Prop :=
  Anomaly.ID a = ""
  /\ Anomaly.JobID a = JobData.JobID job
  /\ Anomaly.CreatedAt a = t
  /\ IsValidOperator (Anomaly.Operator a) = true.

Lemma compareValues_true_valid (value threshold : float)
    (operator : ComparisonOperator) :
  compareValues value threshold operator = true ->
  IsValidOperator operator = true.
Proof.
  intros H. destruct (IsValidOperator operator) eqn:Hv; [reflexivity|].
  rewrite (compareValues_unknown_operator value threshold operator Hv) in H.
  discriminate.
Qed.

Lemma rule_switch_compared (job : JobData.t) (rule : AnomalyRule.t) (v : float) :
  rule_switch job rule = Some (v, true) ->
  compareValues v (AnomalyRule.Value rule) (AnomalyRule.Operator rule) = true.
Proof.
  unfold rule_switch.
  destruct (String.eqb _ AnomalyTypeMaxSalary).
  { destruct (JobData.MaxSalary job); intros H; inversion H; subst; auto. }
  destruct (String.eqb _ AnomalyTypeMinSalary).
  { destruct (JobData.MinSalary job); intros H; inversion H; subst; auto. }
  destruct (String.eqb _ AnomalyTypeRating); [|discriminate].
  intros H; inversion H; subst; auto.
Qed.

Lemma due_built_for (job : JobData.t) (stats : Statistics)
    (rules : list AnomalyRule.t) (build : Z -> Anomaly.t) (t : Z) :
  In build (null_due job ++ salary_due job stats ++ rating_due job stats
              ++ rules_due job rules) ->
  built_for job t (build t).
Proof.
  intros Hin. apply in_app_or in Hin. destruct Hin as [Hin|Hin].
  { unfold null_due in Hin. destruct (0 <? _)%nat; [|destruct Hin].
    destruct Hin as [<-|[]]. repeat split. }
  apply in_app_or in Hin. destruct Hin as [Hin|Hin].
  { unfold salary_due in Hin. destruct (JobData.MaxSalary job); [|destruct Hin].
    destruct (deviates _); [|destruct Hin].
    destruct Hin as [<-|[]]. repeat split. }
  apply in_app_or in Hin. destruct Hin as [Hin|Hin].
  { unfold rating_due in Hin. destruct (negb _); [|destruct Hin].
    destruct (deviates _); [|destruct Hin].
    destruct Hin as [<-|[]]. repeat split. }
  destruct (in_rules_due _ _ _ Hin) as (rule & v & _ & _ & Hs & ->).
  repeat split. cbn [ruleAnomaly Anomaly.Operator].
  exact (compareValues_true_valid _ _ _ (rule_switch_compared _ _ Hs)).
Qed.

(** The findings of a run are those of a prefix of its phases. *)
Lemma emitted_due (job : JobData.t) (w : World) :
  exists (stats : Statistics) (rules : list AnomalyRule.t)
         (due : list (Z -> Anomaly.t)),
    emitted (trace (DetectAnomalies job w)) = stamp_from (clock w) due
    /\ incl due (null_due job ++ salary_due job stats ++ rating_due job stats
                   ++ rules_due job rules).
Proof.
  destruct (DetectAnomalies_runs job w)
    as [e _ _ _ He _ _ | stats f e _ _ _ _ He _ _ | stats f rules _ _ _ _ He _ _].
  - exists (mkStatistics 0 0 0 0), [], (null_due job).
    split; [exact He|]. apply incl_appl, incl_refl.
  - exists stats, [], (null_due job ++ salary_due job stats ++ rating_due job stats).
    split; [exact He|]. cbn [rules_due flat_map]. rewrite app_nil_r.
    apply incl_refl.
  - exists stats, rules,
      (null_due job ++ salary_due job stats ++ rating_due job stats
         ++ rules_due job rules).
    split; [exact He | apply incl_refl].
Qed.

(** Findings are stamped with consecutive readings of the clock. *)
Fixpoint stamped_from (job : JobData.t) (now : Z) (found : list Anomaly.t)
    : Prop :=
  match found with
  | [] => True
  | a :: rest => built_for job now a /\ stamped_from job (now + 1) rest
  end.

Lemma stamp_from_stamped (job : JobData.t) (due : list (Z -> Anomaly.t)) :
  (forall build t, In build due -> built_for job t (build t)) ->
  forall now, stamped_from job now (stamp_from now due).
Proof.
  induction due as [|b due IH]; intros Hb now; cbn [stamp_from stamped_from].
  - exact I.
  - split; [apply Hb; left; reflexivity|].
    apply IH. intros build t Hin. apply Hb. right. exact Hin.
Qed.

Lemma emitted_built_for (job : JobData.t) (w : World) :
  Forall (fun a => exists t, built_for job t a)
    (emitted (trace (DetectAnomalies job w))).
Proof.
  destruct (emitted_due job w) as (stats & rules & due & -> & Hincl).
  apply stamped_types. intros build now Hin. exists now.
  apply (due_built_for job stats rules). apply Hincl. exact Hin.
Qed.

(** X2.  Every finding that [DetectAnomalies] emits for a record, in any
    state of the database, carries the id of that record, has no id of its
    own before the database gives it one, and has one of the five valid
    operators (rules are stored unchecked, but a rule with another operator
    never matches).  The findings of one call are stamped with successive
    readings of the clock, in the order they are emitted. *)
Theorem every_finding_names_its_record_and_a_valid_operator
    (job : JobData.t) (w : World) :
  stamped_from job (clock w) (emitted (trace (DetectAnomalies job w))).
Proof.
  destruct (emitted_due job w) as (stats & rules & due & -> & Hincl).
  apply stamp_from_stamped. intros build t Hin.
  apply (due_built_for job stats rules). apply Hincl. exact Hin.
Qed.

Lemma persisted_of_emitted (P : Anomaly.t -> Prop) (t : list event) :
  (forall a id, P a -> P (Anomaly.with_ID a id)) ->
  Forall P (emitted t) -> Forall P (persisted t).
Proof.
  intros Hid. induction t as [|e t IH]; intros H; [constructor|].
  destruct e as [| a [id|err] | | | | |]; cbn [emitted persisted] in *;
    try (apply IH; exact H); inversion H; subst; auto.
Qed.

(** X3.  Detection reads [jobs] and [anomaly_rules] and never writes them,
    for one record and for the whole table, whatever fails on the way.  To
    [anomalies] it only adds rows, at the end: the findings it persisted.
    Those of [DetectAnomalies] all belong to the record it was called for. *)
Theorem detection_only_adds_findings (w : World) :
  (forall job : JobData.t,
     let o := DetectAnomalies job w in
     jobs (post o) = jobs w
     /\ anomaly_rules (post o) = anomaly_rules w
     /\ anomalies (post o) = anomalies w ++ persisted (trace o)
     /\ Forall (fun a => Anomaly.JobID a = JobData.JobID job)
          (persisted (trace o)))
  /\ (let o := DetectAnomaliesForAllJobs w in
      jobs (post o) = jobs w
      /\ anomaly_rules (post o) = anomaly_rules w
      /\ anomalies (post o) = anomalies w ++ persisted (trace o)).
Proof.
  split.
  - intros job o. subst o.
    destruct (orderly_DetectAnomalies job w) as (Hj & Hr & Ha & _).
    repeat split; try assumption.
    apply persisted_of_emitted; [intros a id H; exact H|].
    eapply Forall_impl; [|apply emitted_built_for].
    cbn beta. intros a (t & _ & Hjob & _). exact Hjob.
  - cbv zeta.
    destruct (orderly_DetectAnomaliesForAllJobs w) as (Hj & Hr & Ha & _).
    auto.
Qed.

(** ** A run in which nothing fails *)

(** The findings a record owes in a given state of the tables: those of the
    null-value check and, when the statistics can be had, those of the two
    deviation checks and of the rules, newest rule first. *)
Definition due_findings (job : JobData.t) (w : World) : list (Z -> Anomaly.t) :=
  match select_statistics (jobs w) with
  | Err _ => null_due job
  | Ok stats =>
      null_due job ++ salary_due job stats ++ rating_due job stats
        ++ rules_due job (order_by_desc AnomalyRule.CreatedAt (anomaly_rules w))
  end.

(** [s] is [a] as the database stored it: with an id. *)
Definition stored_as (a s : Anomaly.t) : Prop :=
  exists id : Z, s = Anomaly.with_ID a (FormatInt id).

Lemma all_saved (t : list event) :
  (forall a r, In (EvInsertAnomaly a r) t -> is_ok r = true) ->
  Forall2 stored_as (emitted t) (persisted t).
Proof.
  induction t as [|e t IH]; intros H; [constructor|].
  assert (Ht : forall a r, In (EvInsertAnomaly a r) t -> is_ok r = true)
    by (intros a r Hin; apply (H a r); right; exact Hin).
  destruct e as [| a [id|err] | | | | |]; cbn [emitted persisted]; auto.
  - constructor; [exists id; reflexivity | auto].
  - specialize (H a (Err err) (or_introl eq_refl)). discriminate.
Qed.

Lemma in_emitted (a : Anomaly.t) (r : result Z) (t : list event) :
  In (EvInsertAnomaly a r) t -> In a (emitted t).
Proof.
  induction t as [|e t IH]; [intros []|].
  intros [->|Hin]; [left; reflexivity|].
  destruct e; cbn [emitted]; auto. right. auto.
Qed.

Lemma healthy_emitted (job : JobData.t) (w : World) :
  faults w = [] ->
  let o := DetectAnomalies job w in
  emitted (trace o) = stamp_from (clock w) (due_findings job w)
  /\ val o = match select_statistics (jobs w) with
             | Ok _ => Ok (persisted (trace o))
             | Err e => Err (Errorf "error getting statistics"
                               (Errorf "error getting statistics" e))
             end.
Proof.
  intros Hf o. subst o.
  destruct (orderly_DetectAnomalies job w) as (_ & _ & _ & Hq).
  destruct (Hq Hf) as [_ Hall]. rewrite Forall_forall in Hall.
  unfold due_findings.
  destruct (DetectAnomalies_runs job w)
    as [e Hs _ _ He Hv _ | stats f e _ _ Hr Hof _ _ _
        | stats f rules _ Hsel Hr Hof He Hv _].
  - assert (Hin : In (EvStatistics (Err e)) (trace (DetectAnomalies job w)))
      by (apply in_statistics_answers; rewrite Hs; left; reflexivity).
    apply Hall in Hin. cbn in Hin. rewrite <- Hin. split; assumption.
  - exfalso.
    assert (Hin : In (EvSelectRules
                        (open_rows f (order_by_desc AnomalyRule.CreatedAt
                                        (anomaly_rules w))))
                     (trace (DetectAnomalies job w)))
      by (apply in_rules_answers; rewrite Hr; left; reflexivity).
    apply Hall in Hin. cbn [answered_by] in Hin. rewrite Hin in Hof.
    discriminate.
  - assert (Hin : In (EvSelectRules
                        (open_rows f (order_by_desc AnomalyRule.CreatedAt
                                        (anomaly_rules w))))
                     (trace (DetectAnomalies job w)))
      by (apply in_rules_answers; rewrite Hr; left; reflexivity).
    apply Hall in Hin. cbn [answered_by] in Hin. rewrite Hin in Hof.
    cbn in Hof. inversion Hof; subst rules.
    rewrite Hsel. split; assumption.
Qed.

Lemma healthy_saved (job : JobData.t) (w : World) :
  faults w = [] ->
  job_exists (JobData.JobID job) (jobs w) = true ->
  let o := DetectAnomalies job w in
  Forall2 stored_as (emitted (trace o)) (persisted (trace o)).
Proof.
  intros Hf Hex o. subst o. apply all_saved. intros a r Hin.
  destruct (orderly_DetectAnomalies job w) as (_ & _ & _ & Hq).
  destruct (Hq Hf) as [_ Hall]. rewrite Forall_forall in Hall.
  pose proof (Hall _ Hin) as Hr. cbn [answered_by] in Hr. rewrite Hr.
  pose proof (emitted_built_for job w) as Hb. rewrite Forall_forall in Hb.
  destruct (Hb a (in_emitted _ _ _ Hin)) as (t & _ & -> & _). exact Hex.
Qed.

Lemma none_saved (t : list event) :
  (forall a r, In (EvInsertAnomaly a r) t -> is_ok r = false) ->
  persisted t = [].
Proof.
  induction t as [|e t IH]; intros H; [reflexivity|].
  assert (Ht : forall a r, In (EvInsertAnomaly a r) t -> is_ok r = false)
    by (intros a r Hin; apply (H a r); right; exact Hin).
  destruct e as [| a [id|err] | | | | |]; cbn [persisted]; auto.
  specialize (H a (Ok id) (or_introl eq_refl)). discriminate.
Qed.

(** X4.  What [DetectAnomalies] does when no database call fails and the
    record is in [jobs]: it emits exactly the findings the record owes in
    the current state of the tables, in the order null values, salary
    deviation, rating deviation, rules (newest first), each stamped with the
    next reading of the clock; every one of them is stored, with an id.  It
    returns the stored findings, unless fewer than two rows qualify for the
    statistics: then the null-value finding is stored all the same but the
    call returns the statistics error. *)
Theorem healthy_detection_stores_every_due_finding (job : JobData.t) (w : World) :
  faults w = [] ->
  job_exists (JobData.JobID job) (jobs w) = true ->
  let o := DetectAnomalies job w in
  emitted (trace o) = stamp_from (clock w) (due_findings job w)
  /\ Forall2 stored_as (emitted (trace o)) (persisted (trace o))
  /\ anomalies (post o) = anomalies w ++ persisted (trace o)
  /\ val o = match select_statistics (jobs w) with
             | Ok _ => Ok (persisted (trace o))
             | Err e => Err (Errorf "error getting statistics"
                               (Errorf "error getting statistics" e))
             end
  /\ faults (post o) = [].
Proof.
  intros Hf Hex o. subst o.
  destruct (healthy_emitted job w Hf) as [He Hv].
  destruct (orderly_DetectAnomalies job w) as (_ & _ & Ha & Hq).
  repeat split; try assumption.
  - apply healthy_saved; assumption.
  - apply (Hq Hf).
Qed.

(** X5.  [DetectAnomalies] does not look at the findings already stored:
    called a second time for the same record, with nothing changed in
    between, it emits the same findings again (with later timestamps) and
    stores them again, so the table grows by twice what the record owes. *)
Theorem repeated_detection_stores_findings_again (job : JobData.t) (w : World) :
  faults w = [] ->
  job_exists (JobData.JobID job) (jobs w) = true ->
  let o1 := DetectAnomalies job w in
  let o2 := DetectAnomalies job (post o1) in
  emitted (trace o2) = stamp_from (clock (post o1)) (due_findings job w)
  /\ List.length (anomalies (post o2))
     = (List.length (anomalies w) + 2 * List.length (due_findings job w))%nat.
Proof.
  intros Hf Hex o1 o2. subst o1 o2.
  destruct (orderly_DetectAnomalies job w) as (Hj & Hr & Ha & Hq).
  destruct (Hq Hf) as [Hf' _].
  destruct (healthy_emitted job w Hf) as [He _].
  pose proof (healthy_saved job w Hf Hex) as Hs. cbv zeta in Hs.
  apply Forall2_length in Hs.
  assert (Hex' : job_exists (JobData.JobID job)
                   (jobs (post (DetectAnomalies job w))) = true)
    by (rewrite Hj; exact Hex).
  destruct (healthy_emitted job (post (DetectAnomalies job w)) Hf') as [He' _].
  pose proof (healthy_saved job (post (DetectAnomalies job w)) Hf' Hex') as Hs'.
  cbv zeta in Hs'. apply Forall2_length in Hs'.
  destruct (orderly_DetectAnomalies job (post (DetectAnomalies job w)))
    as (_ & _ & Ha' & _).
  assert (Hdue : due_findings job (post (DetectAnomalies job w))
                 = due_findings job w)
    by (unfold due_findings; rewrite Hj, Hr; reflexivity).
  rewrite Hdue in He'. split; [exact He'|].
  rewrite Ha', Ha, !length_app, <- Hs', <- Hs, He', He, !stamp_from_length.
  lia.
Qed.

(** X6.  Detection of a posting that is not in [jobs].  Every finding
    refers to its posting and the table requires the posting to exist, so
    when nothing else fails every insert is refused: the findings are
    detected and their errors printed, but none is stored, and when the
    statistics can be had the call returns the empty list and no error, as
    for a posting without anomaly. *)
Theorem findings_of_an_unsaved_posting_are_dropped (job : JobData.t) (w : World) :
  faults w = [] ->
  job_exists (JobData.JobID job) (jobs w) = false ->
  let o := DetectAnomalies job w in
  emitted (trace o) = stamp_from (clock w) (due_findings job w)
  /\ persisted (trace o) = []
  /\ anomalies (post o) = anomalies w
  /\ (is_ok (select_statistics (jobs w)) = true -> val o = Ok []).
Proof.
  intros Hf Hex o. subst o.
  destruct (healthy_emitted job w Hf) as [He Hv].
  destruct (orderly_DetectAnomalies job w) as (_ & _ & Ha & Hq).
  destruct (Hq Hf) as [_ Hall]. rewrite Forall_forall in Hall.
  assert (Hnone : persisted (trace (DetectAnomalies job w)) = []).
  { apply none_saved. intros a r Hin.
    pose proof (Hall _ Hin) as Hr. cbn [answered_by] in Hr. rewrite Hr.
    pose proof (emitted_built_for job w) as Hb. rewrite Forall_forall in Hb.
    destruct (Hb a (in_emitted _ _ _ Hin)) as (t & _ & -> & _). exact Hex. }
  split; [exact He|]. split; [exact Hnone|]. split.
  - rewrite Ha, Hnone. apply app_nil_r.
  - intros Hok. rewrite Hv, Hnone.
    destruct (select_statistics (jobs w)); [reflexivity | discriminate].
Qed.

(** ** The batch run and the columns it does not select *)

(** The required fields that the SELECT of [DetectAnomaliesForAllJobs]
    leaves out. *)
Definition never_selected : list string :=
  ["job_description"; "city"; "company_address"; "company_website"; "job_link"].

Definition blank (job : JobData.t) : Prop :=
  JobData.JobDescription job = "" /\ JobData.City job = ""
  /\ JobData.CompanyAddress job = "" /\ JobData.CompanyWebsite job = ""
  /\ JobData.JobLink job = "".

Lemma scan_job_blank (row : JobsRow.t) (job : JobData.t) :
  scan_job row = Ok job ->
  blank job /\ JobData.JobID job = JobsRow.job_id row.
Proof.
  unfold scan_job. destruct (JobsRow.company_rating row); [|discriminate].
  intros H. inversion H. repeat split.
Qed.

Lemma records_of_blank (rows : list JobsRow.t) :
  forallb scannable rows = true ->
  Forall blank (records_of rows)
  /\ map JobData.JobID (records_of rows) = map JobsRow.job_id rows.
Proof.
  induction rows as [|row rest IH]; [split; [constructor|reflexivity]|].
  cbn [forallb]. unfold scannable at 1. intros H.
  apply andb_true_iff in H. destruct H as [Hrow Hrest].
  destruct (IH Hrest) as [IHb IHid].
  cbn [records_of flat_map map]. fold (records_of rest).
  destruct (scan_job row) as [job|e] eqn:Hscan; [|discriminate].
  destruct (scan_job_blank row Hscan) as [Hb Hid].
  cbn [app map]. rewrite IHid, Hid. split; [constructor; assumption|reflexivity].
Qed.

Lemma blank_missing_fields (job : JobData.t) :
  blank job ->
  exists first : list string, missing_fields job = first ++ never_selected.
Proof.
  intros (Hd & Hc & Ha & Hw & Hl).
  unfold missing_fields, required_fields. cbn [filter map fst snd].
  rewrite Hd, Hc, Ha, Hw, Hl. cbn [String.eqb Ascii.eqb].
  destruct (String.eqb (JobData.CompanyName job) "");
    destruct (String.eqb (JobData.JobTitle job) ""); cbn [map fst].
  - exists ["company_name"; "job_title"]. reflexivity.
  - exists ["company_name"]. reflexivity.
  - exists ["job_title"]. reflexivity.
  - exists []. reflexivity.
Qed.

(** The null-value findings of a run are those of its first phase. *)
Lemma null_findings_of_run (job : JobData.t) (w : World) :
  filter (of_type AnomalyTypeNullValues)
    (emitted (trace (DetectAnomalies job w)))
  = filter (of_type AnomalyTypeNullValues)
      (stamp_from (clock w) (null_due job)).
Proof.
  destruct (DetectAnomalies_runs job w)
    as [e _ _ _ He _ _ | stats f e _ _ _ _ He _ _ | stats f rules _ _ _ _ He _ _];
    rewrite He.
  - reflexivity.
  - rewrite stamp_from_app, filter_app.
    pose proof (later_phases_not_null job stats []) as Hlater.
    cbn [rules_due flat_map] in Hlater. rewrite app_nil_r in Hlater.
    rewrite Hlater. apply app_nil_r.
  - rewrite stamp_from_app, filter_app, later_phases_not_null.
    apply app_nil_r.
Qed.

Lemma null_findings_of_blank (job : JobData.t) (w : World) :
  blank job ->
  exists a : Anomaly.t,
    filter (of_type AnomalyTypeNullValues)
      (emitted (trace (DetectAnomalies job w))) = [a]
    /\ Anomaly.JobID a = JobData.JobID job
    /\ incl never_selected (Anomaly.Violations a).
Proof.
  intros Hb. rewrite null_findings_of_run, null_due_filtered.
  destruct (blank_missing_fields Hb) as [first Hm]. rewrite Hm.
  destruct (first ++ never_selected) as [|field fields] eqn:Hl.
  - destruct first; discriminate.
  - eexists. split; [reflexivity|]. split; [reflexivity|].
    cbn [Anomaly.Violations]. rewrite <- Hl. apply incl_appr, incl_refl.
Qed.

Lemma null_findings_of_invocations (records : list JobData.t) :
  Forall blank records ->
  forall w,
    let found :=
      filter (of_type AnomalyTypeNullValues)
        (emitted (flat_map (fun run => trace (snd run) ++ failure_line run)
                    (invocations records w))) in
    map Anomaly.JobID found = map JobData.JobID records
    /\ Forall (fun a => incl never_selected (Anomaly.Violations a)) found.
Proof.
  induction 1 as [|job rest Hb Hrest IH]; intros w; cbv zeta.
  - split; [reflexivity|constructor].
  - cbn [invocations flat_map snd].
    rewrite !emitted_app, !filter_app.
    destruct (null_findings_of_blank w Hb) as (a & -> & Hid & Hv).
    assert (Hline : emitted (failure_line (job, DetectAnomalies job w)) = []).
    { unfold failure_line. cbn [fst snd].
      destruct (val (DetectAnomalies job w)); reflexivity. }
    rewrite Hline. cbn [filter app map].
    destruct (IH (post (DetectAnomalies job w))) as [IHid IHv].
    rewrite IHid, Hid. split; [reflexivity|].
    constructor; assumption.
Qed.

(** The run of a batch that returns no error. *)
Lemma batch_run (w : World) :
  val (DetectAnomaliesForAllJobs w) = None ->
  forallb scannable (jobs w) = true
  /\ trace (DetectAnomaliesForAllJobs w)
     = EvSelectJobs (Ok (mkRows (jobs w) None))
         :: flat_map (fun run => trace (snd run) ++ failure_line run)
              (invocations (records_of (jobs w)) (post (take_fault w))).
Proof.
  unfold DetectAnomaliesForAllJobs.
  rewrite val_bind, trace_bind, db_Query_jobs_run. cbv zeta. cbn [val post trace].
  destruct (hd Healthy (faults w)) as [| |n]; cbn [open_rows].
  - cbn [delivered rows_Err]. rewrite val_bind, trace_bind. cbv beta.
    pose proof (detect_each_fails_iff (jobs w) (post (take_fault w))) as Hiff.
    destruct (val (detect_each (jobs w) (post (take_fault w)))) as [e|] eqn:Hv;
      cbn [val ret trace]; [discriminate|].
    intros _. assert (Hall : forallb scannable (jobs w) = true)
      by (apply Hiff; reflexivity).
    split; [exact Hall|].
    rewrite (detect_each_run (jobs w) Hall). cbn [app]. rewrite app_nil_r.
    reflexivity.
  - cbn [val ret]. discriminate.
  - cbn [delivered rows_Err]. rewrite val_bind. cbv beta.
    destruct (val (detect_each _ _)); cbn [val ret]; discriminate.
Qed.

(** X7.  The batch run builds each record from the six columns its SELECT
    names; job_description, city, company_address, company_website and
    job_link are not among them and stay empty in the record.  So whenever
    [DetectAnomaliesForAllJobs] returns without error it has emitted exactly
    one null-value finding for each row of [jobs], in the order of the rows,
    and each of these findings lists those five fields, whatever the table
    holds for them. *)
Theorem batch_flags_every_posting (w : World) :
  val (DetectAnomaliesForAllJobs w) = None ->
  let found :=
    filter (of_type AnomalyTypeNullValues)
      (emitted (trace (DetectAnomaliesForAllJobs w))) in
  map Anomaly.JobID found = map JobsRow.job_id (jobs w)
  /\ Forall (fun a => incl never_selected (Anomaly.Violations a)) found.
Proof.
  intros Hv. destruct (batch_run w Hv) as [Hall ->].
  destruct (records_of_blank (jobs w) Hall) as [Hb Hid].
  cbn [emitted]. rewrite <- Hid.
  apply null_findings_of_invocations. exact Hb.
Qed.

(** ** Reading the findings back *)

(** A finding as [GetAnomaliesByJobID] and [GetAllAnomalies] hand it out:
    their SELECT has no [violations] column. *)
Definition as_read (row : Anomaly.t) : Anomaly.t :=
  Anomaly.mk (Anomaly.ID row) (Anomaly.Type_ row) (Anomaly.JobID row)
    (Anomaly.Description row) (Anomaly.Value row) (Anomaly.Threshold row)
    (Anomaly.Operator row) (Anomaly.CreatedAt row) [].

Definition of_job (jobID : string) (a : Anomaly.t) : bool :=
  String.eqb (Anomaly.JobID a) jobID.

Lemma scan_rows_map {A B} (f : A -> B) (rows : list A) :
  forall acc : list B,
    scan_rows (fun row => Ok (f row)) rows acc = Ok (acc ++ map f rows).
Proof.
  induction rows as [|row rest IH]; intros acc; cbn [scan_rows map].
  - rewrite app_nil_r. reflexivity.
  - rewrite IH. unfold append. rewrite <- app_assoc. reflexivity.
Qed.

Lemma GetAnomaliesByJobID_healthy (jobID : string) (w : World) :
  hd Healthy (faults w) = Healthy ->
  val (GetAnomaliesByJobID jobID w)
  = Ok (map as_read
          (order_by_desc Anomaly.CreatedAt (filter (of_job jobID) (anomalies w))))
  /\ anomalies (post (GetAnomaliesByJobID jobID w)) = anomalies w.
Proof.
  intros Hh.
  unfold GetAnomaliesByJobID, db_Query_anomalies, bind, take_fault, read_world,
    emit, ret.
  fold (of_job jobID).
  destruct (faults w) as [|f fs]; cbn in Hh; [|subst f];
    cbn [val post trace open_rows delivered rows_Err anomalies];
    unfold scan_anomaly; fold as_read;
    rewrite (scan_rows_map as_read); cbn [app val post anomalies];
    (destruct (map as_read _); split; reflexivity).
Qed.

Lemma GetAllAnomalies_healthy (w : World) :
  hd Healthy (faults w) = Healthy ->
  val (GetAllAnomalies w)
  = Ok (map as_read (order_by_desc Anomaly.CreatedAt (anomalies w))).
Proof.
  intros Hh.
  unfold GetAllAnomalies, db_Query_anomalies, bind, take_fault, read_world,
    emit, ret.
  destruct (faults w) as [|f fs]; cbn in Hh; [|subst f];
    cbn [val post trace open_rows delivered rows_Err anomalies];
    unfold scan_anomaly; fold as_read;
    rewrite (scan_rows_map as_read); reflexivity.
Qed.

Lemma as_read_sorted (l : list Anomaly.t) :
  StronglySorted (newest_first Anomaly.CreatedAt) l ->
  StronglySorted (newest_first Anomaly.CreatedAt) (map as_read l).
Proof.
  induction 1 as [|a l Hs IH Hall]; cbn [map]; constructor; [exact IH|].
  apply Forall_map. exact Hall.
Qed.

(** X8.  When its query runs, [GetAnomaliesByJobID] returns every stored
    finding of the record and no other, newest first, and leaves the table
    as it is.  What it returns is not quite what was stored: the query does
    not select [violations], so a finding read back names no field, and a
    null-value finding no longer tells which fields were empty. *)
Theorem lookup_returns_the_findings_of_the_record (jobID : string) (w : World) :
  hd Healthy (faults w) = Healthy ->
  exists found : list Anomaly.t,
    val (GetAnomaliesByJobID jobID w) = Ok found
    /\ Permutation found (map as_read (filter (of_job jobID) (anomalies w)))
    /\ StronglySorted
         (fun newer_or_same older : Anomaly.t =>
            Anomaly.CreatedAt older <= Anomaly.CreatedAt newer_or_same)
         found
    /\ Forall (fun a => Anomaly.JobID a = jobID /\ Anomaly.Violations a = [])
         found
    /\ anomalies (post (GetAnomaliesByJobID jobID w)) = anomalies w.
Proof.
  intros Hh. destruct (GetAnomaliesByJobID_healthy jobID w Hh) as [Hv Ha].
  eexists. split; [exact Hv|]. split; [|split; [|split; [|exact Ha]]].
  - apply Permutation_map. apply order_by_desc_perm.
  - apply as_read_sorted. apply (order_by_desc_sorted Anomaly.CreatedAt).
  - apply Forall_map. apply Forall_forall. intros a Hin. cbn.
    split; [|reflexivity].
    apply (Permutation_in _ (order_by_desc_perm Anomaly.CreatedAt _)) in Hin.
    apply filter_In in Hin. destruct Hin as [_ Hj].
    apply String.eqb_eq. exact Hj.
Qed.

(** [ORDER BY ... DESC] and [WHERE] can be exchanged: the sort is stable. *)
Lemma insert_desc_first {A} (key : A -> Z) (x : A) (l : list A) :
  Forall (fun y => key y <= key x) l -> insert_desc key x l = x :: l.
Proof.
  intros H. destruct H as [|y l Hy _]; cbn [insert_desc]; [reflexivity|].
  destruct (Z.leb_spec (key y) (key x)); [reflexivity | lia].
Qed.

Lemma filter_insert_desc {A} (key : A -> Z) (keep : A -> bool) (x : A)
    (l : list A) :
  StronglySorted (newest_first key) l ->
  filter keep (insert_desc key x l)
  = if keep x then insert_desc key x (filter keep l) else filter keep l.
Proof.
  induction 1 as [|y l Hs IH Hall]; cbn [insert_desc filter].
  - destruct (keep x); reflexivity.
  - destruct (Z.leb_spec (key y) (key x)) as [Hle|Hlt]; cbn [filter].
    + destruct (keep x); [|reflexivity].
      rewrite insert_desc_first; [reflexivity|].
      assert (Hbelow : Forall (fun z => key z <= key x) (y :: l)).
      { constructor; [exact Hle|]. eapply Forall_impl; [|exact Hall].
        unfold newest_first. intros z Hz. lia. }
      apply Forall_forall. intros z Hz.
      rewrite Forall_forall in Hbelow. apply Hbelow.
      change (In z (filter keep (y :: l))) in Hz.
      apply filter_In in Hz. apply Hz.
    + rewrite IH. destruct (keep y), (keep x); cbn [insert_desc]; try reflexivity.
      destruct (Z.leb_spec (key y) (key x)); [lia | reflexivity].
Qed.

Lemma filter_order_by_desc {A} (key : A -> Z) (keep : A -> bool) (l : list A) :
  filter keep (order_by_desc key l) = order_by_desc key (filter keep l).
Proof.
  induction l as [|x l IH]; [reflexivity|].
  cbn [order_by_desc fold_right filter]. fold (order_by_desc key l).
  rewrite filter_insert_desc by apply order_by_desc_sorted.
  rewrite IH. destruct (keep x); reflexivity.
Qed.

(** Rows with pairwise distinct timestamps leave [ORDER BY created_at DESC]
    no choice: two newest-first arrangements of the same rows are equal. *)
Lemma sorted_arrangement {A} (key : A -> Z) (l : list A) :
  forall l' : list A,
    NoDup (map key l) -> Permutation l l' ->
    StronglySorted (newest_first key) l ->
    StronglySorted (newest_first key) l' ->
    l = l'.
Proof.
  induction l as [|x l IH]; intros l' Hnd Hp Hs Hs'.
  - apply Permutation_nil in Hp. subst l'. reflexivity.
  - destruct l' as [|y l'].
    + symmetry in Hp. apply Permutation_nil in Hp. discriminate.
    + inversion Hs as [|? ? Hsl Hx]; subst.
      inversion Hs' as [|? ? Hsl' Hy]; subst.
      cbn [map] in Hnd. inversion Hnd as [|? ? Hfresh Hnd']; subst.
      assert (Hxy : x = y).
      { assert (Hin : In x (y :: l'))
          by (apply (Permutation_in _ Hp); left; reflexivity).
        assert (Hin' : In y (x :: l))
          by (apply (Permutation_in _ (Permutation_sym Hp)); left; reflexivity).
        destruct Hin as [Heq|Hin]; [symmetry; exact Heq|].
        destruct Hin' as [Heq|Hin']; [exact Heq|].
        rewrite Forall_forall in Hx, Hy.
        pose proof (Hx y Hin') as H1. pose proof (Hy x Hin) as H2.
        unfold newest_first in H1, H2.
        exfalso. apply Hfresh. replace (key x) with (key y) by lia.
        apply in_map. exact Hin'. }
      subst y. f_equal. apply IH; try assumption.
      apply (Permutation_cons_inv Hp).
Qed.

Lemma order_by_desc_arrangement {A} (key : A -> Z) (t t' : list A) :
  NoDup (map key t) -> Permutation t t' ->
  order_by_desc key t = order_by_desc key t'.
Proof.
  intros Hnd Hp. apply (@sorted_arrangement A key).
  - apply (Permutation_NoDup (l := map key t)); [|exact Hnd].
    apply Permutation_map. symmetry. apply order_by_desc_perm.
  - rewrite !order_by_desc_perm. exact Hp.
  - apply order_by_desc_sorted.
  - apply order_by_desc_sorted.
Qed.

Lemma filter_as_read (jobID : string) (l : list Anomaly.t) :
  filter (of_job jobID) (map as_read l) = map as_read (filter (of_job jobID) l).
Proof.
  induction l as [|a l IH]; [reflexivity|].
  cbn [filter map].
  replace (of_job jobID (as_read a)) with (of_job jobID a) by reflexivity.
  destruct (of_job jobID a); cbn [map]; rewrite IH; reflexivity.
Qed.

Lemma filter_sorted {A} (key : A -> Z) (keep : A -> bool) (l : list A) :
  StronglySorted (newest_first key) l ->
  StronglySorted (newest_first key) (filter keep l).
Proof.
  induction 1 as [|x l Hs IH Hall]; cbn [filter]; [constructor|].
  destruct (keep x); [|exact IH]. constructor; [exact IH|].
  apply Forall_forall. intros y Hy. apply filter_In in Hy.
  rewrite Forall_forall in Hall. apply Hall. apply Hy.
Qed.

Lemma filter_permutation {A} (keep : A -> bool) (l l' : list A) :
  Permutation l l' -> Permutation (filter keep l) (filter keep l').
Proof.
  induction 1 as [|x l l' Hp IH|x y l|l l' l'' H1 IH1 H2 IH2]; cbn [filter].
  - constructor.
  - destruct (keep x); [constructor|]; exact IH.
  - destruct (keep x), (keep y); try reflexivity. constructor.
  - etransitivity; eassumption.
Qed.

(** X9.  The two read methods agree: when their queries run, the findings
    [GetAnomaliesByJobID] returns for a record are those [GetAllAnomalies]
    returns that belong to the record.  Both lists are newest first; where
    the stored findings of the record carry pairwise distinct timestamps
    that fixes the order, and the lookup is the full listing restricted to
    the record, in the same order.  (Among findings of equal timestamp
    [ORDER BY created_at DESC] promises no order, and none is claimed.) *)
Theorem lookup_is_the_full_listing_restricted_to_the_record
    (jobID : string) (w : World) :
  hd Healthy (faults w) = Healthy ->
  exists every found : list Anomaly.t,
    val (GetAllAnomalies w) = Ok every
    /\ val (GetAnomaliesByJobID jobID w) = Ok found
    /\ Permutation found (filter (of_job jobID) every)
    /\ StronglySorted (newest_first Anomaly.CreatedAt) found
    /\ StronglySorted (newest_first Anomaly.CreatedAt)
         (filter (of_job jobID) every)
    /\ (NoDup (map Anomaly.CreatedAt (filter (of_job jobID) (anomalies w))) ->
        found = filter (of_job jobID) every).
Proof.
  intros Hh.
  destruct (GetAnomaliesByJobID_healthy jobID w Hh) as [Hv _].
  exists (map as_read (order_by_desc Anomaly.CreatedAt (anomalies w))),
    (map as_read
       (order_by_desc Anomaly.CreatedAt (filter (of_job jobID) (anomalies w)))).
  split; [apply GetAllAnomalies_healthy; exact Hh|]. split; [exact Hv|].
  assert (Hp : Permutation
                 (map as_read
                    (order_by_desc Anomaly.CreatedAt
                       (filter (of_job jobID) (anomalies w))))
                 (filter (of_job jobID)
                    (map as_read (order_by_desc Anomaly.CreatedAt (anomalies w))))).
  { rewrite filter_as_read. apply Permutation_map.
    rewrite order_by_desc_perm. apply filter_permutation.
    symmetry. apply order_by_desc_perm. }
  assert (Hs : StronglySorted (newest_first Anomaly.CreatedAt)
                 (map as_read
                    (order_by_desc Anomaly.CreatedAt
                       (filter (of_job jobID) (anomalies w)))))
    by (apply as_read_sorted; apply (order_by_desc_sorted Anomaly.CreatedAt)).
  assert (Hs' : StronglySorted (newest_first Anomaly.CreatedAt)
                  (filter (of_job jobID)
                     (map as_read (order_by_desc Anomaly.CreatedAt (anomalies w)))))
    by (apply filter_sorted; apply as_read_sorted;
        apply (order_by_desc_sorted Anomaly.CreatedAt)).
  split; [exact Hp|]. split; [exact Hs|]. split; [exact Hs'|].
  intros Hnd. apply (sorted_arrangement (key := Anomaly.CreatedAt)); auto.
  rewrite map_map. cbn [as_read Anomaly.CreatedAt].
  apply (Permutation_NoDup (l := map Anomaly.CreatedAt
                                   (filter (of_job jobID) (anomalies w))));
    [|exact Hnd].
  apply Permutation_map. symmetry. apply order_by_desc_perm.
Qed.

(** Rows stamped in increasing order come back in reverse. *)
Lemma insert_desc_last {A} (key : A -> Z) (x : A) (l : list A) :
  Forall (fun y => key x < key y) l -> insert_desc key x l = l ++ [x].
Proof.
  induction 1 as [|y l Hy Hall IH]; cbn [insert_desc app]; [reflexivity|].
  destruct (Z.leb_spec (key y) (key x)); [lia|]. rewrite IH. reflexivity.
Qed.

Lemma order_by_desc_increasing {A} (key : A -> Z) (l : list A) :
  StronglySorted (fun a b => key a < key b) l -> order_by_desc key l = rev l.
Proof.
  induction 1 as [|x l Hs IH Hall]; [reflexivity|].
  cbn [order_by_desc fold_right rev]. fold (order_by_desc key l). rewrite IH.
  apply insert_desc_last. apply Forall_forall. intros y Hy.
  apply in_rev in Hy. rewrite Forall_forall in Hall. apply Hall. exact Hy.
Qed.

Lemma stamp_from_increasing (job : JobData.t) (due : list (Z -> Anomaly.t)) :
  (forall build t, In build due -> built_for job t (build t)) ->
  forall now,
    StronglySorted (fun a b => Anomaly.CreatedAt a < Anomaly.CreatedAt b)
      (stamp_from now due)
    /\ Forall (fun a => now <= Anomaly.CreatedAt a) (stamp_from now due).
Proof.
  induction due as [|b due IH]; intros Hb now; cbn [stamp_from].
  - split; constructor.
  - assert (Hrest : forall build t, In build due -> built_for job t (build t))
      by (intros build t Hin; apply Hb; right; exact Hin).
    destruct (IH Hrest (now + 1)) as [Hs Hall].
    destruct (Hb b now (or_introl eq_refl)) as (_ & _ & Hnow & _).
    split; constructor; try assumption; try lia.
    + eapply Forall_impl; [|exact Hall]. cbn beta. intros a Ha. lia.
    + eapply Forall_impl; [|exact Hall]. cbn beta. intros a Ha. lia.
Qed.

Lemma stored_as_increasing (found stored : list Anomaly.t) :
  Forall2 stored_as found stored ->
  StronglySorted (fun a b => Anomaly.CreatedAt a < Anomaly.CreatedAt b) found ->
  StronglySorted (fun a b => Anomaly.CreatedAt a < Anomaly.CreatedAt b) stored.
Proof.
  induction 1 as [|a s found stored [id ->] Hrest IH]; intros Hs; [constructor|].
  inversion Hs as [|? ? Hs' Hall]; subst. constructor; [auto|].
  clear - Hrest Hall. induction Hrest as [|b s found stored [id' ->] Hrest IH].
  - constructor.
  - inversion Hall; subst. constructor; [assumption | auto].
Qed.

(** X10.  Detection followed by a lookup.  After a run of [DetectAnomalies]
    in which nothing fails, for a record that is in [jobs] and had no
    finding stored, [GetAnomaliesByJobID] returns exactly the findings the
    run stored, in the reverse of the order in which they were detected (the
    last rule that matched comes first), each without its violations. *)
Theorem lookup_after_detection_returns_its_findings_reversed
    (job : JobData.t) (w : World) :
  faults w = [] ->
  job_exists (JobData.JobID job) (jobs w) = true ->
  filter (of_job (JobData.JobID job)) (anomalies w) = [] ->
  let o := DetectAnomalies job w in
  val (GetAnomaliesByJobID (JobData.JobID job) (post o))
  = Ok (rev (map as_read (persisted (trace o)))).
Proof.
  intros Hf Hex Hnone o. subst o.
  destruct (orderly_DetectAnomalies job w) as (_ & _ & Ha & Hq).
  destruct (Hq Hf) as [Hf' _].
  assert (Hh : hd Healthy (faults (post (DetectAnomalies job w))) = Healthy)
    by (rewrite Hf'; reflexivity).
  destruct (GetAnomaliesByJobID_healthy (JobData.JobID job) _ Hh) as [-> _].
  rewrite Ha, filter_app, Hnone. cbn [app]. f_equal.
  assert (Hall : Forall (fun a => Anomaly.JobID a = JobData.JobID job)
                   (persisted (trace (DetectAnomalies job w)))).
  { apply persisted_of_emitted; [intros a id H; exact H|].
    eapply Forall_impl; [|apply emitted_built_for].
    cbn beta. intros a (t & _ & Hjob & _). exact Hjob. }
  assert (Hkeep : filter (of_job (JobData.JobID job))
                    (persisted (trace (DetectAnomalies job w)))
                  = persisted (trace (DetectAnomalies job w))).
  { apply forallb_filter_id. apply forallb_forall. intros a Hin.
    rewrite Forall_forall in Hall. unfold of_job. rewrite (Hall a Hin).
    apply String.eqb_refl. }
  rewrite Hkeep, <- map_rev. f_equal.
  apply order_by_desc_increasing.
  apply (stored_as_increasing (healthy_saved job w Hf Hex)).
  destruct (emitted_due job w) as (stats & rules & due & -> & Hincl).
  assert (Hb : forall build t, In build due -> built_for job t (build t)).
  { intros build t Hin.
    apply (due_built_for job stats rules). apply Hincl. exact Hin. }
  apply (proj1 (@stamp_from_increasing job due Hb (clock w))).
Qed.

(** ** The rule service: what a change of the rules does to detection *)

Lemma count_affected_zero {A} (hit : A -> bool) (rows : list A) :
  (count_affected hit rows =? 0) = negb (existsb hit rows).
Proof.
  unfold count_affected.
  induction rows as [|row rest IH]; [reflexivity|].
  cbn [filter existsb]. destruct (hit row); [|exact IH].
  cbn [List.length orb negb]. apply Z.eqb_neq. lia.
Qed.

Lemma existsb_has_id (id : Z) (rows : list AnomalyRule.t) :
  existsb (has_id id) rows = true <-> In id (map AnomalyRule.ID rows).
Proof.
  rewrite existsb_exists, in_map_iff. unfold has_id.
  split; intros (r & H1 & H2); exists r.
  - apply Z.eqb_eq in H2. auto.
  - split; [exact H2 | apply Z.eqb_eq; exact H1].
Qed.

Lemma insert_desc_map {A} (key : A -> Z) (f : A -> A) (x : A) (l : list A) :
  (forall y, key (f y) = key y) ->
  insert_desc key (f x) (map f l) = map f (insert_desc key x l).
Proof.
  intros Hkey. induction l as [|y l IH]; [reflexivity|].
  cbn [map insert_desc]. rewrite !Hkey.
  destruct (key y <=? key x); [reflexivity|]. rewrite IH. reflexivity.
Qed.

Lemma order_by_desc_map {A} (key : A -> Z) (f : A -> A) (l : list A) :
  (forall y, key (f y) = key y) ->
  order_by_desc key (map f l) = map f (order_by_desc key l).
Proof.
  intros Hkey. induction l as [|x l IH]; [reflexivity|].
  cbn [map order_by_desc fold_right]. fold (order_by_desc key (map f l)).
  fold (order_by_desc key l). rewrite IH. apply insert_desc_map. exact Hkey.
Qed.

Lemma flat_map_filter {A B} (f : A -> list B) (keep : A -> bool) (l : list A) :
  flat_map f (filter keep l)
  = flat_map (fun x => if keep x then f x else []) l.
Proof.
  induction l as [|x l IH]; [reflexivity|].
  cbn [filter flat_map]. destruct (keep x); cbn [flat_map app]; rewrite IH;
    reflexivity.
Qed.

(** What detection owes to the rules once the rule [id] is out of the way. *)
Definition without_rule (id : Z) (job : JobData.t) (rules : list AnomalyRule.t)
    : list (Z -> Anomaly.t) :=
  flat_map (fun r => if has_id id r then [] else rule_due job r) rules.

Lemma rules_due_deleted (id : Z) (job : JobData.t) (rules : list AnomalyRule.t) :
  rules_due job
    (order_by_desc AnomalyRule.CreatedAt
       (filter (fun r => negb (has_id id r)) rules))
  = without_rule id job (order_by_desc AnomalyRule.CreatedAt rules).
Proof.
  unfold rules_due, without_rule.
  rewrite <- filter_order_by_desc, flat_map_filter.
  apply flat_map_ext. intros r. destruct (has_id id r); reflexivity.
Qed.

Lemma rules_due_switched_off (id now : Z) (job : JobData.t)
    (rules : list AnomalyRule.t) :
  rules_due job
    (order_by_desc AnomalyRule.CreatedAt
       (map (fun old => if has_id id old then toggled_row false now old else old)
          rules))
  = without_rule id job (order_by_desc AnomalyRule.CreatedAt rules).
Proof.
  unfold rules_due, without_rule.
  rewrite order_by_desc_map
    by (intros r; destruct (has_id id r); reflexivity).
  rewrite flat_map_concat_map, map_map, <- flat_map_concat_map.
  apply flat_map_ext. intros r. destruct (has_id id r); reflexivity.
Qed.

Lemma ToggleAnomalyRule_healthy (id : Z) (isActive : bool) (w : World) :
  hd Healthy (faults w) = Healthy ->
  let o := ToggleAnomalyRule id isActive w in
  val o
  = (if existsb (has_id id) (anomaly_rules w) then None
     else Some (Plain ("anomaly rule with ID " ++ FormatInt id
                         ++ " not found for toggle")%string))
  /\ anomaly_rules (post o)
     = map (fun old => if has_id id old
                       then toggled_row isActive (clock w) old else old)
         (anomaly_rules w)
  /\ anomalies (post o) = anomalies w
  /\ jobs (post o) = jobs w
  /\ faults (post o) = tl (faults w).
Proof.
  intros Hh. unfold ToggleAnomalyRule, db_Exec_toggle_rule, bind, take_fault.
  destruct (faults w) as [|f fs] eqn:Hf; cbn in Hh; [|subst f];
    cbn [val post trace RowsAffected jobs anomaly_rules anomalies anomalies_seq
         rules_seq clock faults];
    rewrite count_affected_zero;
    destruct (existsb (has_id id) (anomaly_rules w));
    cbn; rewrite ?Hf; repeat split; reflexivity.
Qed.

Lemma map_unaffected {A} (hit : A -> bool) (f : A -> A) (rows : list A) :
  existsb hit rows = false ->
  map (fun old => if hit old then f old else old) rows = rows.
Proof.
  induction rows as [|row rest IH]; [reflexivity|].
  cbn [existsb map]. destruct (hit row); [discriminate|].
  intros H. rewrite IH by exact H. reflexivity.
Qed.

(** X11.  Switching a rule off.  When its statement runs,
    [ToggleAnomalyRule id false] succeeds exactly when a rule with that id
    is stored; a missing id is reported as an error and changes nothing.
    Afterwards detection owes, for every record, what it owed before minus
    the findings of that rule: the other rules keep their place in the
    order of evaluation and their findings.  No stored finding is touched. *)
Theorem a_rule_switched_off_is_silent (id : Z) (w : World) :
  hd Healthy (faults w) = Healthy ->
  let o := ToggleAnomalyRule id false w in
  (val o = None <-> In id (map AnomalyRule.ID (anomaly_rules w)))
  /\ (~ In id (map AnomalyRule.ID (anomaly_rules w)) ->
      val o = Some (Plain ("anomaly rule with ID " ++ FormatInt id
                             ++ " not found for toggle")%string)
      /\ anomaly_rules (post o) = anomaly_rules w)
  /\ (forall job : JobData.t,
        rules_due job
          (order_by_desc AnomalyRule.CreatedAt (anomaly_rules (post o)))
        = without_rule id job
            (order_by_desc AnomalyRule.CreatedAt (anomaly_rules w)))
  /\ anomalies (post o) = anomalies w.
Proof.
  intros Hh o. subst o.
  destruct (ToggleAnomalyRule_healthy id false w Hh) as (Hv & Hr & Ha & _).
  rewrite Hv, Hr, <- existsb_has_id.
  destruct (existsb (has_id id) (anomaly_rules w)) eqn:Hex.
  - split; [split; reflexivity|]. split; [intros H; exfalso; apply H; reflexivity|].
    split; [|exact Ha]. intros job. apply rules_due_switched_off.
  - split; [split; discriminate|]. split.
    + intros _. split; [reflexivity|]. apply map_unaffected. exact Hex.
    + split; [|exact Ha]. intros job. apply rules_due_switched_off.
Qed.

Lemma existsb_updated (id : Z) (f : AnomalyRule.t -> AnomalyRule.t)
    (rows : list AnomalyRule.t) :
  (forall r, AnomalyRule.ID (f r) = AnomalyRule.ID r) ->
  existsb (has_id id) (map (fun old => if has_id id old then f old else old) rows)
  = existsb (has_id id) rows.
Proof.
  intros Hid. induction rows as [|row rest IH]; [reflexivity|].
  cbn [map existsb]. rewrite IH. f_equal.
  destruct (has_id id row) eqn:H; [|exact H].
  unfold has_id in *. rewrite Hid. exact H.
Qed.

(** X25.  Switching a rule off and on again.  When nothing fails and the
    rule was active, [ToggleAnomalyRule id false] followed by
    [ToggleAnomalyRule id true] answers the same both times and leaves the
    rows of [anomaly_rules] as they were but for the update time of that
    rule.  Wherever the database keeps the rewritten row, detection then
    owes for every record the findings it owed before; and where the rules
    carry pairwise distinct creation times, so that [ORDER BY created_at
    DESC] fixes the order of evaluation, it owes them in the same order. *)
Theorem switching_off_and_on_again_restores_detection (id : Z) (w : World) :
  faults w = [] ->
  (forall r : AnomalyRule.t,
     In r (anomaly_rules w) -> has_id id r = true ->
     AnomalyRule.IsActive r = true) ->
  let off := ToggleAnomalyRule id false w in
  let on := ToggleAnomalyRule id true (post off) in
  val off = val on
  /\ Permutation (anomaly_rules (post on))
       (map (fun r => if has_id id r
                      then toggled_row (AnomalyRule.IsActive r) (clock w + 1) r
                      else r)
          (anomaly_rules w))
  /\ (forall (table : list AnomalyRule.t) (job : JobData.t),
        Permutation table (anomaly_rules (post on)) ->
        Permutation
          (rules_due job (order_by_desc AnomalyRule.CreatedAt table))
          (rules_due job (order_by_desc AnomalyRule.CreatedAt (anomaly_rules w)))
        /\ (NoDup (map AnomalyRule.CreatedAt (anomaly_rules w)) ->
            rules_due job (order_by_desc AnomalyRule.CreatedAt table)
            = rules_due job
                (order_by_desc AnomalyRule.CreatedAt (anomaly_rules w)))).
Proof.
  intros Hf Hactive off on. subst on off.
  assert (Hh : hd Healthy (faults w) = Healthy) by (rewrite Hf; reflexivity).
  destruct (ToggleAnomalyRule_healthy id false w Hh) as (Hv & Hr & _ & _ & Hf').
  cbv zeta in Hv, Hr, Hf'.
  assert (Hh' : hd Healthy (faults (post (ToggleAnomalyRule id false w)))
                = Healthy)
    by (rewrite Hf', Hf; reflexivity).
  destruct (ToggleAnomalyRule_healthy id true _ Hh') as (Hv' & Hr' & _).
  cbv zeta in Hv', Hr'.
  assert (Hclock : clock (post (ToggleAnomalyRule id false w)) = clock w + 1).
  { unfold ToggleAnomalyRule, db_Exec_toggle_rule, bind, take_fault.
    rewrite Hf.
    cbn [val post trace RowsAffected jobs anomaly_rules anomalies anomalies_seq
         rules_seq clock faults].
    rewrite count_affected_zero.
    destruct (existsb (has_id id) (anomaly_rules w)); reflexivity. }
  set (again := fun r : AnomalyRule.t =>
                  if has_id id r
                  then toggled_row (AnomalyRule.IsActive r) (clock w + 1) r
                  else r).
  assert (Hrows : anomaly_rules (post (ToggleAnomalyRule id true
                                         (post (ToggleAnomalyRule id false w))))
                  = map again (anomaly_rules w)).
  { rewrite Hr', Hr, Hclock, map_map. apply map_ext_in. intros r Hin.
    unfold again. destruct (has_id id r) eqn:Hid.
    - replace (has_id id (toggled_row false (clock w) r)) with (has_id id r)
        by reflexivity.
      rewrite Hid, (Hactive r Hin Hid). reflexivity.
    - rewrite Hid. reflexivity. }
  assert (Hkey : forall r, AnomalyRule.CreatedAt (again r) = AnomalyRule.CreatedAt r)
    by (intros r; unfold again; destruct (has_id id r); reflexivity).
  assert (Hdue : forall job r, rule_due job (again r) = rule_due job r)
    by (intros job r; unfold again; destruct (has_id id r); reflexivity).
  split; [|split].
  - rewrite Hv, Hv', Hr, existsb_updated by reflexivity. reflexivity.
  - rewrite Hrows. reflexivity.
  - intros table job Hp. rewrite Hrows in Hp.
    assert (Hsame : rules_due job (map again (anomaly_rules w))
                    = rules_due job (anomaly_rules w)).
    { unfold rules_due.
      rewrite flat_map_concat_map, map_map, <- flat_map_concat_map.
      apply flat_map_ext. intros r. apply Hdue. }
    split.
    + unfold rules_due.
      etransitivity;
        [apply Permutation_flat_map; apply order_by_desc_perm|].
      etransitivity; [apply Permutation_flat_map; exact Hp|].
      etransitivity;
        [|apply Permutation_flat_map; symmetry; apply order_by_desc_perm].
      fold (rules_due job (map again (anomaly_rules w))).
      fold (rules_due job (anomaly_rules w)).
      rewrite Hsame. reflexivity.
    + intros Hnd.
      rewrite <- (@order_by_desc_arrangement _ AnomalyRule.CreatedAt
                    (map again (anomaly_rules w)) table).
      * rewrite order_by_desc_map by exact Hkey.
        unfold rules_due.
        rewrite flat_map_concat_map, map_map, <- flat_map_concat_map.
        apply flat_map_ext. intros r. apply Hdue.
      * rewrite map_map. rewrite (map_ext _ _ Hkey). exact Hnd.
      * symmetry. exact Hp.
Qed.

Lemma DeleteAnomalyRule_healthy (id : Z) (w : World) :
  hd Healthy (faults w) = Healthy ->
  let o := DeleteAnomalyRule id w in
  val o
  = (if existsb (has_id id) (anomaly_rules w) then None
     else Some (Plain ("anomaly rule with ID " ++ FormatInt id
                         ++ " not found for deletion")%string))
  /\ anomaly_rules (post o)
     = filter (fun r => negb (has_id id r)) (anomaly_rules w)
  /\ anomalies (post o) = anomalies w
  /\ faults (post o) = tl (faults w).
Proof.
  intros Hh. unfold DeleteAnomalyRule, db_Exec_delete_rule, bind, take_fault.
  destruct (faults w) as [|f fs] eqn:Hf; cbn in Hh; [|subst f];
    cbn [val post trace RowsAffected jobs anomaly_rules anomalies anomalies_seq
         rules_seq clock faults];
    rewrite count_affected_zero;
    destruct (existsb (has_id id) (anomaly_rules w));
    cbn; rewrite ?Hf; repeat split; reflexivity.
Qed.

Lemma find_deleted (id : Z) (rows : list AnomalyRule.t) :
  find (has_id id) (filter (fun r => negb (has_id id r)) rows) = None.
Proof.
  induction rows as [|row rest IH]; [reflexivity|].
  cbn [filter]. destruct (has_id id row) eqn:H; cbn [negb find]; [exact IH|].
  rewrite H. exact IH.
Qed.

Lemma GetAnomalyRule_healthy (id : Z) (w : World) :
  hd Healthy (faults w) = Healthy ->
  val (GetAnomalyRule id w)
  = match find (has_id id) (anomaly_rules w) with
    | Some rule => Found rule
    | None =>
        Failed (Plain ("anomaly rule with ID " ++ FormatInt id ++ " not found")%string)
    end.
Proof.
  intros Hh. unfold GetAnomalyRule, db_QueryRow_select_rule, bind, take_fault,
    read_world, ret.
  destruct (faults w) as [|f fs]; cbn in Hh; [|subst f];
    cbn [val post trace anomaly_rules];
    destruct (find (has_id id) (anomaly_rules w)); reflexivity.
Qed.

(** X12.  Deleting a rule.  When its statement runs, [DeleteAnomalyRule id]
    succeeds exactly when a rule with that id is stored, and reports a
    missing id as an error.  Afterwards the rule cannot be fetched any more
    ([GetAnomalyRule] answers "not found"), and detection owes what it owed
    before minus the findings of that rule, exactly as if the rule had been
    switched off.  The findings the rule produced earlier stay in
    [anomalies]: nothing is deleted with the rule. *)
Theorem a_deleted_rule_is_gone_but_its_findings_stay (id : Z) (w : World) :
  faults w = [] ->
  let o := DeleteAnomalyRule id w in
  (val o = None <-> In id (map AnomalyRule.ID (anomaly_rules w)))
  /\ (~ In id (map AnomalyRule.ID (anomaly_rules w)) ->
      val o = Some (Plain ("anomaly rule with ID " ++ FormatInt id
                             ++ " not found for deletion")%string))
  /\ val (GetAnomalyRule id (post o))
     = Failed (Plain ("anomaly rule with ID " ++ FormatInt id ++ " not found")%string)
  /\ (forall job : JobData.t,
        rules_due job
          (order_by_desc AnomalyRule.CreatedAt (anomaly_rules (post o)))
        = without_rule id job
            (order_by_desc AnomalyRule.CreatedAt (anomaly_rules w)))
  /\ anomalies (post o) = anomalies w.
Proof.
  intros Hf o. subst o.
  assert (Hh : hd Healthy (faults w) = Healthy) by (rewrite Hf; reflexivity).
  destruct (DeleteAnomalyRule_healthy id w Hh) as (Hv & Hr & Ha & Hf').
  assert (Hh' : hd Healthy (faults (post (DeleteAnomalyRule id w))) = Healthy)
    by (rewrite Hf', Hf; reflexivity).
  rewrite (GetAnomalyRule_healthy id _ Hh'), Hv, Hr, find_deleted,
    <- existsb_has_id.
  destruct (existsb (has_id id) (anomaly_rules w)) eqn:Hex.
  - split; [split; reflexivity|]. split; [intros H; exfalso; apply H; reflexivity|].
    split; [reflexivity|]. split; [|exact Ha].
    intros job. apply rules_due_deleted.
  - split; [split; discriminate|]. split; [reflexivity|].
    split; [reflexivity|]. split; [|exact Ha].
    intros job. apply rules_due_deleted.
Qed.

End Detection_again.

(** ** The rule service: creating, fetching and updating a rule *)

(** The ids in [anomaly_rules] were drawn from its sequence. *)
Definition ids_from_sequence (w : World) : Prop :=
  Forall (fun r => AnomalyRule.ID r <= rules_seq w) (anomaly_rules w).

Lemma find_new_row (id : Z) (rows : list AnomalyRule.t) (r : AnomalyRule.t) :
  Forall (fun x => AnomalyRule.ID x < id) rows ->
  AnomalyRule.ID r = id ->
  find (has_id id) (rows ++ [r]) = Some r.
Proof.
  intros Hall Hid. induction Hall as [|x rows Hx _ IH]; cbn [app find].
  - unfold has_id. rewrite Hid, Z.eqb_refl. reflexivity.
  - unfold has_id at 1. destruct (Z.eqb_spec (AnomalyRule.ID x) id); [lia|].
    exact IH.
Qed.

Lemma CreateAnomalyRule_healthy (rule : AnomalyRule.t) (w : World) :
  hd Healthy (faults w) = Healthy ->
  name_taken (AnomalyRule.Name rule) (anomaly_rules w) = false ->
  let o := CreateAnomalyRule rule w in
  let stored :=
    AnomalyRule.mk (rules_seq w + 1) (AnomalyRule.Name rule)
      (AnomalyRule.Description rule) (AnomalyRule.Type_ rule)
      (AnomalyRule.Operator rule) (AnomalyRule.Value rule)
      (AnomalyRule.IsActive rule) (clock w) (clock w) in
  val o = (stored, None)
  /\ anomaly_rules (post o) = anomaly_rules w ++ [stored]
  /\ rules_seq (post o) = rules_seq w + 1
  /\ faults (post o) = tl (faults w).
Proof.
  intros Hh Hfree.
  unfold CreateAnomalyRule, db_QueryRow_insert_rule, bind, take_fault,
    time_Now, ret, with_rule_ID, append.
  cbn [val post trace faults anomaly_rules rules_seq clock].
  destruct (faults w) as [|f fs] eqn:Hf; cbn in Hh; [|subst f];
    cbn -[name_taken]; rewrite Hfree; cbn -[name_taken]; rewrite ?Hf;
    repeat split; reflexivity.
Qed.

Lemma GetAnomalyRules_healthy (w : World) :
  hd Healthy (faults w) = Healthy ->
  val (GetAnomalyRules w)
  = Ok (order_by_desc AnomalyRule.CreatedAt (anomaly_rules w)).
Proof.
  intros Hh.
  unfold GetAnomalyRules, db_Query_rules, bind, take_fault, read_world, emit,
    ret, scan_rule.
  destruct (faults w) as [|f fs]; cbn in Hh; [|subst f];
    cbn [val post trace open_rows delivered rows_Err anomaly_rules];
    rewrite scan_rows_total; reflexivity.
Qed.

(** The columns of a rule the caller supplies or the database hands back
    unchanged: all but the two timestamps.  A timestamp that Go holds is a
    reading of [time.Now()]; the same timestamp read back from its
    [TIMESTAMP WITH TIME ZONE] column has the precision of the column.  The
    integer clock of this model has no such difference, so nothing is
    claimed below about a timestamp that went through the database and
    is compared with the copy that did not. *)
Definition content (rule : AnomalyRule.t)
    : Z * string * string * AnomalyType * ComparisonOperator * float * bool :=
  (AnomalyRule.ID rule, AnomalyRule.Name rule, AnomalyRule.Description rule,
   AnomalyRule.Type_ rule, AnomalyRule.Operator rule, AnomalyRule.Value rule,
   AnomalyRule.IsActive rule).

(** X13.  A rule that was created can be fetched.  When nothing fails and
    the name is free, [CreateAnomalyRule] hands back the rule with the
    caller's columns and the id the database gave it, an id no stored rule
    had; [GetAnomalyRule] with that id then returns a rule with the same id
    and the same columns, and [GetAnomalyRules] lists that rule along with
    the rules that were there.  (The timestamps are left out of the
    comparison: the created rule carries the reading of [time.Now()], the
    fetched one what the timestamp column kept of it.) *)
Theorem a_created_rule_can_be_fetched (rule : AnomalyRule.t) (w : World) :
  faults w = [] ->
  ids_from_sequence w ->
  name_taken (AnomalyRule.Name rule) (anomaly_rules w) = false ->
  let o := CreateAnomalyRule rule w in
  let created := fst (val o) in
  snd (val o) = None
  /\ content created
     = (AnomalyRule.ID created, AnomalyRule.Name rule,
        AnomalyRule.Description rule, AnomalyRule.Type_ rule,
        AnomalyRule.Operator rule, AnomalyRule.Value rule,
        AnomalyRule.IsActive rule)
  /\ ~ In (AnomalyRule.ID created) (map AnomalyRule.ID (anomaly_rules w))
  /\ (exists fetched : AnomalyRule.t,
        val (GetAnomalyRule (AnomalyRule.ID created) (post o)) = Found fetched
        /\ content fetched = content created
        /\ exists rules : list AnomalyRule.t,
             val (GetAnomalyRules (post o)) = Ok rules
             /\ Permutation rules (fetched :: anomaly_rules w))
  /\ ids_from_sequence (post o).
Proof.
  intros Hf Hseq Hfree o created. subst created o.
  assert (Hh : hd Healthy (faults w) = Healthy) by (rewrite Hf; reflexivity).
  destruct (CreateAnomalyRule_healthy rule w Hh Hfree) as (Hv & Hr & Hs & Hf').
  cbv zeta in Hv, Hr. rewrite Hv. cbn [fst snd AnomalyRule.ID].
  assert (Hh' : hd Healthy (faults (post (CreateAnomalyRule rule w))) = Healthy)
    by (rewrite Hf', Hf; reflexivity).
  assert (Hbelow : Forall (fun x => AnomalyRule.ID x < rules_seq w + 1)
                     (anomaly_rules w)).
  { eapply Forall_impl; [|exact Hseq]. cbn beta. intros r Hle. lia. }
  split; [reflexivity|]. split; [reflexivity|]. split; [|split].
  - intros Hin. apply in_map_iff in Hin. destruct Hin as (r & Hid & Hin).
    rewrite Forall_forall in Hbelow. specialize (Hbelow r Hin). lia.
  - eexists. split; [|split; [reflexivity|]].
    + rewrite (GetAnomalyRule_healthy _ _ Hh'), Hr.
      rewrite find_new_row; [reflexivity | exact Hbelow | reflexivity].
    + eexists. split; [apply GetAnomalyRules_healthy; exact Hh'|].
      rewrite Hr, order_by_desc_perm.
      rewrite Permutation_app_comm. reflexivity.
  - unfold ids_from_sequence. rewrite Hr, Hs. apply Forall_app. split.
    + eapply Forall_impl; [|exact Hseq]. cbn beta. intros r Hle. lia.
    + constructor; [cbn; lia | constructor].
Qed.

Lemma find_updated (id : Z) (f : AnomalyRule.t -> AnomalyRule.t)
    (rows : list AnomalyRule.t) :
  (forall r, AnomalyRule.ID (f r) = AnomalyRule.ID r) ->
  find (has_id id) (map (fun old => if has_id id old then f old else old) rows)
  = option_map f (find (has_id id) rows).
Proof.
  intros Hid. induction rows as [|row rest IH]; [reflexivity|].
  cbn [map find]. destruct (has_id id row) eqn:H.
  - unfold has_id in *. rewrite Hid, H. reflexivity.
  - rewrite H. exact IH.
Qed.

Lemma find_existsb {A} (hit : A -> bool) (rows : list A) :
  existsb hit rows = match find hit rows with Some _ => true | None => false end.
Proof.
  induction rows as [|row rest IH]; [reflexivity|].
  cbn [existsb find]. destruct (hit row); [reflexivity | exact IH].
Qed.

Lemma UpdateAnomalyRule_healthy (rule : AnomalyRule.t) (w : World) :
  hd Healthy (faults w) = Healthy ->
  let o := UpdateAnomalyRule rule w in
  let sent :=
    AnomalyRule.mk (AnomalyRule.ID rule) (AnomalyRule.Name rule)
      (AnomalyRule.Description rule) (AnomalyRule.Type_ rule)
      (AnomalyRule.Operator rule) (AnomalyRule.Value rule)
      (AnomalyRule.IsActive rule) (AnomalyRule.CreatedAt rule) (clock w) in
  fst (val o) = sent
  /\ if name_clash sent (anomaly_rules w) then
       snd (val o) = Some (Caused (Errorf "error updating anomaly rule" ErrUnique))
       /\ anomaly_rules (post o) = anomaly_rules w
     else
       snd (val o)
       = (if existsb (has_id (AnomalyRule.ID rule)) (anomaly_rules w) then None
          else Some (Plain ("anomaly rule with ID "
                              ++ FormatInt (AnomalyRule.ID rule)
                              ++ " not found for update")%string))
       /\ anomaly_rules (post o)
          = map (fun old => if has_id (AnomalyRule.ID rule) old
                            then updated_row sent old else old)
              (anomaly_rules w).
Proof.
  intros Hh.
  unfold UpdateAnomalyRule, db_Exec_update_rule, bind, take_fault, time_Now,
    set_rules.
  cbn [val post trace faults anomaly_rules rules_seq clock jobs anomalies
       anomalies_seq AnomalyRule.ID].
  destruct (faults w) as [|f fs]; cbn in Hh; [|subst f];
    cbn [val post trace faults anomaly_rules rules_seq clock jobs anomalies
         anomalies_seq AnomalyRule.ID];
    (destruct (name_clash _ (anomaly_rules w));
     [cbn; repeat split; reflexivity|]);
    cbn [val post trace RowsAffected faults anomaly_rules rules_seq clock jobs
         anomalies anomalies_seq AnomalyRule.ID];
    rewrite count_affected_zero;
    destruct (existsb (has_id (AnomalyRule.ID rule)) (anomaly_rules w));
    cbn; repeat split; reflexivity.
Qed.

(** X14.  Updating a rule.  [UpdateAnomalyRule] stamps the caller's copy
    with the time of the call and rewrites the columns of the stored row of
    that id, keeping the row's id and its creation time whatever the
    caller's copy says; detection applies the new values from then on.
    Wherever the database keeps the rewritten row, detection owes the
    findings of the rules with the new values in place of the old; and where
    the rules carry pairwise distinct creation times, so that [ORDER BY
    created_at DESC] fixes the order of evaluation, every rule keeps its
    place in that order.  If no row has the id the call fails with "not
    found for update", and if another rule holds the new name it fails with
    the database's error; in both cases the table is left as it was. *)
Theorem an_update_keeps_creation_time_and_order (rule : AnomalyRule.t) (w : World) :
  hd Healthy (faults w) = Healthy ->
  let o := UpdateAnomalyRule rule w in
  let sent := fst (val o) in
  let renewed := fun r : AnomalyRule.t =>
                   if has_id (AnomalyRule.ID rule) r then updated_row sent r
                   else r in
  AnomalyRule.UpdatedAt sent = clock w
  /\ content sent = content rule
  /\ match find (has_id (AnomalyRule.ID rule)) (anomaly_rules w) with
     | None =>
         snd (val o)
         = Some (Plain ("anomaly rule with ID " ++ FormatInt (AnomalyRule.ID rule)
                          ++ " not found for update")%string)
         /\ anomaly_rules (post o) = anomaly_rules w
     | Some old =>
         if name_clash rule (anomaly_rules w) then
           snd (val o)
           = Some (Caused (Errorf "error updating anomaly rule" ErrUnique))
           /\ anomaly_rules (post o) = anomaly_rules w
         else
           snd (val o) = None
           /\ (exists stored : AnomalyRule.t,
                 find (has_id (AnomalyRule.ID rule)) (anomaly_rules (post o))
                 = Some stored
                 /\ content stored = content rule
                 /\ AnomalyRule.CreatedAt stored = AnomalyRule.CreatedAt old)
           /\ (forall (table : list AnomalyRule.t) (job : JobData.t),
                 Permutation table (anomaly_rules (post o)) ->
                 Permutation
                   (rules_due job (order_by_desc AnomalyRule.CreatedAt table))
                   (flat_map (fun r => rule_due job (renewed r))
                      (order_by_desc AnomalyRule.CreatedAt (anomaly_rules w)))
                 /\ (NoDup (map AnomalyRule.CreatedAt (anomaly_rules w)) ->
                     map AnomalyRule.ID
                       (order_by_desc AnomalyRule.CreatedAt table)
                     = map AnomalyRule.ID
                         (order_by_desc AnomalyRule.CreatedAt (anomaly_rules w))
                     /\ rules_due job (order_by_desc AnomalyRule.CreatedAt table)
                        = flat_map (fun r => rule_due job (renewed r))
                            (order_by_desc AnomalyRule.CreatedAt
                               (anomaly_rules w))))
     end.
Proof.
  intros Hh o sent renewed. subst renewed sent o.
  destruct (UpdateAnomalyRule_healthy rule w Hh) as (Hsent & Hrest).
  cbv zeta in Hsent, Hrest. rewrite Hsent.
  split; [reflexivity|]. split; [reflexivity|].
  change (name_clash _ (anomaly_rules w))
    with (name_clash rule (anomaly_rules w)) in Hrest.
  rewrite find_existsb in Hrest.
  destruct (find (has_id (AnomalyRule.ID rule)) (anomaly_rules w)) as [old|] eqn:Hfind.
  - destruct (name_clash rule (anomaly_rules w)); [exact Hrest|].
    destruct Hrest as [Hv Hr]. split; [exact Hv|]. rewrite Hr.
    set (renewed := fun old0 : AnomalyRule.t =>
                      if has_id (AnomalyRule.ID rule) old0
                      then updated_row _ old0 else old0).
    assert (Hkey : forall r,
               AnomalyRule.CreatedAt (renewed r) = AnomalyRule.CreatedAt r)
      by (intros r; unfold renewed;
          destruct (has_id (AnomalyRule.ID rule) r); reflexivity).
    assert (Hid : forall r, AnomalyRule.ID (renewed r) = AnomalyRule.ID r)
      by (intros r; unfold renewed;
          destruct (has_id (AnomalyRule.ID rule) r); reflexivity).
    split.
    + eexists. split; [|split].
      * unfold renewed. rewrite find_updated by reflexivity.
        rewrite Hfind. reflexivity.
      * apply find_some in Hfind. destruct Hfind as [_ Hold].
        unfold has_id in Hold. apply Z.eqb_eq in Hold.
        unfold content, updated_row.
        cbn [AnomalyRule.ID AnomalyRule.Name AnomalyRule.Description
             AnomalyRule.Type_ AnomalyRule.Operator AnomalyRule.Value
             AnomalyRule.IsActive].
        rewrite Hold. reflexivity.
      * reflexivity.
    + intros table job Hp. split.
      * unfold rules_due.
        etransitivity;
          [apply Permutation_flat_map; apply order_by_desc_perm|].
        etransitivity; [apply Permutation_flat_map; exact Hp|].
        etransitivity;
          [|apply Permutation_flat_map; symmetry; apply order_by_desc_perm].
        rewrite flat_map_concat_map, map_map, <- flat_map_concat_map.
        reflexivity.
      * intros Hnd.
        rewrite <- (@order_by_desc_arrangement _ AnomalyRule.CreatedAt
                      (map renewed (anomaly_rules w)) table).
        -- rewrite order_by_desc_map by exact Hkey. split.
           ++ rewrite map_map. apply map_ext. exact Hid.
           ++ unfold rules_due.
              rewrite flat_map_concat_map, map_map, <- flat_map_concat_map.
              reflexivity.
        -- rewrite map_map. rewrite (map_ext _ _ Hkey). exact Hnd.
        -- symmetry. exact Hp.
  - assert (Hno : name_clash rule (anomaly_rules w) = false).
    { unfold name_clash. rewrite find_existsb, Hfind. reflexivity. }
    rewrite Hno in Hrest. destruct Hrest as [Hv Hr]. split; [exact Hv|].
    rewrite Hr. apply map_unaffected. rewrite find_existsb, Hfind. reflexivity.
Qed.

(** ** The default rule *)

Definition known (rule : AnomalyRule.t) : bool :=
  known_metric (AnomalyRule.Type_ rule).

Lemma rule_due_unknown (job : JobData.t) (rule : AnomalyRule.t) :
  known rule = false -> rule_due job rule = [].
Proof.
  intros H. unfold rule_due.
  rewrite (rule_switch_unknown_metric job rule H).
  destruct (negb (AnomalyRule.IsActive rule)); reflexivity.
Qed.

(** Rules of a metric that [DetectAnomalies] has no case for can be left out
    of the list without changing what detection owes. *)
Lemma rules_due_known (job : JobData.t) (rules : list AnomalyRule.t) :
  rules_due job rules = rules_due job (filter known rules).
Proof.
  unfold rules_due. rewrite flat_map_filter. apply flat_map_ext.
  intros r. destruct (known r) eqn:H; [reflexivity|].
  apply rule_due_unknown. exact H.
Qed.

(** X15.  The rule that [createDefaultAnomalyRules] installs, "Negative
    Salary", is stored active with the metric [salary].  [DetectAnomalies]
    has cases for [max_salary], [min_salary] and [company_rating] only, so
    the default rule yields no finding for any record, a negative salary
    included: what detection owes is the same with and without it.  Run
    again, the statement inserts nothing (ON CONFLICT DO NOTHING). *)
Theorem the_default_rule_never_fires (w : World) :
  hd Healthy (faults w) = Healthy ->
  let o := createDefaultAnomalyRules w in
  val o = None
  /\ anomaly_rules (post o)
     = (if name_taken "Negative Salary" (anomaly_rules w) then anomaly_rules w
        else anomaly_rules w ++ [default_rule (rules_seq w + 1) (clock w)])
  /\ (forall (id now : Z),
        AnomalyRule.IsActive (default_rule id now) = true
        /\ forall job : JobData.t, rule_due job (default_rule id now) = [])
  /\ (forall job : JobData.t,
        rules_due job
          (order_by_desc AnomalyRule.CreatedAt (anomaly_rules (post o)))
        = rules_due job
            (order_by_desc AnomalyRule.CreatedAt (anomaly_rules w))).
Proof.
  intros Hh o. subst o.
  assert (Hr : anomaly_rules (post (createDefaultAnomalyRules w))
               = (if name_taken "Negative Salary" (anomaly_rules w)
                  then anomaly_rules w
                  else anomaly_rules w
                         ++ [default_rule (rules_seq w + 1) (clock w)])
               /\ val (createDefaultAnomalyRules w) = None).
  { unfold createDefaultAnomalyRules, db_Exec_insert_default_rule, bind,
      take_fault, append.
    destruct (faults w) as [|f fs]; cbn in Hh; [|subst f];
      cbn -[name_taken default_rule];
      destruct (name_taken "Negative Salary" (anomaly_rules w));
      split; reflexivity. }
  destruct Hr as [Hr Hv]. split; [exact Hv|]. split; [exact Hr|]. split.
  - intros id now. split; [reflexivity|]. intros job.
    apply rule_due_unknown. reflexivity.
  - intros job. rewrite Hr.
    destruct (name_taken "Negative Salary" (anomaly_rules w)); [reflexivity|].
    rewrite (rules_due_known job (order_by_desc _ (anomaly_rules w ++ _))).
    rewrite (rules_due_known job (order_by_desc _ (anomaly_rules w))).
    rewrite !filter_order_by_desc, filter_app. cbn [filter].
    replace (known (default_rule (rules_seq w + 1) (clock w))) with false
      by reflexivity.
    rewrite app_nil_r. reflexivity.
Qed.

Section Postings.
Context {platform : Platform}.

(** ** Saving postings and checking them *)

Lemma CreateJobData_healthy (job : JobData.t) (w : World) :
  hd Healthy (faults w) = Healthy ->
  let o := CreateJobData job w in
  val o = None
  /\ jobs (post o)
     = (if job_exists (JobData.JobID job) (jobs w) then
          map (fun old => if same_job (JobData.JobID job) old
                          then row_of job else old)
            (jobs w)
        else jobs w ++ [row_of job])
  /\ anomaly_rules (post o) = anomaly_rules w
  /\ anomalies (post o) = anomalies w
  /\ faults (post o) = tl (faults w).
Proof.
  intros Hh. unfold CreateJobData, db_Exec_upsert_job, bind, take_fault,
    time_Now, append, ret.
  cbn [val post trace faults jobs anomaly_rules anomalies anomalies_seq
       rules_seq clock].
  destruct (faults w) as [|f fs] eqn:Hf; cbn [hd] in Hh; [|subst f];
    cbn [val post trace faults jobs anomaly_rules anomalies anomalies_seq
         rules_seq clock tl];
    rewrite ?Hf; repeat split; reflexivity.
Qed.

Lemma job_exists_same_job (id : string) (rows : list JobsRow.t) :
  job_exists id rows = existsb (same_job id) rows.
Proof. reflexivity. Qed.

Lemma filter_none {A} (keep : A -> bool) (l : list A) :
  existsb keep l = false -> filter keep l = [].
Proof.
  induction l as [|x l IH]; [reflexivity|].
  cbn [existsb filter]. destruct (keep x); [discriminate|]. exact IH.
Qed.

Lemma filter_all {A} (keep : A -> bool) (l : list A) :
  existsb keep l = false -> filter (fun x => negb (keep x)) l = l.
Proof.
  induction l as [|x l IH]; [reflexivity|].
  cbn [existsb filter]. destruct (keep x); [discriminate|].
  intros H. cbn [negb]. rewrite IH by exact H. reflexivity.
Qed.

Lemma in_job_ids (id : string) (rows : list JobsRow.t) :
  existsb (same_job id) rows = true <-> In id (map JobsRow.job_id rows).
Proof.
  rewrite existsb_exists, in_map_iff. unfold same_job.
  split; intros (r & H1 & H2); exists r.
  - apply String.eqb_eq in H2. auto.
  - split; [exact H2 | apply String.eqb_eq; exact H1].
Qed.

(** Overwriting the row of a key that occurs once. *)
Lemma overwrite_one (job : JobData.t) (rows : list JobsRow.t) :
  NoDup (map JobsRow.job_id rows) ->
  existsb (same_job (JobData.JobID job)) rows = true ->
  let rows' :=
    map (fun old => if same_job (JobData.JobID job) old then row_of job else old)
      rows in
  filter (same_job (JobData.JobID job)) rows' = [row_of job]
  /\ filter (fun r => negb (same_job (JobData.JobID job) r)) rows'
     = filter (fun r => negb (same_job (JobData.JobID job) r)) rows
  /\ map JobsRow.job_id rows' = map JobsRow.job_id rows.
Proof.
  induction rows as [|row rest IH]; [discriminate|].
  cbn [map existsb]. intros Hnd Hex. inversion Hnd as [|? ? Hnot Hnd']; subst.
  cbv zeta. cbn [map filter].
  destruct (same_job (JobData.JobID job) row) eqn:Hrow.
  - assert (Hrest : existsb (same_job (JobData.JobID job)) rest = false).
    { destruct (existsb _ rest) eqn:H; [|reflexivity].
      apply in_job_ids in H. unfold same_job in Hrow.
      apply String.eqb_eq in Hrow. rewrite Hrow in Hnot. contradiction. }
    rewrite (map_unaffected _ _ _ Hrest).
    assert (Hself : same_job (JobData.JobID job) (row_of job) = true)
      by apply String.eqb_refl.
    rewrite Hself. cbn [negb]. rewrite (filter_none _ _ Hrest).
    unfold same_job in Hrow. apply String.eqb_eq in Hrow.
    cbn [row_of JobsRow.job_id]. rewrite Hrow. auto.
  - cbn [orb] in Hex. destruct (IH Hnd' Hex) as (H1 & H2 & H3).
    rewrite Hrow. cbn [negb]. rewrite H1, H2, H3. auto.
Qed.

(** X16.  The jobs table holds one row per posting, and the last write
    wins.  When its statement runs, [CreateJobData] leaves exactly one row
    for the id of the record, holding the values of the record (the rating
    is never NULL); the rows of the other postings are untouched, and so are
    the rules and the findings, those stored for the overwritten posting
    included. *)
Theorem a_saved_posting_has_one_row (job : JobData.t) (w : World) :
  hd Healthy (faults w) = Healthy ->
  NoDup (map JobsRow.job_id (jobs w)) ->
  let o := CreateJobData job w in
  let others := fun row => negb (same_job (JobData.JobID job) row) in
  val o = None
  /\ filter (same_job (JobData.JobID job)) (jobs (post o)) = [row_of job]
  /\ filter others (jobs (post o)) = filter others (jobs w)
  /\ NoDup (map JobsRow.job_id (jobs (post o)))
  /\ anomaly_rules (post o) = anomaly_rules w
  /\ anomalies (post o) = anomalies w.
Proof.
  intros Hh Hnd o others. subst o others.
  destruct (CreateJobData_healthy job w Hh) as (Hv & Hj & Hr & Ha & _).
  split; [exact Hv|]. rewrite Hj, job_exists_same_job.
  destruct (existsb (same_job (JobData.JobID job)) (jobs w)) eqn:Hex.
  - destruct (overwrite_one job (jobs w) Hnd Hex) as (H1 & H2 & H3).
    cbv zeta in H1, H2, H3. rewrite H1, H2, H3. auto 6.
  - rewrite !filter_app, (filter_none _ _ Hex), (filter_all _ _ Hex).
    cbn [filter app].
    assert (Hself : same_job (JobData.JobID job) (row_of job) = true)
      by apply String.eqb_refl.
    rewrite Hself. cbn [negb]. rewrite app_nil_r.
    repeat split; try assumption; try reflexivity.
    rewrite map_app. cbn [map row_of JobsRow.job_id].
    apply NoDup_app; [exact Hnd | repeat constructor; intros [] |].
    intros id Hin [<-|[]].
    apply in_job_ids in Hin. rewrite Hin in Hex. discriminate.
Qed.

Lemma batch_returns (w : World) :
  hd Healthy (faults w) = Healthy ->
  forallb scannable (jobs w) = true ->
  val (DetectAnomaliesForAllJobs w) = None.
Proof.
  intros Hh Hall. unfold DetectAnomaliesForAllJobs.
  rewrite val_bind, db_Query_jobs_run. cbv zeta. cbn [val post]. rewrite Hh.
  cbn [open_rows delivered rows_Err]. rewrite val_bind. cbv beta.
  pose proof (detect_each_fails_iff (jobs w) (post (take_fault w))) as Hiff.
  apply Hiff in Hall. rewrite Hall. reflexivity.
Qed.

(** X17.  Saving a posting and then checking the table.  A row written by
    [CreateJobData] can always be scanned by the batch run, so a table
    filled through the service is enumerated without error.  But the batch
    run reads six columns only: the record it builds from the saved row has
    lost the other fields, and the next run of [DetectAnomaliesForAllJobs]
    emits a null-value finding for the posting just saved, however complete
    that posting was. *)
Theorem a_saved_posting_is_flagged_by_the_next_batch (job : JobData.t) (w : World) :
  faults w = [] ->
  forallb scannable (jobs w) = true ->
  let o := CreateJobData job w in
  let batch := DetectAnomaliesForAllJobs (post o) in
  val o = None
  /\ forallb scannable (jobs (post o)) = true
  /\ val batch = None
  /\ exists a : Anomaly.t,
       In a (emitted (trace batch))
       /\ Anomaly.Type_ a = AnomalyTypeNullValues
       /\ Anomaly.JobID a = JobData.JobID job
       /\ incl never_selected (Anomaly.Violations a).
Proof.
  intros Hf Hall o batch. subst batch o.
  assert (Hh : hd Healthy (faults w) = Healthy) by (rewrite Hf; reflexivity).
  destruct (CreateJobData_healthy job w Hh) as (Hv & Hj & _ & _ & Hf').
  assert (Hh' : hd Healthy (faults (post (CreateJobData job w))) = Healthy)
    by (rewrite Hf', Hf; reflexivity).
  assert (Hall' : forallb scannable (jobs (post (CreateJobData job w))) = true).
  { rewrite Hj. destruct (job_exists _ (jobs w)).
    - rewrite forallb_forall in *. intros row Hin.
      apply in_map_iff in Hin. destruct Hin as (old & <- & Hin).
      destruct (same_job _ old); [reflexivity | apply Hall; exact Hin].
    - rewrite forallb_app, Hall. reflexivity. }
  assert (Hin : In (JobData.JobID job)
                  (map JobsRow.job_id (jobs (post (CreateJobData job w))))).
  { rewrite Hj, job_exists_same_job.
    destruct (existsb (same_job (JobData.JobID job)) (jobs w)) eqn:Hex.
    - apply in_map_iff. exists (row_of job). split; [reflexivity|].
      apply existsb_exists in Hex. destruct Hex as (old & Hold & Hsame).
      apply in_map_iff. exists old. rewrite Hsame. auto.
    - rewrite map_app. apply in_or_app. right. left. reflexivity. }
  pose proof (batch_returns _ Hh' Hall') as Hbatch.
  split; [exact Hv|]. split; [exact Hall'|]. split; [exact Hbatch|].
  destruct (batch_run _ Hbatch) as [_ Ht].
  destruct (records_of_blank _ Hall') as [Hb Hid].
  destruct (null_findings_of_invocations Hb
              (post (take_fault (post (CreateJobData job w))))) as [Hids Hvs].
  cbv zeta in Hids, Hvs. rewrite Ht. cbn [emitted].
  rewrite Hid in Hids. rewrite <- Hids in Hin. apply in_map_iff in Hin.
  destruct Hin as (a & Ha & Hin).
  exists a. rewrite Forall_forall in Hvs. specialize (Hvs a Hin).
  apply filter_In in Hin. destruct Hin as [Hin Hty].
  unfold of_type in Hty. apply String.eqb_eq in Hty. auto.
Qed.

End Postings.

(** ** The rule endpoints *)

Lemma digits_start (d : Decimal.uint) :
  d <> Decimal.Nil ->
  exists c rest,
    NilZero.string_of_uint d = String c rest
    /\ Ascii.eqb c "+"%char = false /\ Ascii.eqb c "-"%char = false.
Proof.
  intros Hd. destruct d; [contradiction|..];
    cbn [NilZero.string_of_uint NilEmpty.string_of_uint];
    eexists; eexists; (split; [reflexivity|split; reflexivity]).
Qed.

(** The decimal rendering of an int64 is read back as that number. *)
Lemma ParseInt_FormatInt (n : Z) :
  - 2 ^ 63 <= n < 2 ^ 63 -> ParseInt (FormatInt n) = Some n.
Proof.
  intros Hn. unfold FormatInt. destruct n as [|p|p]; [reflexivity| |].
  - cbn [Z.to_int NilZero.string_of_int].
    destruct (digits_start (DecimalPos.Unsigned.to_uint_nonnil p))
      as (c & rest & Hs & Hplus & Hminus).
    unfold ParseInt. rewrite Hs, Hplus, Hminus. cbn [orb]. rewrite <- Hs.
    rewrite NilZero.usu by apply DecimalPos.Unsigned.to_uint_nonnil.
    unfold Z.of_uint. rewrite DecimalPos.Unsigned.of_to. cbn [Z.of_N].
    destruct (Z.ltb_spec (Z.pos p) (2 ^ 63)); [reflexivity | lia].
  - cbn [Z.to_int NilZero.string_of_int]. unfold ParseInt.
    replace (Ascii.eqb "-"%char "-"%char) with true by reflexivity.
    replace (Ascii.eqb "-"%char "+"%char) with false by reflexivity. cbn [orb].
    rewrite NilZero.usu by apply DecimalPos.Unsigned.to_uint_nonnil.
    unfold Z.of_uint. rewrite DecimalPos.Unsigned.of_to. cbn [Z.of_N].
    destruct (Z.leb_spec (Z.pos p) (2 ^ 63)); [reflexivity | lia].
Qed.

(** X18.  What [GET /api/anomaly-rules/:id] answers.  A path parameter
    that is not a decimal int64 is answered 400 without a call to the
    database.  Otherwise, when the query runs, a stored rule is answered
    200 with the rule, and an id that is not stored is answered 500 with
    the text "not found": the handler has no 404. *)
Theorem a_missing_rule_is_answered_500 (id : string) (w : World) :
  let o := AnomalyRuleHandler.GetAnomalyRule id w in
  match ParseInt id with
  | None =>
      val o = Response 400 (ErrorText "invalid rule ID") /\ post o = w
  | Some n =>
      hd Healthy (faults w) = Healthy ->
      (forall rule : AnomalyRule.t,
         find (has_id n) (anomaly_rules w) = Some rule ->
         val o = Response 200 (OneRule rule))
      /\ (~ In n (map AnomalyRule.ID (anomaly_rules w)) ->
          val o
          = Response 500
              (ErrorOf (Plain ("anomaly rule with ID " ++ FormatInt n
                                 ++ " not found")%string)))
  end.
Proof.
  cbv zeta. unfold AnomalyRuleHandler.GetAnomalyRule.
  destruct (ParseInt id) as [n|]; [|split; reflexivity].
  intros Hh. rewrite val_bind. unfold ruleService.GetAnomalyRule.
  rewrite (GetAnomalyRule_healthy n w Hh). split.
  - intros rule ->. reflexivity.
  - intros Hnot. rewrite <- existsb_has_id, find_existsb in Hnot.
    destruct (find (has_id n) (anomaly_rules w)); [exfalso; auto | reflexivity].
Qed.

(** X19.  A rule created by the service is served under the decimal
    rendering of its id: when nothing fails, the name is free and the
    sequence is within int64, [GET /api/anomaly-rules/<id>] answers 200 with
    a rule that has the id and the columns of the rule [CreateAnomalyRule]
    handed back (its timestamps are those of the stored row). *)
Theorem a_created_rule_is_served_under_its_id (rule : AnomalyRule.t) (w : World) :
  faults w = [] ->
  ids_from_sequence w ->
  0 <= rules_seq w < 2 ^ 63 - 1 ->
  name_taken (AnomalyRule.Name rule) (anomaly_rules w) = false ->
  let o := CreateAnomalyRule rule w in
  let created := fst (val o) in
  exists served : AnomalyRule.t,
    val (AnomalyRuleHandler.GetAnomalyRule (FormatInt (AnomalyRule.ID created))
           (post o))
    = Response 200 (OneRule served)
    /\ content served = content created
    /\ find (has_id (AnomalyRule.ID created)) (anomaly_rules (post o))
       = Some served.
Proof.
  intros Hf Hseq Hrange Hfree o created. subst created o.
  assert (Hh : hd Healthy (faults w) = Healthy) by (rewrite Hf; reflexivity).
  destruct (CreateAnomalyRule_healthy rule w Hh Hfree) as (Hv & Hr & Hs & Hf').
  cbv zeta in Hv, Hr. rewrite Hv. cbn [fst AnomalyRule.ID].
  assert (Hfind : find (has_id (rules_seq w + 1))
                    (anomaly_rules (post (CreateAnomalyRule rule w)))
                  = Some (AnomalyRule.mk (rules_seq w + 1) (AnomalyRule.Name rule)
                            (AnomalyRule.Description rule) (AnomalyRule.Type_ rule)
                            (AnomalyRule.Operator rule) (AnomalyRule.Value rule)
                            (AnomalyRule.IsActive rule) (clock w) (clock w))).
  { rewrite Hr, find_new_row; [reflexivity | | reflexivity].
    eapply Forall_impl; [|exact Hseq]. cbn beta. intros r Hle. lia. }
  eexists. split; [|split; [reflexivity | exact Hfind]].
  unfold AnomalyRuleHandler.GetAnomalyRule.
  rewrite ParseInt_FormatInt by lia.
  rewrite val_bind. unfold ruleService.GetAnomalyRule.
  rewrite GetAnomalyRule_healthy by (rewrite Hf', Hf; reflexivity).
  rewrite Hfind. reflexivity.
Qed.

(** X20.  [DELETE /api/anomaly-rules/:id] is not idempotent in what it
    answers.  When nothing fails, deleting a stored rule is answered 204
    with no body, and the same request sent again is answered 500 with the
    text "not found for deletion".  A path parameter that is not a decimal
    int64 is answered 400 and deletes nothing. *)
Theorem a_repeated_delete_is_answered_500 (id : string) (w : World) :
  let o := AnomalyRuleHandler.DeleteAnomalyRule id w in
  match ParseInt id with
  | None =>
      val o = Response 400 (ErrorText "invalid rule ID") /\ post o = w
  | Some n =>
      faults w = [] ->
      In n (map AnomalyRule.ID (anomaly_rules w)) ->
      val o = Response 204 NoBody
      /\ ~ In n (map AnomalyRule.ID (anomaly_rules (post o)))
      /\ val (AnomalyRuleHandler.DeleteAnomalyRule id (post o))
         = Response 500
             (ErrorOf (Plain ("anomaly rule with ID " ++ FormatInt n
                                ++ " not found for deletion")%string))
  end.
Proof.
  cbv zeta. unfold AnomalyRuleHandler.DeleteAnomalyRule.
  destruct (ParseInt id) as [n|]; [|split; reflexivity].
  intros Hf Hin. rewrite !val_bind, !post_bind.
  unfold ruleService.DeleteAnomalyRule.
  assert (Hh : hd Healthy (faults w) = Healthy) by (rewrite Hf; reflexivity).
  destruct (DeleteAnomalyRule_healthy n w Hh) as (Hv & Hr & _ & Hf').
  cbv zeta in Hv, Hr, Hf'.
  apply existsb_has_id in Hin. rewrite Hin in Hv. rewrite Hv. cbn [val post ret].
  assert (Hgone : existsb (has_id n)
                    (anomaly_rules (post (DeleteAnomalyRule n w))) = false).
  { rewrite Hr, find_existsb, find_deleted. reflexivity. }
  split; [reflexivity|]. split.
  - rewrite <- existsb_has_id, Hgone. discriminate.
  - assert (Hh' : hd Healthy (faults (post (DeleteAnomalyRule n w))) = Healthy)
      by (rewrite Hf', Hf; reflexivity).
    destruct (DeleteAnomalyRule_healthy n _ Hh') as (Hv' & _).
    cbv zeta in Hv'. rewrite Hgone in Hv'. rewrite Hv'. reflexivity.
Qed.

(** X26.  The three endpoints that list rows, [GET /api/anomalies/:job_id],
    [GET /api/anomalies] and [GET /api/anomaly-rules], answer 200 with the
    rows, newest first, exactly when their query runs to the end: a job id
    without findings is answered 200 with the empty list.  A query that
    cannot be run and a result set that breaks off are both answered 500,
    the first with the text "error querying ...", the second, whatever was
    read before, with "error iterating ...". *)
Theorem the_list_endpoints_answer_200_or_500 (jobID : string) (w : World) :
  let by_job := val (AnomalyHandler.GetAnomaliesByJobID jobID w) in
  let every := val (AnomalyHandler.GetAllAnomalies w) in
  let rules := val (AnomalyRuleHandler.GetAnomalyRules w) in
  let failed := fun msg => Response 500 (ErrorOf (Caused (Errorf msg ErrDriver))) in
  match hd Healthy (faults w) with
  | Healthy =>
      by_job
      = Response 200
          (Findings
             (map as_read
                (order_by_desc Anomaly.CreatedAt
                   (filter (of_job jobID) (anomalies w)))))
      /\ every
         = Response 200
             (Findings (map as_read (order_by_desc Anomaly.CreatedAt (anomalies w))))
      /\ rules
         = Response 200
             (AllRules (order_by_desc AnomalyRule.CreatedAt (anomaly_rules w)))
  | Broken =>
      by_job = failed "error querying anomalies by job ID"
      /\ every = failed "error querying all anomalies"
      /\ rules = failed "error querying anomaly rules"
  | Interrupted _ =>
      by_job = failed "error iterating anomalies"
      /\ every = failed "error iterating anomalies"
      /\ rules = failed "error iterating anomaly rules"
  end.
Proof.
  cbv zeta.
  unfold AnomalyHandler.GetAnomaliesByJobID, AnomalyHandler.GetAllAnomalies,
    AnomalyRuleHandler.GetAnomalyRules, anomalyService.GetAnomaliesByJobID,
    anomalyService.GetAllAnomalies, ruleService.GetAnomalyRules.
  rewrite !val_bind.
  unfold GetAnomaliesByJobID, GetAllAnomalies, GetAnomalyRules,
    db_Query_anomalies, db_Query_rules, bind, take_fault, read_world, emit, ret,
    scan_anomaly, scan_rule.
  fold as_read. fold (of_job jobID).
  destruct (faults w) as [|[| |n] fs];
    cbn [hd val post trace open_rows delivered rows_Err anomalies anomaly_rules];
    rewrite ?(scan_rows_map as_read), ?scan_rows_total;
    cbn [app val post trace rows_Err delivered];
    try (destruct (map as_read _)); repeat split; reflexivity.
Qed.

Section Batch_endpoint.
Context {platform : Platform}.

(** A run that stopped at the statistics. *)
Definition stopped_at_statistics
    (run : JobData.t * outcome (result (list Anomaly.t))) : Prop :=
  (exists e : error,
     val (snd run)
     = Err (Errorf "error getting statistics"
              (Errorf "error getting statistics" e)))
  /\ Forall (fun a => Anomaly.Type_ a = AnomalyTypeNullValues)
       (emitted (trace (snd run))).

Lemma invocations_without_baseline (records : list JobData.t) :
  forall w : World,
    (List.length (filter qualifies (jobs w)) < 2)%nat ->
    Forall stopped_at_statistics (invocations records w).
Proof.
  induction records as [|job rest IH]; intros w Hfew; cbn [invocations].
  - constructor.
  - assert (Hno : is_ok (select_statistics (jobs w)) = false).
    { destruct (is_ok (select_statistics (jobs w))) eqn:Hok; [|reflexivity].
      apply select_statistics_ok_iff in Hok. lia. }
    destruct (orderly_DetectAnomalies job w) as (Hj & _).
    constructor; [|apply IH; rewrite Hj; exact Hfew].
    unfold stopped_at_statistics. cbn [snd].
    destruct (DetectAnomalies_runs job w)
      as [e _ _ _ He Hv _ | stats f e _ Hsel _ _ _ _ _
          | stats f rules _ Hsel _ _ _ _ _].
    + split; [exists e; exact Hv|]. rewrite He.
      apply stamped_types. intros build now Hb.
      apply (null_due_type job build now Hb).
    + rewrite Hsel in Hno. discriminate.
    + rewrite Hsel in Hno. discriminate.
Qed.

(** X21.  [POST /api/anomalies/detect-all] reports success whatever the
    runs did.  When the rows of [jobs] can be enumerated but fewer than two
    of them qualify for the statistics, every single run of
    [DetectAnomalies] fails at the statistics and none gets past the
    null-value check; the errors are printed, and the endpoint answers 200
    "Anomaly detection completed for all jobs". *)
Theorem the_batch_endpoint_answers_200_though_every_run_failed (w : World) :
  hd Healthy (faults w) = Healthy ->
  forallb scannable (jobs w) = true ->
  (List.length (filter qualifies (jobs w)) < 2)%nat ->
  let o := AnomalyHandler.DetectAnomaliesForAllJobs w in
  let runs := invocations (records_of (jobs w)) (post (take_fault w)) in
  val o = Response 200 (Message "Anomaly detection completed for all jobs")
  /\ trace o
     = EvSelectJobs (Ok (mkRows (jobs w) None))
         :: flat_map (fun run => trace (snd run) ++ failure_line run) runs
  /\ List.length runs = List.length (jobs w)
  /\ Forall stopped_at_statistics runs.
Proof.
  intros Hh Hall Hfew o runs. subst o runs.
  pose proof (batch_returns w Hh Hall) as Hv.
  destruct (batch_run w Hv) as [_ Ht].
  unfold AnomalyHandler.DetectAnomaliesForAllJobs,
    anomalyService.DetectAnomaliesForAllJobs.
  rewrite val_bind, trace_bind, Hv, Ht. cbn [val trace ret].
  rewrite app_nil_r, invocations_length, records_of_length by exact Hall.
  repeat split.
  apply invocations_without_baseline.
  unfold take_fault. destruct (faults w); exact Hfew.
Qed.

End Batch_endpoint.

Section Batch_again.
Context {platform : Platform}.

(** ** The batch run when nothing fails *)

(** A computation that stamps the findings it emits with consecutive
    readings of the clock and reads the clock for nothing else. *)
Definition paced {A} (m : M A) : Prop :=
  forall w : World, exists due : list (Z -> Anomaly.t), emits due w (m w).

Lemma paced_ret {A} (a : A) : paced (ret a).
Proof. intros w. exists []. apply emits_ret. Qed.

Lemma paced_bind {A B} (m : M A) (f : A -> M B) :
  paced m -> (forall a, paced (f a)) -> paced (bind m f).
Proof.
  intros Hm Hf w. destruct (Hm w) as [due1 H1].
  destruct (Hf (val (m w)) (post (m w))) as [due2 H2].
  exists (due1 ++ due2). apply emits_bind; assumption.
Qed.

Lemma paced_getStatistics : paced getStatistics.
Proof.
  intros w. exists [].
  destruct (getStatistics_run w) as (rs & _ & Ht & _ & _ & _ & _ & Hc).
  split; [rewrite Ht; reflexivity | rewrite Hc; cbn; lia].
Qed.

Lemma paced_GetAnomalyRules : paced GetAnomalyRules.
Proof.
  intros w. exists [].
  destruct (GetAnomalyRules_run w) as (f & Ht & _ & _ & _ & _ & Hc).
  split; [rewrite Ht; reflexivity | rewrite Hc; cbn; lia].
Qed.

Lemma paced_DetectAnomalies (job : JobData.t) : paced (DetectAnomalies job).
Proof.
  unfold DetectAnomalies.
  apply paced_bind;
    [intros w; eexists; apply detect_null_values_emits | intros d0].
  apply paced_bind; [apply paced_getStatistics | intros [stats|e]];
    [|apply paced_ret].
  apply paced_bind;
    [intros w; eexists; apply detect_salary_deviation_emits | intros d1].
  apply paced_bind;
    [intros w; eexists; apply detect_rating_deviation_emits | intros d2].
  apply paced_bind; [apply paced_GetAnomalyRules | intros [rules|e]];
    [|apply paced_ret].
  apply paced_bind; [intros w; eexists; apply apply_rules_emits | intros d3].
  apply paced_ret.
Qed.

(** The clock moves by one for each finding emitted. *)
Lemma clock_after_detection (job : JobData.t) (w : World) :
  clock (post (DetectAnomalies job w))
  = clock w + Z.of_nat (List.length (emitted (trace (DetectAnomalies job w)))).
Proof.
  destruct (paced_DetectAnomalies job w) as (due & He & Hc).
  rewrite He, stamp_from_length. exact Hc.
Qed.

Lemma due_findings_same_tables (job : JobData.t) (w w' : World) :
  jobs w' = jobs w -> anomaly_rules w' = anomaly_rules w ->
  due_findings job w' = due_findings job w.
Proof. intros Hj Hr. unfold due_findings. rewrite Hj, Hr. reflexivity. Qed.

Lemma invocations_healthy (records : list JobData.t) :
  forall w : World,
    faults w = [] ->
    emitted (flat_map (fun run => trace (snd run) ++ failure_line run)
               (invocations records w))
    = stamp_from (clock w) (flat_map (fun job => due_findings job w) records).
Proof.
  induction records as [|job rest IH]; intros w Hf; [reflexivity|].
  cbn [invocations flat_map snd].
  destruct (orderly_DetectAnomalies job w) as (Hj & Hr & _ & Hq).
  destruct (Hq Hf) as [Hf' _].
  destruct (healthy_emitted job w Hf) as [He _].
  rewrite !emitted_app, (IH _ Hf'), stamp_from_app.
  assert (Hline : emitted (failure_line (job, DetectAnomalies job w)) = []).
  { unfold failure_line. cbn [fst snd].
    destruct (val (DetectAnomalies job w)); reflexivity. }
  rewrite Hline, clock_after_detection, He, stamp_from_length, app_nil_r.
  f_equal. f_equal. apply flat_map_ext. intros job'.
  apply due_findings_same_tables; assumption.
Qed.

Lemma due_findings_built_for (job : JobData.t) (w : World)
    (build : Z -> Anomaly.t) (t : Z) :
  In build (due_findings job w) -> built_for job t (build t).
Proof.
  unfold due_findings. destruct (select_statistics (jobs w)) as [stats|e].
  - apply due_built_for.
  - intros Hin. apply (due_built_for job (mkStatistics 0 0 0 0) []).
    apply in_or_app. left. exact Hin.
Qed.

Lemma records_of_stored (rows : list JobsRow.t) (job : JobData.t) :
  In job (records_of rows) -> job_exists (JobData.JobID job) rows = true.
Proof.
  unfold records_of. rewrite in_flat_map. intros (row & Hin & Hjob).
  destruct (scan_job row) as [job'|e] eqn:Hscan; [|destruct Hjob].
  destruct Hjob as [<-|[]].
  destruct (scan_job_blank row Hscan) as [_ Hid].
  unfold job_exists. apply existsb_exists. exists row.
  split; [exact Hin|]. rewrite Hid. apply String.eqb_refl.
Qed.

(** X22.  The batch run when nothing fails.  [DetectAnomaliesForAllJobs]
    then emits, row after row, exactly the findings that the record built
    from each row owes against the tables as they were when the batch
    started: the statistics are computed from [jobs] and the rules are read
    from [anomaly_rules], neither of which a run changes, so the runs do not
    influence each other.  Every finding is stored, and [anomalies] grows by
    these findings and nothing else. *)
Theorem batch_judges_every_posting_against_the_same_tables (w : World) :
  faults w = [] ->
  forallb scannable (jobs w) = true ->
  let o := DetectAnomaliesForAllJobs w in
  val o = None
  /\ emitted (trace o)
     = stamp_from (clock w)
         (flat_map (fun job => due_findings job w) (records_of (jobs w)))
  /\ Forall2 stored_as (emitted (trace o)) (persisted (trace o))
  /\ anomalies (post o) = anomalies w ++ persisted (trace o).
Proof.
  intros Hf Hall o. subst o.
  assert (Hh : hd Healthy (faults w) = Healthy) by (rewrite Hf; reflexivity).
  pose proof (batch_returns w Hh Hall) as Hv.
  destruct (batch_run w Hv) as [_ Ht].
  destruct (orderly_DetectAnomaliesForAllJobs w) as (_ & _ & Ha & Hq).
  destruct (Hq Hf) as [_ Hans]. rewrite Forall_forall in Hans.
  assert (He : emitted (trace (DetectAnomaliesForAllJobs w))
               = stamp_from (clock w)
                   (flat_map (fun job => due_findings job w)
                      (records_of (jobs w)))).
  { rewrite Ht. cbn [emitted]. rewrite invocations_healthy.
    - unfold take_fault. rewrite Hf. reflexivity.
    - unfold take_fault. rewrite Hf. exact Hf. }
  split; [exact Hv|]. split; [exact He|]. split; [|exact Ha].
  apply all_saved. intros a r Hin.
  pose proof (Hans _ Hin) as Hr. cbn [answered_by] in Hr. rewrite Hr.
  apply in_emitted in Hin. rewrite He in Hin.
  apply in_stamp_from in Hin. destruct Hin as (build & t & Hb & ->).
  apply in_flat_map in Hb. destruct Hb as (job & Hjob & Hb).
  destruct (due_findings_built_for job w build t Hb) as (_ & -> & _).
  apply records_of_stored. exact Hjob.
Qed.

(** ** A row that cannot be scanned *)

Lemma detect_each_stops (before after : list JobsRow.t) (bad : JobsRow.t)
    (e : error) :
  forallb scannable before = true ->
  scan_job bad = Err e ->
  forall w : World,
    val (detect_each (before ++ bad :: after) w)
    = Some (Errorf "error scanning job" e)
    /\ trace (detect_each (before ++ bad :: after) w)
       = flat_map (fun run => trace (snd run) ++ failure_line run)
           (invocations (records_of before) w).
Proof.
  intros Hall Hbad. induction before as [|row rest IH]; intros w.
  - cbn [app detect_each]. rewrite Hbad. split; reflexivity.
  - cbn [forallb] in Hall. unfold scannable at 1 in Hall.
    apply andb_true_iff in Hall. destruct Hall as [Hrow Hrest].
    cbn [app detect_each records_of flat_map].
    destruct (scan_job row) as [job|e']; [|discriminate].
    fold (records_of rest). cbn [app invocations flat_map snd fst].
    rewrite !val_bind, !trace_bind. cbv beta.
    rewrite <- app_assoc.
    unfold failure_line at 1. cbn [fst snd].
    destruct (IH Hrest (post (DetectAnomalies job w))) as [IHv IHt].
    destruct (val (DetectAnomalies job w)) as [found|err];
      cbn [trace val Printf emit ret post app];
      rewrite IHv, IHt; split; reflexivity.
Qed.

Lemma batch_enumerates (w : World) :
  hd Healthy (faults w) = Healthy ->
  let each := detect_each (jobs w) (post (take_fault w)) in
  val (DetectAnomaliesForAllJobs w) = val each
  /\ trace (DetectAnomaliesForAllJobs w)
     = EvSelectJobs (Ok (mkRows (jobs w) None)) :: trace each.
Proof.
  intros Hh each. subst each. unfold DetectAnomaliesForAllJobs.
  rewrite val_bind, trace_bind, db_Query_jobs_run. cbv zeta.
  cbn [val post trace]. rewrite Hh. cbn [open_rows delivered rows_Err].
  rewrite val_bind, trace_bind. cbv beta.
  destruct (val (detect_each (jobs w) (post (take_fault w))));
    cbn [val trace ret app]; rewrite app_nil_r; split; reflexivity.
Qed.

(** X24.  One row that cannot be scanned stops the batch.  When the
    enumeration of [jobs] reaches a row whose company_rating is NULL,
    [DetectAnomaliesForAllJobs] returns "error scanning job": the rows
    before it have been checked, one run of [DetectAnomalies] each, and
    their findings stay stored; the rows after it are never checked. *)
Theorem an_unrated_row_stops_the_batch
    (before after : list JobsRow.t) (bad : JobsRow.t) (w : World) :
  hd Healthy (faults w) = Healthy ->
  jobs w = before ++ bad :: after ->
  forallb scannable before = true ->
  JobsRow.company_rating bad = None ->
  let o := DetectAnomaliesForAllJobs w in
  val o = Some (Errorf "error scanning job" (ErrScanNull 2))
  /\ trace o
     = EvSelectJobs (Ok (mkRows (jobs w) None))
         :: flat_map (fun run => trace (snd run) ++ failure_line run)
              (invocations (records_of before) (post (take_fault w)))
  /\ anomalies (post o) = anomalies w ++ persisted (trace o).
Proof.
  intros Hh Hjobs Hall Hbad o. subst o.
  assert (Hscan : scan_job bad = Err (ErrScanNull 2))
    by (unfold scan_job; rewrite Hbad; reflexivity).
  destruct (orderly_DetectAnomaliesForAllJobs w) as (_ & _ & Ha & _).
  destruct (batch_enumerates w Hh) as [Hv Ht]. cbv zeta in Hv, Ht.
  destruct (@detect_each_stops before after bad _ Hall Hscan
              (post (take_fault w))) as [Hv' Ht'].
  rewrite <- Hjobs in Hv', Ht'.
  split; [rewrite Hv; exact Hv'|]. split; [|exact Ha].
  rewrite Ht, Ht'. reflexivity.
Qed.

End Batch_again.

(** ** Values that are not numbers *)

Lemma SFcompare_nan_r (x : spec_float) : SFcompare x S754_nan = None.
Proof. destruct x; reflexivity. Qed.

Lemma is_nan_Prim2SF (v : float) :
  PrimFloat.is_nan v = true -> Prim2SF v = S754_nan.
Proof.
  unfold PrimFloat.is_nan. rewrite FloatAxioms.eqb_spec. unfold SFeqb.
  destruct (Prim2SF v) as [s|s| |s m e]; cbn [SFcompare].
  - discriminate.
  - destruct s; discriminate.
  - reflexivity.
  - rewrite Z.compare_refl, Pos.compare_cont_refl. destruct s; discriminate.
Qed.

(** A comparison with NaN does not hold, whichever the operator. *)
Lemma ltb_nan (x y : float) :
  PrimFloat.is_nan x = true \/ PrimFloat.is_nan y = true ->
  PrimFloat.ltb x y = false.
Proof.
  rewrite FloatAxioms.ltb_spec. unfold SFltb.
  intros [H|H]; rewrite (is_nan_Prim2SF _ H), ?SFcompare_nan_r; reflexivity.
Qed.

Lemma leb_nan (x y : float) :
  PrimFloat.is_nan x = true \/ PrimFloat.is_nan y = true ->
  PrimFloat.leb x y = false.
Proof.
  rewrite FloatAxioms.leb_spec. unfold SFleb.
  intros [H|H]; rewrite (is_nan_Prim2SF _ H), ?SFcompare_nan_r; reflexivity.
Qed.

Lemma eqb_nan (x y : float) :
  PrimFloat.is_nan x = true \/ PrimFloat.is_nan y = true ->
  PrimFloat.eqb x y = false.
Proof.
  rewrite FloatAxioms.eqb_spec. unfold SFeqb.
  intros [H|H]; rewrite (is_nan_Prim2SF _ H), ?SFcompare_nan_r; reflexivity.
Qed.

Lemma compareValues_nan (value threshold : float)
    (operator : ComparisonOperator) :
  PrimFloat.is_nan value = true \/ PrimFloat.is_nan threshold = true ->
  compareValues value threshold operator = false.
Proof.
  intros H. unfold compareValues.
  rewrite (ltb_nan threshold value), (leb_nan threshold value),
    (ltb_nan value threshold), (leb_nan value threshold),
    (eqb_nan value threshold) by tauto.
  repeat match goal with |- context [if ?b then _ else _] => destruct b end;
    reflexivity.
Qed.

(** NaN goes through the z-score: the subtraction and the division keep
    it, and [math.Abs(NaN) > 3] does not hold. *)
Lemma zScore_nan (value mean stddev : float) :
  PrimFloat.is_nan value = true \/ PrimFloat.is_nan mean = true
  \/ PrimFloat.is_nan stddev = true ->
  deviates (zScore value mean stddev) = false.
Proof.
  intros H. unfold deviates, zScore.
  rewrite FloatAxioms.ltb_spec, FloatAxioms.abs_spec, FloatAxioms.div_spec,
    FloatAxioms.sub_spec.
  assert (Hdiv : SF64div (SF64sub (Prim2SF value) (Prim2SF mean))
                   (Prim2SF stddev) = S754_nan).
  { destruct H as [H|[H|H]]; rewrite (is_nan_Prim2SF _ H).
    - reflexivity.
    - destruct (Prim2SF value); reflexivity.
    - destruct (SF64sub _ _); reflexivity. }
  rewrite Hdiv. cbn [SFabs]. unfold SFltb.
  rewrite SFcompare_nan_r. reflexivity.
Qed.

Definition is_number (x : float) : Prop := PrimFloat.is_nan x = false.

Lemma not_nan (x : float) :
  (PrimFloat.is_nan x = true -> False) -> is_number x.
Proof.
  unfold is_number. destruct (PrimFloat.is_nan x); [intros H; destruct H|];
    reflexivity.
Qed.

Section Numbers.
Context {platform : Platform}.

Lemma due_numbers (job : JobData.t) (stats : Statistics)
    (rules : list AnomalyRule.t) (build : Z -> Anomaly.t) (t : Z) :
  In build (null_due job ++ salary_due job stats ++ rating_due job stats
              ++ rules_due job rules) ->
  is_number (Anomaly.Value (build t))
  /\ is_number (Anomaly.Threshold (build t)).
Proof.
  intros Hin. apply in_app_or in Hin. destruct Hin as [Hin|Hin].
  { unfold null_due in Hin. destruct (0 <? _)%nat; [|destruct Hin].
    destruct Hin as [<-|[]]. split; reflexivity. }
  apply in_app_or in Hin. destruct Hin as [Hin|Hin].
  { unfold salary_due in Hin.
    destruct (JobData.MaxSalary job) as [v|]; [|destruct Hin].
    destruct (deviates _) eqn:Hdev; [|destruct Hin].
    destruct Hin as [<-|[]]. cbn [salaryDeviationAnomaly Anomaly.Value
                                    Anomaly.Threshold].
    split; apply not_nan; intros Hnan;
      rewrite zScore_nan in Hdev by tauto; discriminate. }
  apply in_app_or in Hin. destruct Hin as [Hin|Hin].
  { unfold rating_due in Hin. destruct (negb _); [|destruct Hin].
    destruct (deviates _) eqn:Hdev; [|destruct Hin].
    destruct Hin as [<-|[]]. cbn [ratingDeviationAnomaly Anomaly.Value
                                    Anomaly.Threshold].
    split; apply not_nan; intros Hnan;
      rewrite zScore_nan in Hdev by tauto; discriminate. }
  destruct (in_rules_due _ _ _ Hin) as (rule & v & _ & _ & Hs & ->).
  pose proof (rule_switch_compared _ _ Hs) as Hcmp.
  cbn [ruleAnomaly Anomaly.Value Anomaly.Threshold].
  split; apply not_nan; intros Hnan;
    rewrite compareValues_nan in Hcmp by tauto; discriminate.
Qed.

(** X23.  No finding carries a NaN.  Whatever the record, the tables and
    the faults, the value and the threshold of every finding that
    [DetectAnomalies] emits are numbers: every comparison with NaN is false
    in Go, for each of the five operators and for [math.Abs(z) > 3].  So a
    salary or a rating that is NaN is never reported, neither as a
    deviation nor by any rule, a rule whose threshold is NaN never matches,
    and no deviation is reported while the mean or the standard deviation
    is NaN. *)
Theorem no_finding_carries_a_NaN (job : JobData.t) (w : World) :
  Forall (fun a => is_number (Anomaly.Value a)
                   /\ is_number (Anomaly.Threshold a))
    (emitted (trace (DetectAnomalies job w)))
  /\ (forall (rule : AnomalyRule.t) (v : float),
        rule_switch job rule = Some (v, true) ->
        is_number v /\ is_number (AnomalyRule.Value rule))
  /\ (forall (stats : Statistics) (v : float),
        JobData.MaxSalary job = Some v ->
        PrimFloat.is_nan v = true \/ PrimFloat.is_nan (AvgSalary stats) = true
        \/ PrimFloat.is_nan (SalaryStdDev stats) = true ->
        salary_due job stats = [])
  /\ (forall stats : Statistics,
        PrimFloat.is_nan (JobData.CompanyRating job) = true
        \/ PrimFloat.is_nan (AvgRating stats) = true
        \/ PrimFloat.is_nan (RatingStdDev stats) = true ->
        rating_due job stats = []).
Proof.
  split; [|split; [|split]].
  - destruct (emitted_due job w) as (stats & rules & due & -> & Hincl).
    apply stamped_types. intros build now Hin.
    apply (due_numbers job stats rules). apply Hincl. exact Hin.
  - intros rule v Hs. pose proof (rule_switch_compared _ _ Hs) as Hcmp.
    split; apply not_nan; intros Hnan;
      rewrite compareValues_nan in Hcmp by tauto; discriminate.
  - intros stats v Hv Hnan. unfold salary_due. rewrite Hv.
    rewrite zScore_nan by exact Hnan. reflexivity.
  - intros stats Hnan. unfold rating_due.
    rewrite zScore_nan by exact Hnan.
    destruct (negb _); reflexivity.
Qed.

End Numbers.

(** * Further runs on concrete data *)

(** X1, applied: one posting qualifies for the statistics, which is one too
    few. *)
Lemma one_qualifying_posting_is_not_enough :
  let job := posting "job-1" 4%float None (Some 100%float) in
  let w := world_of [stored_row "job-1" (Some 4%float) (Some 100%float)] [] [] in
  List.length (filter qualifies (jobs w)) = 1%nat
  /\ is_ok (val (getStatistics (platform := sample_platform) w)) = false
  /\ exists e : error,
       val (DetectAnomalies (platform := sample_platform) job w)
       = Err (Errorf "error getting statistics"
                (Errorf "error getting statistics" e))
       /\ emitted (trace (DetectAnomalies (platform := sample_platform) job w))
          = stamp_from (clock w) (null_due job).
Proof.
  cbv zeta.
  destruct (baseline_needs_two_qualifying_postings (platform := sample_platform)
              (world_of [stored_row "job-1" (Some 4%float) (Some 100%float)] [] []))
    as [_ Hfew].
  split; [vm_compute; reflexivity|]. split; [vm_compute; reflexivity|].
  apply Hfew. vm_compute. lia.
Defined.

(** A posting three times as well paid as the best paid of [three_jobs],
    and a rule that it violates. *)
Definition well_paid : JobData.t := posting "job-1" 3%float None (Some 1000%float).

Definition high_pay_rule : AnomalyRule.t :=
  AnomalyRule.mk 1 "High pay" "Maximum salary above 500"
    AnomalyTypeMaxSalary GreaterThan 500%float true 10 10.

(** X4, applied: the posting owes a salary deviation and the finding of
    the rule; both are stored and returned. *)
Lemma detection_of_a_well_paid_posting :
  let w := world_of three_jobs [high_pay_rule] [] in
  let o := DetectAnomalies (platform := sample_platform) well_paid w in
  map (fun a => (Anomaly.Type_ a, Anomaly.CreatedAt a)) (emitted (trace o))
  = [(AnomalyTypeDeviation, 1000); (AnomalyTypeMaxSalary, 1001)]
  /\ emitted (trace o)
     = stamp_from 1000 (due_findings (platform := sample_platform) well_paid w)
  /\ Forall2 stored_as (emitted (trace o)) (persisted (trace o))
  /\ val o = Ok (persisted (trace o))
  /\ faults (post o) = [].
Proof.
  cbv zeta.
  destruct (healthy_detection_stores_every_due_finding
              (platform := sample_platform) well_paid
              (world_of three_jobs [high_pay_rule] []) eq_refl eq_refl)
    as (He & Hs & _ & Hv & Hf).
  split; [vm_compute; reflexivity|]. auto.
Defined.

(** X5, applied: the same call made twice leaves four findings. *)
Lemma two_runs_store_four_findings :
  let w := world_of three_jobs [high_pay_rule] [] in
  let o1 := DetectAnomalies (platform := sample_platform) well_paid w in
  let o2 := DetectAnomalies (platform := sample_platform) well_paid (post o1) in
  List.length (anomalies (post o2)) = 4%nat
  /\ emitted (trace o2)
     = stamp_from 1002 (due_findings (platform := sample_platform) well_paid w).
Proof.
  cbv zeta.
  destruct (repeated_detection_stores_findings_again
              (platform := sample_platform) well_paid
              (world_of three_jobs [high_pay_rule] []) eq_refl eq_refl)
    as [He Hlen].
  split; [rewrite Hlen; vm_compute; reflexivity | exact He].
Defined.

(** X6, applied: the well paid posting under an id that is not stored. *)
Lemma an_unsaved_posting_has_findings_but_none_is_returned :
  let job := posting "job-9" 3%float None (Some 1000%float) in
  let w := world_of three_jobs [high_pay_rule] [] in
  let o := DetectAnomalies (platform := sample_platform) job w in
  List.length (emitted (trace o)) = 2%nat
  /\ val o = Ok []
  /\ anomalies (post o) = [].
Proof.
  cbv zeta.
  destruct (findings_of_an_unsaved_posting_are_dropped
              (platform := sample_platform)
              (posting "job-9" 3%float None (Some 1000%float))
              (world_of three_jobs [high_pay_rule] []) eq_refl eq_refl)
    as (He & _ & Ha & Hv).
  split; [rewrite He; vm_compute; reflexivity|].
  split; [apply Hv; vm_compute; reflexivity | exact Ha].
Defined.

(** X7, applied: the three postings of [three_jobs] are each flagged. *)
Lemma three_postings_three_null_value_findings :
  let o :=
    DetectAnomaliesForAllJobs (platform := sample_platform)
      (world_of three_jobs [] []) in
  let found := filter (of_type AnomalyTypeNullValues) (emitted (trace o)) in
  map Anomaly.JobID found = ["job-1"; "job-2"; "job-3"]
  /\ Forall (fun a => incl never_selected (Anomaly.Violations a)) found.
Proof.
  cbv zeta.
  apply (batch_flags_every_posting (platform := sample_platform)
           (world_of three_jobs [] [])).
  vm_compute. reflexivity.
Defined.

(** The table after the findings of [well_paid] were stored. *)
Definition world_with_findings : World :=
  post (DetectAnomalies (platform := sample_platform) well_paid
          (world_of three_jobs [high_pay_rule] [])).

(** X8, applied. *)
Lemma lookup_of_the_well_paid_posting :
  exists found : list Anomaly.t,
    val (GetAnomaliesByJobID "job-1" world_with_findings) = Ok found
    /\ Permutation found
         (map as_read (filter (of_job "job-1") (anomalies world_with_findings)))
    /\ Forall (fun a => Anomaly.JobID a = "job-1" /\ Anomaly.Violations a = [])
         found.
Proof.
  destruct (lookup_returns_the_findings_of_the_record "job-1"
              world_with_findings eq_refl)
    as (found & Hv & Hp & _ & Hall & _).
  exists found. auto.
Defined.

(** X9, applied: the two findings of the posting carry the timestamps 1000
    and 1001. *)
Lemma lookup_and_listing_agree_on_the_well_paid_posting :
  exists every found : list Anomaly.t,
    val (GetAllAnomalies world_with_findings) = Ok every
    /\ val (GetAnomaliesByJobID "job-1" world_with_findings) = Ok found
    /\ map Anomaly.CreatedAt found = [1001; 1000]
    /\ found = filter (of_job "job-1") every.
Proof.
  destruct (@lookup_is_the_full_listing_restricted_to_the_record "job-1"
              world_with_findings eq_refl)
    as (every & found & He & Hf & _ & _ & _ & Heq).
  exists every, found. split; [exact He|]. split; [exact Hf|]. split.
  - vm_compute in Hf. injection Hf as <-. reflexivity.
  - apply Heq. vm_compute. repeat constructor; cbn; intuition discriminate.
Defined.

(** X10, applied: the deviation was detected first and comes back last. *)
Lemma findings_of_the_well_paid_posting_come_back_reversed :
  let o :=
    DetectAnomalies (platform := sample_platform) well_paid
      (world_of three_jobs [high_pay_rule] []) in
  map Anomaly.Type_ (persisted (trace o))
  = [AnomalyTypeDeviation; AnomalyTypeMaxSalary]
  /\ val (GetAnomaliesByJobID "job-1" (post o))
     = Ok (rev (map as_read (persisted (trace o)))).
Proof.
  cbv zeta. split; [vm_compute; reflexivity|].
  apply (lookup_after_detection_returns_its_findings_reversed
           (platform := sample_platform) well_paid
           (world_of three_jobs [high_pay_rule] []));
    reflexivity.
Defined.

(** X11, applied: of two rules the first is switched off. *)
Lemma the_low_rating_rule_alone_is_left :
  let w := world_of three_jobs [high_pay_rule; low_rating_rule] [] in
  let o := ToggleAnomalyRule 1 false w in
  val o = None
  /\ forall job : JobData.t,
       rules_due job
         (order_by_desc AnomalyRule.CreatedAt (anomaly_rules (post o)))
       = rule_due job low_rating_rule.
Proof.
  cbv zeta.
  destruct (a_rule_switched_off_is_silent 1
              (world_of three_jobs [high_pay_rule; low_rating_rule] []) eq_refl)
    as (Hv & _ & Hdue & _).
  split; [apply Hv; vm_compute; auto|].
  intros job. rewrite Hdue. cbn. apply app_nil_r.
Defined.

(** X12, applied: the rule is deleted after it produced a finding. *)
Lemma the_finding_of_a_deleted_rule_stays :
  let o := DeleteAnomalyRule 1 world_with_findings in
  val o = None
  /\ anomaly_rules (post o) = []
  /\ List.length (anomalies (post o)) = 2%nat.
Proof.
  cbv zeta.
  destruct (a_deleted_rule_is_gone_but_its_findings_stay 1 world_with_findings
              eq_refl)
    as (Hv & _ & _ & _ & Ha).
  split; [apply Hv; vm_compute; auto|].
  split; [vm_compute; reflexivity|]. rewrite Ha. vm_compute. reflexivity.
Defined.

(** X13, applied: a second rule is created and fetched. *)
Lemma the_low_pay_rule_is_created_and_fetched :
  let w := world_of three_jobs [high_pay_rule] [] in
  let o := CreateAnomalyRule low_pay_rule w in
  AnomalyRule.ID (fst (val o)) = 2
  /\ snd (val o) = None
  /\ exists fetched : AnomalyRule.t,
       val (GetAnomalyRule 2 (post o)) = Found fetched
       /\ content fetched = content (fst (val o)).
Proof.
  cbv zeta.
  destruct (@a_created_rule_can_be_fetched low_pay_rule
              (world_of three_jobs [high_pay_rule] []))
    as (Hv & _ & _ & (fetched & Hget & Hsame & _) & _).
  - reflexivity.
  - repeat constructor. vm_compute. discriminate.
  - reflexivity.
  - split; [reflexivity|]. split; [exact Hv|].
    exists fetched. split; [exact Hget | exact Hsame].
Defined.

(** X14, applied: the caller's copy says the rule was created at time 0;
    the stored row keeps its creation time, 10, and the rule its place
    after the rule created at 20, here with the rows of the table taken in
    reverse. *)
Lemma an_updated_rule_keeps_its_creation_time :
  let w := world_of three_jobs [high_pay_rule; low_rating_rule] [] in
  let rule :=
    AnomalyRule.mk 1 "Higher pay" "Maximum salary above 900"
      AnomalyTypeMaxSalary GreaterThan 900%float true 0 0 in
  let o := UpdateAnomalyRule rule w in
  snd (val o) = None
  /\ (exists stored : AnomalyRule.t,
        find (has_id 1) (anomaly_rules (post o)) = Some stored
        /\ content stored = content rule
        /\ AnomalyRule.CreatedAt stored = 10)
  /\ map AnomalyRule.ID
       (order_by_desc AnomalyRule.CreatedAt (rev (anomaly_rules (post o))))
     = [2; 1].
Proof.
  cbv zeta.
  pose proof (an_update_keeps_creation_time_and_order
                (AnomalyRule.mk 1 "Higher pay" "Maximum salary above 900"
                   AnomalyTypeMaxSalary GreaterThan 900%float true 0 0)
                (world_of three_jobs [high_pay_rule; low_rating_rule] [])
                eq_refl) as (_ & _ & H).
  change (find _ (anomaly_rules (world_of three_jobs _ [])))
    with (Some high_pay_rule) in H.
  change (name_clash _ (anomaly_rules (world_of three_jobs _ [])))
    with false in H.
  cbv iota in H. destruct H as (Hv & (stored & Hfind & Hsame & Hcreated) & Horder).
  split; [exact Hv|]. split.
  - exists stored. split; [exact Hfind|]. split; [exact Hsame | exact Hcreated].
  - destruct (Horder _ well_paid (Permutation_sym (Permutation_rev _)))
      as [_ Hfixed].
    destruct Hfixed as [Hids _].
    + vm_compute. repeat constructor; cbn; intuition discriminate.
    + rewrite Hids. reflexivity.
Defined.

(** X15, applied: a fresh database, and a posting with a negative salary. *)
Lemma a_negative_salary_goes_unnoticed :
  let o := createDefaultAnomalyRules (world_of three_jobs [] []) in
  let job := posting "job-1" 3%float None (Some (-1000)%float) in
  val o = None
  /\ List.length (anomaly_rules (post o)) = 1%nat
  /\ rules_due job (order_by_desc AnomalyRule.CreatedAt (anomaly_rules (post o)))
     = [].
Proof.
  cbv zeta.
  destruct (the_default_rule_never_fires (world_of three_jobs [] []) eq_refl)
    as (Hv & Hr & _ & Hdue).
  split; [exact Hv|]. split; [rewrite Hr; reflexivity|].
  rewrite Hdue. reflexivity.
Defined.

(** X16, applied: the posting job-2 is saved again with another salary. *)
Lemma a_posting_saved_again_is_overwritten :
  let job := posting "job-2" 4%float None (Some 150%float) in
  let o := CreateJobData job (world_of three_jobs [] []) in
  val o = None
  /\ map JobsRow.job_id (jobs (post o)) = ["job-1"; "job-2"; "job-3"]
  /\ filter (same_job "job-2") (jobs (post o)) = [row_of job].
Proof.
  cbv zeta.
  destruct (a_saved_posting_has_one_row
              (posting "job-2" 4%float None (Some 150%float))
              (world_of three_jobs [] []))
    as (Hv & Hrow & _).
  - reflexivity.
  - repeat constructor; vm_compute; intuition discriminate.
  - split; [exact Hv|]. split; [vm_compute; reflexivity | exact Hrow].
Defined.

(** X17, applied: a posting with every required field set is saved and
    then flagged. *)
Lemma a_complete_posting_is_flagged :
  let job := posting "job-4" 4%float None (Some 150%float) in
  let o := CreateJobData job (world_of three_jobs [] []) in
  let batch := DetectAnomaliesForAllJobs (platform := sample_platform) (post o) in
  nullViolations job = []
  /\ val batch = None
  /\ exists a : Anomaly.t,
       In a (emitted (trace batch))
       /\ Anomaly.Type_ a = AnomalyTypeNullValues
       /\ Anomaly.JobID a = "job-4"
       /\ incl never_selected (Anomaly.Violations a).
Proof.
  cbv zeta.
  destruct (a_saved_posting_is_flagged_by_the_next_batch
              (platform := sample_platform)
              (posting "job-4" 4%float None (Some 150%float))
              (world_of three_jobs [] []) eq_refl eq_refl)
    as (_ & _ & Hbatch & Hflag).
  split; [reflexivity|]. split; [exact Hbatch | exact Hflag].
Defined.

(** X18, applied: three requests for a rule. *)
Lemma three_requests_for_a_rule :
  let w := world_of three_jobs [high_pay_rule] [] in
  val (AnomalyRuleHandler.GetAnomalyRule "one" w)
  = Response 400 (ErrorText "invalid rule ID")
  /\ val (AnomalyRuleHandler.GetAnomalyRule "1" w)
     = Response 200 (OneRule high_pay_rule)
  /\ val (AnomalyRuleHandler.GetAnomalyRule "2" w)
     = Response 500 (ErrorOf (Plain "anomaly rule with ID 2 not found")).
Proof.
  cbv zeta.
  pose proof (a_missing_rule_is_answered_500 "one"
                (world_of three_jobs [high_pay_rule] [])) as H0.
  pose proof (a_missing_rule_is_answered_500 "1"
                (world_of three_jobs [high_pay_rule] [])) as H1.
  pose proof (a_missing_rule_is_answered_500 "2"
                (world_of three_jobs [high_pay_rule] [])) as H2.
  cbv zeta in H0, H1, H2.
  change (ParseInt "one") with (@None Z) in H0.
  change (ParseInt "1") with (Some 1) in H1.
  change (ParseInt "2") with (Some 2) in H2.
  split; [apply H0|]. split.
  - apply (H1 eq_refl). reflexivity.
  - apply (H2 eq_refl). vm_compute. intuition discriminate.
Defined.

(** X19, applied. *)
Lemma the_low_pay_rule_is_served :
  let w := world_of three_jobs [high_pay_rule] [] in
  let o := CreateAnomalyRule low_pay_rule w in
  exists served : AnomalyRule.t,
    val (AnomalyRuleHandler.GetAnomalyRule "2" (post o))
    = Response 200 (OneRule served)
    /\ content served = content (fst (val o)).
Proof.
  cbv zeta.
  destruct (@a_created_rule_is_served_under_its_id low_pay_rule
              (world_of three_jobs [high_pay_rule] []))
    as (served & Hv & Hsame & _).
  - reflexivity.
  - repeat constructor. vm_compute. discriminate.
  - vm_compute. intuition discriminate.
  - reflexivity.
  - exists served. split; [exact Hv | exact Hsame].
Defined.

(** X20, applied. *)
Lemma the_second_delete_fails :
  let w := world_of three_jobs [high_pay_rule] [] in
  let o := AnomalyRuleHandler.DeleteAnomalyRule "1" w in
  val o = Response 204 NoBody
  /\ val (AnomalyRuleHandler.DeleteAnomalyRule "1" (post o))
     = Response 500
         (ErrorOf (Plain "anomaly rule with ID 1 not found for deletion")).
Proof.
  cbv zeta.
  pose proof (a_repeated_delete_is_answered_500 "1"
                (world_of three_jobs [high_pay_rule] [])) as H.
  cbv zeta in H. change (ParseInt "1") with (Some 1) in H.
  destruct (H eq_refl) as (H1 & _ & H2); [vm_compute; auto|].
  split; [exact H1 | exact H2].
Defined.

(** X21, applied: one posting in the table. *)
Lemma a_batch_over_one_posting_fails_and_answers_200 :
  let w := world_of [stored_row "job-1" (Some 4%float) (Some 100%float)] [] [] in
  let o := AnomalyHandler.DetectAnomaliesForAllJobs (platform := sample_platform) w in
  val o = Response 200 (Message "Anomaly detection completed for all jobs")
  /\ In (EvPrintf "Error detecting anomalies for job job-1"
           (Errorf "error getting statistics"
              (Errorf "error getting statistics" (ErrScanNull 1))))
        (trace o).
Proof.
  cbv zeta.
  destruct (the_batch_endpoint_answers_200_though_every_run_failed
              (platform := sample_platform)
              (world_of [stored_row "job-1" (Some 4%float) (Some 100%float)] [] [])
              eq_refl eq_refl)
    as (Hv & _).
  - vm_compute. lia.
  - split; [exact Hv | find_in_list].
Defined.

(** X22, applied: the three postings of [three_jobs] owe their null-value
    finding and nothing else. *)
Lemma a_batch_over_three_postings :
  let w := world_of three_jobs [high_pay_rule] [] in
  let o := DetectAnomaliesForAllJobs (platform := sample_platform) w in
  val o = None
  /\ map (fun a => (Anomaly.JobID a, Anomaly.Type_ a, Anomaly.CreatedAt a))
       (emitted (trace o))
     = [("job-1", AnomalyTypeNullValues, 1000);
        ("job-2", AnomalyTypeNullValues, 1001);
        ("job-3", AnomalyTypeNullValues, 1002)]
  /\ List.length (anomalies (post o)) = 3%nat.
Proof.
  cbv zeta.
  destruct (batch_judges_every_posting_against_the_same_tables
              (platform := sample_platform)
              (world_of three_jobs [high_pay_rule] []) eq_refl eq_refl)
    as (Hv & He & Hs & Ha).
  split; [exact Hv|]. split; [rewrite He; vm_compute; reflexivity|].
  rewrite Ha. apply Forall2_length in Hs.
  rewrite length_app, <- Hs, He. vm_compute. reflexivity.
Defined.

(** X23, applied: a salary that is NaN under two rules, one of which
    every number satisfies. *)
Lemma a_NaN_salary_is_not_reported :
  let job := posting "job-1" 4%float None (Some PrimFloat.nan) in
  let below := negative_salary_rule in
  let above :=
    AnomalyRule.mk 2 "Salary" "Maximum salary is zero or more"
      AnomalyTypeMaxSalary GreaterThanOrEqual 0%float true 20 20 in
  salary_due (platform := sample_platform) job three_jobs_statistics = []
  /\ rule_due job below = []
  /\ rule_due job above = []
  /\ emitted (trace (DetectAnomalies (platform := sample_platform) job
                       (world_of three_jobs [below; above] [])))
     = [].
Proof.
  cbv zeta.
  destruct (no_finding_carries_a_NaN (platform := sample_platform)
              (posting "job-1" 4%float None (Some PrimFloat.nan))
              (world_of three_jobs [] []))
    as (_ & _ & Hsalary & _).
  split; [apply (Hsalary three_jobs_statistics PrimFloat.nan eq_refl);
          left; reflexivity|].
  repeat split; vm_compute; reflexivity.
Defined.

(** X24, applied: the second of three rows has no rating. *)
Lemma the_third_posting_is_never_checked :
  let rows :=
    [ stored_row "job-1" (Some 3%float) (Some 0%float);
      stored_row "job-2" None (Some 100%float);
      stored_row "job-3" (Some 5%float) (Some 200%float) ] in
  let o :=
    DetectAnomaliesForAllJobs (platform := sample_platform) (world_of rows [] []) in
  val o = Some (Errorf "error scanning job" (ErrScanNull 2))
  /\ map Anomaly.JobID (emitted (trace o)) = ["job-1"].
Proof.
  cbv zeta.
  destruct (an_unrated_row_stops_the_batch (platform := sample_platform)
              [stored_row "job-1" (Some 3%float) (Some 0%float)]
              [stored_row "job-3" (Some 5%float) (Some 200%float)]
              (stored_row "job-2" None (Some 100%float))
              (world_of
                 [ stored_row "job-1" (Some 3%float) (Some 0%float);
                   stored_row "job-2" None (Some 100%float);
                   stored_row "job-3" (Some 5%float) (Some 200%float) ] [] [])
              eq_refl eq_refl eq_refl eq_refl)
    as (Hv & Ht & _).
  split; [exact Hv | rewrite Ht; vm_compute; reflexivity].
Defined.

(** X25, applied: the rule "High pay" is switched off and on again; the
    rows of the table are then taken in reverse. *)
Lemma the_high_pay_rule_is_back :
  let w := world_of three_jobs [high_pay_rule; low_rating_rule] [] in
  let off := ToggleAnomalyRule 1 false w in
  let on := ToggleAnomalyRule 1 true (post off) in
  val on = None
  /\ option_map AnomalyRule.IsActive (find (has_id 1) (anomaly_rules (post on)))
     = Some true
  /\ forall job : JobData.t,
       rules_due job
         (order_by_desc AnomalyRule.CreatedAt (rev (anomaly_rules (post on))))
       = rules_due job (order_by_desc AnomalyRule.CreatedAt (anomaly_rules w)).
Proof.
  cbv zeta.
  destruct (@switching_off_and_on_again_restores_detection 1
              (world_of three_jobs [high_pay_rule; low_rating_rule] []) eq_refl)
    as (Hv & _ & Hdue).
  - intros r [<-|[<-|[]]] _; reflexivity.
  - split; [rewrite <- Hv; reflexivity|].
    split; [reflexivity|]. intros job.
    apply (Hdue _ job (Permutation_sym (Permutation_rev _))).
    vm_compute. repeat constructor; cbn; intuition discriminate.
Defined.

(** X26, applied: the listing of the findings breaks off after the first
    row. *)
Lemma a_listing_that_breaks_off_is_answered_500 :
  let w :=
    mkWorld (jobs world_with_findings) (anomaly_rules world_with_findings)
      (anomalies world_with_findings) 2 1 1002 [Interrupted 1] in
  val (AnomalyHandler.GetAllAnomalies w)
  = Response 500
      (ErrorOf (Caused (Errorf "error iterating anomalies" ErrDriver)))
  /\ val (AnomalyHandler.GetAnomaliesByJobID "job-2" world_with_findings)
     = Response 200 (Findings []).
Proof.
  cbv zeta.
  pose proof (the_list_endpoints_answer_200_or_500 "job-2"
                (mkWorld (jobs world_with_findings)
                   (anomaly_rules world_with_findings)
                   (anomalies world_with_findings) 2 1 1002 [Interrupted 1]))
    as Hbroken.
  pose proof (the_list_endpoints_answer_200_or_500 "job-2" world_with_findings)
    as Hruns.
  cbv zeta in Hbroken, Hruns.
  destruct Hbroken as (_ & Hevery & _). destruct Hruns as (Hjob & _).
  split; [exact Hevery | rewrite Hjob; vm_compute; reflexivity].
Defined.
